(** * SmartReminder: the notification scheduling subsystem

    A shallow embedding of [lib/notifications.ts] (both variants kept in the
    repository) and of the parts of [lib/db.ts] it talks to, followed by the
    properties of the subsystem's specification.

    Conventions of the model.
    - Time values (epoch milliseconds, what [Date.now()] and
      [Date.prototype.getTime] return) are integers, [Z].  The calendar
      arithmetic of [setDate] and [setMonth] is that of the integers; the
      limit of the Date range comes in where the code depends on it, at
      [toISOString], which throws on a date past it.  An Invalid Date
      ([NaN]) stored in a record is outside the model.
    - ISO date strings are represented by the time value they parse to.
    - The IndexedDB object store "scheduled-notifications" (key path [id]) is
      the list of its records in ascending key order, which is the order
      [getAll] returns them in.
    - Asynchronous functions become computations over an explicit [World];
      a rejected promise is the [Rejected] outcome.  The database opens and
      its requests succeed, but for [add] on a key that is taken; the
      Notification API is present.
    - A call runs as one step: the clock is read, not advanced, by the
      module, and time passes between calls.  [now] is what the first
      reading of the clock in a call returns; a reading the code takes
      further on in the call, as the one for [createdAt], returns the same
      here and may be later on the platform. *)

From Stdlib Require Import ZArith List String Ascii Bool Lia.
From Stdlib Require Import Permutation Sorted DecimalString.
From Stdlib Require OrderedTypeEx.
Import ListNotations.

Local Open Scope string_scope.
Local Open Scope list_scope.
Local Open Scope Z_scope.

(** ** Data model *)

Inductive NotificationPermissionStatus := default | granted | denied.

Inductive Priority := low | normal | high.
Inductive Category := reminder | overdue | deadline.
Inductive RecurringPattern := daily | weekly | monthly.

Record ScheduledNotification := mkNotification {
  id : string;
  taskId : string;
  title : string;
  body : string;
  scheduledTime : Z;
  isTriggered : bool;
  createdAt : Z;
  priority : option Priority;
  category : option Category;
  taskDueDate : option Z;
  isGrouped : option bool;
  groupId : option string;
  snoozeCount : option Z;
  originalScheduledTime : option Z;
  isRecurring : option bool;
  recurringPattern : option RecurringPattern
}.

(** The [Task] of [lib/db.ts]; [dueDate] and [reminderTime] hold the time
    value of the ISO string. *)
Module Task.
Record t := mk {
  id : string;
  title : string;
  dueDate : option Z;
  reminderTime : option Z;
  isRepeating : bool;
  repeatInterval : option RecurringPattern;
  isCompleted : bool
}.
End Task.

(** JavaScript's [a || b] on optional values: [undefined], [0] and [false]
    are falsy. *)
Definition or_default {A} (o : option A) (d : A) : A :=
  match o with Some a => a | None => d end.

Definition truthy_number (o : option Z) : option Z :=
  match o with
  | Some z => if z =? 0 then None else Some z
  | None => None
  end.

Definition truthy_bool (o : option bool) : bool := or_default o false.

Definition Priority_eqb (p q : Priority) : bool :=
  match p, q with
  | low, low | normal, normal | high, high => true
  | _, _ => false
  end.

Definition Category_eqb (c d : Category) : bool :=
  match c, d with
  | reminder, reminder | overdue, overdue | deadline, deadline => true
  | _, _ => false
  end.

(** ** [Array.prototype.sort]

    The sort is stable and the comparator is consulted for its sign only;
    for a consistent comparator this determines the result, computed here
    by insertion. *)
Section ArraySort.
Context {A : Type} (cmp : A -> A -> Z).

Fixpoint sort_insert (x : A) (l : list A) : list A :=
  match l with
  | [] => [x]
  | y :: l' => if cmp x y <=? 0 then x :: y :: l' else y :: sort_insert x l'
  end.

Definition array_sort (l : list A) : list A := fold_right sort_insert [] l.
End ArraySort.

(** ** Grouping of due notifications *)

(** [const priorityOrder = { high: 3, normal: 2, low: 1 }] *)
Definition priorityOrder (p : Priority) : Z :=
  match p with high => 3 | normal => 2 | low => 1 end.

(** The comparator handed to [sort] in [groupNotificationsByTimeAndPriority]. *)
Definition compareNotifications (a b : ScheduledNotification) : Z :=
  let aPriority := priorityOrder (or_default (priority a) normal) in
  let bPriority := priorityOrder (or_default (priority b) normal) in
  if negb (aPriority =? bPriority) then bPriority - aPriority
  else scheduledTime a - scheduledTime b.

(** The loop state: [groups], [currentGroup], [groupStartTime]. *)
Record GroupingState := mkGrouping {
  groups : list (list ScheduledNotification);
  currentGroup : list ScheduledNotification;
  groupStartTime : Z
}.

(** One iteration of [for (const notification of sorted)]. *)
Definition grouping_step (timeWindow : Z) (st : GroupingState)
    (notification : ScheduledNotification) : GroupingState :=
  if (List.length (currentGroup st) =? 0)%nat
     || (scheduledTime notification - groupStartTime st <=? timeWindow)
  then
    mkGrouping (groups st)
      (currentGroup st ++ [notification])
      (if (List.length (currentGroup st) =? 0)%nat
       then scheduledTime notification else groupStartTime st)
  else
    mkGrouping (groups st ++ [currentGroup st])
      [notification]
      (scheduledTime notification).

Definition groupNotificationsByTimeAndPriority
    (notifications : list ScheduledNotification) (timeWindow : Z)
    : list (list ScheduledNotification) :=
  let sorted := array_sort compareNotifications notifications in
  let st := fold_left (grouping_step timeWindow) sorted (mkGrouping [] [] 0) in
  if (0 <? List.length (currentGroup st))%nat
  then groups st ++ [currentGroup st]
  else groups st.

(** ** [Date] arithmetic (ECMAScript, "Date Objects")

    [setDate] and [setMonth] work on the local calendar: the time value is
    moved to local time, split into year, month, day and time within the day,
    recombined with the new field by [MakeDay]/[MakeDate], and moved back.
    [setDate] and [setMonth] below return the time so computed; the
    [TimeClip] that ends them on the platform is kept apart, and is applied
    where what follows depends on the date being valid. *)
Module JSDate.

Definition msPerDay : Z := 86400000.

Definition Day (t : Z) : Z := t / msPerDay.
Definition TimeWithinDay (t : Z) : Z := t mod msPerDay.

(** Day number (days since 1970-01-01) of a proleptic Gregorian date,
    [m] in 1..12. *)
Definition days_from_civil (y m d : Z) : Z :=
  let y := if m <=? 2 then y - 1 else y in
  let era := y / 400 in
  let yoe := y - era * 400 in
  let doy := (153 * (if 2 <? m then m - 3 else m + 9) + 2) / 5 + d - 1 in
  let doe := yoe * 365 + yoe / 4 - yoe / 100 + doy in
  era * 146097 + doe - 719468.

(** The inverse: year, month (1..12) and day of month of a day number. *)
Definition civil_from_days (z : Z) : Z * Z * Z :=
  let z := z + 719468 in
  let era := z / 146097 in
  let doe := z - era * 146097 in
  let yoe := (doe - doe / 1460 + doe / 36524 - doe / 146096) / 365 in
  let doy := doe - (365 * yoe + yoe / 4 - yoe / 100) in
  let mp := (5 * doy + 2) / 153 in
  let d := doy - (153 * mp + 2) / 5 + 1 in
  let m := if mp <? 10 then mp + 3 else mp - 9 in
  (if m <=? 2 then yoe + era * 400 + 1 else yoe + era * 400, m, d).

Definition YearFromTime (t : Z) : Z := fst (fst (civil_from_days (Day t))).
(** Months are numbered from 0. *)
Definition MonthFromTime (t : Z) : Z := snd (fst (civil_from_days (Day t))) - 1.
Definition DateFromTime (t : Z) : Z := snd (civil_from_days (Day t)).

Definition MakeDay (year month date : Z) : Z :=
  let ym := year + month / 12 in
  let mn := month mod 12 in
  days_from_civil ym (mn + 1) 1 + date - 1.

Definition MakeDate (day time : Z) : Z := day * msPerDay + time.

(** The Date range: 100,000,000 days on either side of the epoch. *)
Definition maxTime : Z := 8640000000000000.

(** [TimeClip]: what a Date object holds after [setDate] or [setMonth];
    [None] is the Invalid Date. *)
Definition TimeClip (time : Z) : option Z :=
  if maxTime <? Z.abs time then None else Some time.

Section LocalTime.
(** [LocalTZA t isUTC]: the offset of local time, in milliseconds. *)
Variable LocalTZA : Z -> bool -> Z.

Definition LocalTime (t : Z) : Z := t + LocalTZA t true.
Definition UTC (t : Z) : Z := t - LocalTZA t false.

Definition getDate (t : Z) : Z := DateFromTime (LocalTime t).
Definition getMonth (t : Z) : Z := MonthFromTime (LocalTime t).

Definition setDate (t dt : Z) : Z :=
  let lt := LocalTime t in
  UTC (MakeDate (MakeDay (YearFromTime lt) (MonthFromTime lt) dt)
                (TimeWithinDay lt)).

Definition setMonth (t m : Z) : Z :=
  let lt := LocalTime t in
  UTC (MakeDate (MakeDay (YearFromTime lt) m (DateFromTime lt))
                (TimeWithinDay lt)).
End LocalTime.

End JSDate.

(** The [switch] on the repeat interval, shared by
    [scheduleRecurringNotification] and [scheduleTaskReminder]: the time the
    setter computes, before [TimeClip]. *)
Definition advance_date (tza : Z -> bool -> Z) (pattern : RecurringPattern)
    (t : Z) : Z :=
  match pattern with
  | daily => JSDate.setDate tza t (JSDate.getDate tza t + 1)
  | weekly => JSDate.setDate tza t (JSDate.getDate tza t + 7)
  | monthly => JSDate.setMonth tza t (JSDate.getMonth tza t + 1)
  end.

Definition utc : Z -> bool -> Z := fun _ _ => 0.

(** ** The object store

    [IDBObjectStore] with key path [id]: records in ascending key order. *)
Module Store.

Definition t := list ScheduledNotification.

(** [store.get(key)] *)
Fixpoint get (key : string) (s : t) : option ScheduledNotification :=
  match s with
  | [] => None
  | n :: s' => if String.eqb (id n) key then Some n else get key s'
  end.

(** [store.put(value)]: inserts, or replaces the record with the same key. *)
Fixpoint put (value : ScheduledNotification) (s : t) : t :=
  match s with
  | [] => [value]
  | n :: s' =>
      match String.compare (id value) (id n) with
      | Lt => value :: n :: s'
      | Eq => value :: s'
      | Gt => n :: put value s'
      end
  end.

(** [store.add(value)]: fails (ConstraintError) when the key is taken. *)
Definition add (value : ScheduledNotification) (s : t) : option t :=
  match get (id value) s with
  | Some _ => None
  | None => Some (put value s)
  end.

(** [store.delete(key)]: succeeds whether or not a record has the key. *)
Definition delete (key : string) (s : t) : t :=
  filter (fun n => negb (String.eqb (id n) key)) s.

(** Keys strictly ascending. *)
Fixpoint ordered (s : t) : bool :=
  match s with
  | n :: ((m :: _) as s') => String.ltb (id n) (id m) && ordered s'
  | _ => true
  end.

End Store.

(** ** The browser around the module *)

(** What [showNotification] hands to the platform. *)
Record Shown := mkShown {
  shown_title : string;
  shown_body : string;
  shown_taskIds : list string;
  shown_notificationIds : list string;
  shown_priority : option Priority;
  shown_category : option Category;
  shown_snoozeCount : option Z;
  shown_isGrouped : bool;
  shown_groupCount : option Z;
  shown_vibrate : list Z
}.

Inductive EventTarget := document | window.

(** Callbacks are compared by identity: the module-level function
    [checkAndTriggerNotifications] is one object, a closure is a new object
    each time the enclosing function runs. *)
Inductive Callback :=
| CheckAndTrigger
| VisibilityHandler (closure : nat)
| FocusHandler (closure : nat).

Record Listener := mkListener {
  target : EventTarget;
  event : string;
  callback : Callback
}.

(** Timers, listeners and the places the module keeps its handles in:
    [intervals] are the live [setInterval] timers (handle, period);
    [window_notificationInterval] is [window.__notificationInterval];
    [notificationInterval] is the module variable of the second variant;
    [window_notificationCleanup] is [window.__notificationCleanup], held as
    the index of the start whose closure it is. *)
Record Scheduler := mkScheduler {
  intervals : list (nat * Z);
  last_handle : nat;
  listeners : list Listener;
  next_closure : nat;
  window_notificationInterval : option nat;
  notificationInterval : option nat;
  window_notificationCleanup : option nat
}.

(** [tasks] is what [getTasks] returns, [now] what [Date.now()] reads;
    [uuids] are the values [crypto.randomUUID] returns, of which
    [uuid_count] are used up; [prompt_answer] is what the user answers when
    asked for permission. *)
Record World := mkWorld {
  notifications : Store.t;
  tasks : list Task.t;
  now : Z;
  uuids : nat -> string;
  uuid_count : nat;
  localTZA : Z -> bool -> Z;
  permission : NotificationPermissionStatus;
  prompt_answer : NotificationPermissionStatus;
  shown : list Shown;
  console : list string;
  scheduler : Scheduler
}.

Definition with_notifications (s : Store.t) (w : World) : World :=
  mkWorld s (tasks w) (now w) (uuids w) (uuid_count w) (localTZA w)
    (permission w) (prompt_answer w) (shown w) (console w) (scheduler w).

Definition with_uuid_count (k : nat) (w : World) : World :=
  mkWorld (notifications w) (tasks w) (now w) (uuids w) k (localTZA w)
    (permission w) (prompt_answer w) (shown w) (console w) (scheduler w).

Definition with_permission (p : NotificationPermissionStatus) (w : World) : World :=
  mkWorld (notifications w) (tasks w) (now w) (uuids w) (uuid_count w) (localTZA w)
    p (prompt_answer w) (shown w) (console w) (scheduler w).

Definition with_shown (l : list Shown) (w : World) : World :=
  mkWorld (notifications w) (tasks w) (now w) (uuids w) (uuid_count w) (localTZA w)
    (permission w) (prompt_answer w) l (console w) (scheduler w).

Definition with_console (l : list string) (w : World) : World :=
  mkWorld (notifications w) (tasks w) (now w) (uuids w) (uuid_count w) (localTZA w)
    (permission w) (prompt_answer w) (shown w) l (scheduler w).

Definition with_scheduler (s : Scheduler) (w : World) : World :=
  mkWorld (notifications w) (tasks w) (now w) (uuids w) (uuid_count w) (localTZA w)
    (permission w) (prompt_answer w) (shown w) (console w) s.

Definition with_now (t : Z) (w : World) : World :=
  mkWorld (notifications w) (tasks w) t (uuids w) (uuid_count w) (localTZA w)
    (permission w) (prompt_answer w) (shown w) (console w) (scheduler w).

(** ** Asynchronous computations *)

Inductive Error :=
| ConstraintError                (* [store.add] on a key that exists *)
| NotificationNotFound           (* [new Error("Notification not found")] *)
| RangeError.                    (* [toISOString] of an Invalid Date *)

Inductive Outcome (A : Type) :=
| Resolved (a : A)
| Rejected (e : Error)
| Unfinished.                    (* the recursion budget of the model ran out *)
Arguments Resolved {A} a.
Arguments Rejected {A} e.
Arguments Unfinished {A}.

Definition Async (A : Type) : Type := World -> World * Outcome A.

Definition ret {A} (a : A) : Async A := fun w => (w, Resolved a).

Definition bind {A B} (c : Async A) (k : A -> Async B) : Async B :=
  fun w =>
    match c w with
    | (w', Resolved a) => k a w'
    | (w', Rejected e) => (w', Rejected e)
    | (w', Unfinished) => (w', Unfinished)
    end.

Declare Scope async_scope.
Delimit Scope async_scope with async.
Notation "x <- c ;; k" := (bind c (fun x => k))
  (at level 61, c at next level, right associativity) : async_scope.
Notation "c ;;; k" := (bind c (fun _ => k))
  (at level 61, right associativity) : async_scope.
Local Open Scope async_scope.

Definition reject {A} (e : Error) : Async A := fun w => (w, Rejected e).

(** [try { c } catch (error) { console.error(msg, error) }] *)
Definition try_catch (c : Async unit) (msg : string) : Async unit :=
  fun w =>
    match c w with
    | (w', Rejected _) => (with_console (console w' ++ [msg]) w', Resolved tt)
    | r => r
    end.

(** [for (const x of xs) { await body(x) }] *)
Fixpoint for_of {A} (xs : list A) (body : A -> Async unit) : Async unit :=
  match xs with
  | [] => ret tt
  | x :: xs' => body x ;;; for_of xs' body
  end.

Definition Date_now : Async Z := fun w => (w, Resolved (now w)).

(** [date.toISOString()], the string standing for its time value: throws
    on an Invalid Date. *)
Definition toISOString (date : option Z) : Async Z :=
  match date with
  | Some time => ret time
  | None => reject RangeError
  end.

Definition randomUUID : Async string :=
  fun w => (with_uuid_count (S (uuid_count w)) w, Resolved (uuids w (uuid_count w))).

Definition console_log (msg : string) : Async unit :=
  fun w => (with_console (console w ++ [msg]) w, Resolved tt).

Definition store_add (value : ScheduledNotification) : Async unit :=
  fun w =>
    match Store.add value (notifications w) with
    | Some s => (with_notifications s w, Resolved tt)
    | None => (w, Rejected ConstraintError)
    end.

Definition store_put (value : ScheduledNotification) : Async unit :=
  fun w => (with_notifications (Store.put value (notifications w)) w, Resolved tt).

Definition store_get (key : string) : Async (option ScheduledNotification) :=
  fun w => (w, Resolved (Store.get key (notifications w))).

Definition store_delete (key : string) : Async unit :=
  fun w => (with_notifications (Store.delete key (notifications w)) w, Resolved tt).

Definition getTasks : Async (list Task.t) := fun w => (w, Resolved (tasks w)).

(** ** The notification module

    The functions below read the same in both variants of the module (but
    for a timestamp that one of them adds to what it hands to the platform);
    the evaluator and the scheduler loop, which differ, follow in [Part000]
    and [Part001]. *)

(** Template literal [`${n}`] for an integral number. *)
Definition number_to_string (z : Z) : string :=
  NilZero.string_of_int (Z.to_int z).

Record ScheduleOptions := mkScheduleOptions {
  opt_priority : option Priority;
  opt_category : option Category;
  opt_taskDueDate : option Z;
  opt_isRecurring : option bool;
  opt_recurringPattern : option RecurringPattern
}.

(** [options?.field] *)
Definition opt {O A} (options : option O) (field : O -> option A) : option A :=
  match options with Some o => field o | None => None end.

Definition scheduleNotification (taskId title body : string) (scheduledTime : Z)
    (options : option ScheduleOptions) : Async ScheduledNotification :=
  uuid <- randomUUID ;;
  createdAt <- Date_now ;;
  let notification :=
    {| id := uuid;
       taskId := taskId;
       title := title;
       body := body;
       scheduledTime := scheduledTime;
       isTriggered := false;
       createdAt := createdAt;
       priority := Some (or_default (opt options opt_priority) normal);
       category := Some (or_default (opt options opt_category) reminder);
       taskDueDate := opt options opt_taskDueDate;
       isGrouped := None;
       groupId := None;
       snoozeCount := Some 0;
       originalScheduledTime := Some scheduledTime;
       isRecurring := Some (or_default (opt options opt_isRecurring) false);
       recurringPattern := opt options opt_recurringPattern |} in
  store_add notification ;;;
  ret notification.

Definition getScheduledNotifications : Async (list ScheduledNotification) :=
  fun w => (w, Resolved (notifications w)).

Definition set_isTriggered (b : bool) (n : ScheduledNotification) : ScheduledNotification :=
  mkNotification (id n) (taskId n) (title n) (body n) (scheduledTime n) b
    (createdAt n) (priority n) (category n) (taskDueDate n) (isGrouped n)
    (groupId n) (snoozeCount n) (originalScheduledTime n) (isRecurring n)
    (recurringPattern n).

Definition set_snoozeCount (c : Z) (n : ScheduledNotification) : ScheduledNotification :=
  mkNotification (id n) (taskId n) (title n) (body n) (scheduledTime n)
    (isTriggered n) (createdAt n) (priority n) (category n) (taskDueDate n)
    (isGrouped n) (groupId n) (Some c) (originalScheduledTime n) (isRecurring n)
    (recurringPattern n).

Definition markNotificationTriggered (key : string) : Async unit :=
  found <- store_get key ;;
  match found with
  | Some notification => store_put (set_isTriggered true notification)
  | None => reject NotificationNotFound
  end.

Definition deleteScheduledNotification (key : string) : Async unit :=
  store_delete key.

Definition requestNotificationPermission : Async NotificationPermissionStatus :=
  fun w =>
    match permission w with
    | granted => (w, Resolved granted)
    | denied => (w, Resolved denied)
    | default => (with_permission (prompt_answer w) w, Resolved (prompt_answer w))
    end.

Record ShowOptions := mkShowOptions {
  so_priority : option Priority;
  so_category : option Category;
  so_taskDueDate : option Z;
  so_snoozeCount : option Z;
  so_isGrouped : option bool;
  so_groupCount : option Z
}.

Definition is_priority (p : Priority) (o : option Priority) : bool :=
  match o with Some q => Priority_eqb q p | None => false end.

Definition is_category (c : Category) (o : option Category) : bool :=
  match o with Some d => Category_eqb d c | None => false end.

Definition vibrationPattern (options : ShowOptions) : list Z :=
  if is_category overdue (so_category options) then [400; 100; 400; 100; 400; 100; 400]
  else if is_priority high (so_priority options) then [300; 150; 300; 150; 300]
  else if is_priority low (so_priority options) then [100; 50; 100]
  else if truthy_bool (so_isGrouped options) then [150; 75; 150; 75; 150; 75; 150]
  else [200; 100; 200].

(** The text added to the body (due date, snooze count, group size) depends
    on the locale and is left to the platform: [shown_body] is the body the
    caller passed. *)
Definition showNotification (title body : string)
    (taskIds notificationIds : list string) (options : ShowOptions) : Async unit :=
  status <- requestNotificationPermission ;;
  match status with
  | granted =>
      fun w =>
        (with_shown
           (shown w ++
            [mkShown title body taskIds notificationIds
               (so_priority options) (so_category options)
               (so_snoozeCount options) (truthy_bool (so_isGrouped options))
               (so_groupCount options) (vibrationPattern options)]) w,
         Resolved tt)
  | _ => console_log "Notification permission not granted"
  end.

Definition scheduleRecurringNotification (notification : ScheduledNotification)
    : Async unit :=
  match recurringPattern notification with
  | None => ret tt
  | Some pattern =>
      fun w =>
        let nextTime :=
          advance_date (localTZA w) pattern
            (or_default (truthy_number (originalScheduledTime notification))
                        (scheduledTime notification)) in
        (scheduleNotification (taskId notification) (title notification)
           (body notification) nextTime
           (Some (mkScheduleOptions (priority notification) (category notification)
                    (taskDueDate notification) (Some true) (Some pattern))) ;;;
         ret tt) w
  end.

Definition snoozeNotification (task : string) (minutes : Z) : Async unit :=
  try_catch
    (tasks <- getTasks ;;
     match find (fun t => String.eqb (Task.id t) task) tasks with
     | None => ret tt
     | Some found =>
         notifications <- getScheduledNotifications ;;
         let existingNotification :=
           find (fun n => String.eqb (taskId n) task && negb (isTriggered n))
                notifications in
         let snoozeCount :=
           or_default (truthy_number (opt existingNotification snoozeCount)) 0 + 1 in
         current <- Date_now ;;
         let snoozeTime := current + minutes * 60 * 1000 in
         let snoozeTitle :=
           if 1 <? snoozeCount
           then ("Snoozed Task (" ++ number_to_string snoozeCount ++ "x)")%string
           else "Snoozed Task Reminder" in
         scheduleNotification task snoozeTitle
           ("Don't forget: " ++ Task.title found)%string
           snoozeTime
           (Some (mkScheduleOptions
                    (Some (if 2 <? snoozeCount then high else normal))
                    (Some reminder) (Task.dueDate found) None None)) ;;;
         newNotifications <- getScheduledNotifications ;;
         match find (fun n => String.eqb (taskId n) task
                              && (scheduledTime n =? snoozeTime))
                    newNotifications with
         | Some newNotification => store_put (set_snoozeCount snoozeCount newNotification)
         | None => ret tt
         end
     end)
    "Error snoozing notification:".

Record ReminderOptions := mkReminderOptions {
  ro_priority : option Priority;
  ro_taskDueDate : option Z
}.

(** The category computed from the reminder time and the due date. *)
Definition reminder_category (reminderDate : Z) (dueDate : option Z) : Category :=
  match dueDate with
  | Some due =>
      let timeToDue := due - reminderDate in
      if timeToDue <=? 0 then overdue
      else if timeToDue <=? 60 * 60 * 1000 then deadline
      else reminder
  | None => reminder
  end.

(** The function calls itself for the next occurrence of a repeating
    reminder; [budget] bounds the depth of these calls.  Nothing catches the
    [RangeError] of [toISOString]: it rejects the call and every call around
    it. *)
Fixpoint scheduleTaskReminder (budget : nat) (task taskTitle : string)
    (reminderTime : Z) (isRepeating : bool)
    (repeatInterval : option RecurringPattern)
    (options : option ReminderOptions) : Async unit :=
  match budget with
  | O => fun w => (w, Unfinished)
  | S budget' =>
      let reminderDate := reminderTime in
      current <- Date_now ;;
      if reminderDate <=? current
      then console_log "Cannot schedule reminder in the past"
      else
        let dueDate := opt options ro_taskDueDate in
        let category := reminder_category reminderDate dueDate in
        let title :=
          match category with
          | overdue => "Overdue Task!"
          | deadline => "Task Deadline Approaching"
          | reminder => "Task Reminder"
          end in
        let body := ("Don't forget: " ++ taskTitle)%string in
        scheduleNotification task title body reminderDate
          (Some (mkScheduleOptions
                   (Some (or_default (opt options ro_priority)
                            (if Category_eqb category overdue then high else normal)))
                   (Some category) dueDate None None)) ;;;
        match isRepeating, repeatInterval with
        | true, Some interval =>
            fun w =>
              let nextReminderDate :=
                JSDate.TimeClip (advance_date (localTZA w) interval reminderDate) in
              (next <- toISOString nextReminderDate ;;
               scheduleTaskReminder budget' task taskTitle next
                 isRepeating repeatInterval options) w
        | _, _ => ret tt
        end
  end.

Definition is_due (current : Z) (n : ScheduledNotification) : bool :=
  negb (isTriggered n) && (scheduledTime n <=? current).

(** [notification.isRecurring && notification.recurringPattern] *)
Definition recurring (n : ScheduledNotification) : bool :=
  truthy_bool (isRecurring n)
  && match recurringPattern n with Some _ => true | None => false end.

(** ** Timers and listeners *)

Definition Callback_eqb (a b : Callback) : bool :=
  match a, b with
  | CheckAndTrigger, CheckAndTrigger => true
  | VisibilityHandler i, VisibilityHandler j => Nat.eqb i j
  | FocusHandler i, FocusHandler j => Nat.eqb i j
  | _, _ => false
  end.

Definition EventTarget_eqb (a b : EventTarget) : bool :=
  match a, b with
  | document, document | window, window => true
  | _, _ => false
  end.

Definition Listener_eqb (a b : Listener) : bool :=
  EventTarget_eqb (target a) (target b)
  && String.eqb (event a) (event b)
  && Callback_eqb (callback a) (callback b).

(** [setInterval]: handles are positive and never reused. *)
Definition setInterval (period : Z) (s : Scheduler) : Scheduler * nat :=
  let handle := S (last_handle s) in
  (mkScheduler (intervals s ++ [(handle, period)]) handle (listeners s)
     (next_closure s) (window_notificationInterval s) (notificationInterval s)
     (window_notificationCleanup s),
   handle).

Definition clearInterval (handle : nat) (s : Scheduler) : Scheduler :=
  mkScheduler (filter (fun t => negb (Nat.eqb (fst t) handle)) (intervals s))
    (last_handle s) (listeners s) (next_closure s)
    (window_notificationInterval s) (notificationInterval s)
    (window_notificationCleanup s).

Definition with_listeners (l : list Listener) (s : Scheduler) : Scheduler :=
  mkScheduler (intervals s) (last_handle s) l (next_closure s)
    (window_notificationInterval s) (notificationInterval s)
    (window_notificationCleanup s).

(** [addEventListener]: a listener already registered is not added again. *)
Definition addEventListener (l : Listener) (s : Scheduler) : Scheduler :=
  if existsb (Listener_eqb l) (listeners s) then s
  else with_listeners (listeners s ++ [l]) s.

Definition removeEventListener (l : Listener) (s : Scheduler) : Scheduler :=
  with_listeners (filter (fun x => negb (Listener_eqb l x)) (listeners s)) s.

(** A function body that creates closures: the index of this activation. *)
Definition new_closure (s : Scheduler) : Scheduler * nat :=
  (mkScheduler (intervals s) (last_handle s) (listeners s) (S (next_closure s))
     (window_notificationInterval s) (notificationInterval s)
     (window_notificationCleanup s),
   next_closure s).

Definition set_window_notificationInterval (v : option nat) (s : Scheduler) : Scheduler :=
  mkScheduler (intervals s) (last_handle s) (listeners s) (next_closure s)
    v (notificationInterval s) (window_notificationCleanup s).

Definition set_notificationInterval (v : option nat) (s : Scheduler) : Scheduler :=
  mkScheduler (intervals s) (last_handle s) (listeners s) (next_closure s)
    (window_notificationInterval s) v (window_notificationCleanup s).

Definition set_window_notificationCleanup (v : option nat) (s : Scheduler) : Scheduler :=
  mkScheduler (intervals s) (last_handle s) (listeners s) (next_closure s)
    (window_notificationInterval s) (notificationInterval s) v.

(** [if (handle)] on a property holding a timer handle. *)
Definition truthy_handle (o : option nat) : option nat :=
  match o with
  | Some h => if Nat.eqb h 0 then None else Some h
  | None => None
  end.

(** [s.replace(pattern, "")] for a string pattern: the first occurrence goes. *)
Fixpoint remove_first (pattern s : string) : string :=
  if String.prefix pattern s
  then String.substring (String.length pattern)
         (String.length s - String.length pattern) s
  else match s with
       | EmptyString => EmptyString
       | String c s' => String c (remove_first pattern s')
       end.

(** [`${count > 1 ? "s" : ""}`] *)
Definition plural (count : Z) : string := if 1 <? count then "s" else "".

(** ** First variant: grouped presentation *)
Module Part000.

Definition show_group (group : list ScheduledNotification) : Async unit :=
  match group with
  | [notification] =>
      showNotification (title notification) (body notification)
        [taskId notification] [id notification]
        (mkShowOptions (priority notification) (category notification)
           (taskDueDate notification) (snoozeCount notification) None None)
  | _ =>
      let size := Z.of_nat (List.length group) in
      let overdueCount :=
        Z.of_nat (List.length
          (filter (fun n => is_category overdue (category n)) group)) in
      let highPriorityCount :=
        Z.of_nat (List.length
          (filter (fun n => is_priority high (priority n)) group)) in
      let groupTitle :=
        if 0 <? overdueCount then
          (number_to_string overdueCount ++ " overdue task"
           ++ plural overdueCount ++ " + "
           ++ number_to_string (size - overdueCount) ++ " more")%string
        else if 0 <? highPriorityCount then
          (number_to_string highPriorityCount ++ " urgent task"
           ++ plural highPriorityCount ++ " + "
           ++ number_to_string (size - highPriorityCount) ++ " more")%string
        else (number_to_string size ++ " tasks need attention")%string in
      let groupBody :=
        String.concat ", "
          (map (fun n => remove_first "Don't forget: " (body n))
               (firstn 3 group)) in
      let remainingCount := size - 3 in
      let finalBody :=
        if 0 <? remainingCount
        then (groupBody ++ " and " ++ number_to_string remainingCount ++ " more")%string
        else groupBody in
      showNotification groupTitle finalBody
        (map taskId group) (map id group)
        (mkShowOptions
           (Some (if existsb (fun n => is_priority high (priority n)) group
                  then high else normal))
           (Some (if existsb (fun n => is_category overdue (category n)) group
                  then overdue else reminder))
           None None (Some true) (Some size))
  end.

(** The body of the inner loop: mark, then reschedule a recurring one. *)
Definition trigger (notification : ScheduledNotification) : Async unit :=
  markNotificationTriggered (id notification) ;;;
  if recurring notification
  then scheduleRecurringNotification notification
  else ret tt.

Definition checkAndTriggerNotifications_body : Async unit :=
  notifications <- getScheduledNotifications ;;
  current <- Date_now ;;
  let dueNotifications := filter (is_due current) notifications in
  if (List.length dueNotifications =? 0)%nat then ret tt
  else
    let groups :=
      groupNotificationsByTimeAndPriority dueNotifications (3 * 60 * 1000) in
    for_of groups (fun group => show_group group ;;; for_of group trigger).

Definition checkAndTriggerNotifications : Async unit :=
  try_catch checkAndTriggerNotifications_body "Error checking notifications:".

Definition startNotificationScheduler (w : World) : World :=
  let (s1, checkInterval) := setInterval 60000 (scheduler w) in
  let w1 := fst (checkAndTriggerNotifications (with_scheduler s1 w)) in
  let (s2, k) := new_closure (scheduler w1) in
  let s3 :=
    addEventListener (mkListener document "visibilitychange" (VisibilityHandler k)) s2 in
  let s4 := addEventListener (mkListener window "focus" CheckAndTrigger) s3 in
  with_scheduler (set_window_notificationInterval (Some checkInterval) s4) w1.

Definition stopNotificationScheduler (w : World) : World :=
  match truthy_handle (window_notificationInterval (scheduler w)) with
  | Some intervalId =>
      with_scheduler
        (set_window_notificationInterval None
           (clearInterval intervalId (scheduler w))) w
  | None => w
  end.

End Part000.

(** ** Second variant: one alert per notification, debounced re-checks *)
Module Part001.

Definition check (current : Z) (notification : ScheduledNotification) : Async unit :=
  if is_due current notification then
    showNotification (title notification) (body notification)
      [taskId notification] []
      (mkShowOptions (priority notification) (category notification)
         (taskDueDate notification) (snoozeCount notification)
         (isGrouped notification) None) ;;;
    markNotificationTriggered (id notification) ;;;
    if truthy_bool (isRecurring notification)
    then scheduleRecurringNotification notification
    else ret tt
  else ret tt.

Definition checkAndTriggerNotifications : Async unit :=
  notifications <- getScheduledNotifications ;;
  current <- Date_now ;;
  for_of notifications (check current).

(** The event handlers only arm a timeout when an event arrives; events
    are not part of this model, so [visibilityTimeout] and [focusTimeout]
    stay [null] and the cleanup has no timeout to clear. *)
Definition cleanup (k : nat) (s : Scheduler) : Scheduler :=
  removeEventListener (mkListener window "focus" (FocusHandler k))
    (removeEventListener
       (mkListener document "visibilitychange" (VisibilityHandler k)) s).

Definition startNotificationScheduler (w : World) : World :=
  let s0 :=
    match truthy_handle (notificationInterval (scheduler w)) with
    | Some h => clearInterval h (scheduler w)
    | None => scheduler w
    end in
  let (s1, h) := setInterval 120000 s0 in
  let s1 := set_notificationInterval (Some h) s1 in
  let w1 := fst (checkAndTriggerNotifications (with_scheduler s1 w)) in
  let (s2, k) := new_closure (scheduler w1) in
  let s3 :=
    addEventListener (mkListener document "visibilitychange" (VisibilityHandler k)) s2 in
  let s4 := addEventListener (mkListener window "focus" (FocusHandler k)) s3 in
  with_scheduler (set_window_notificationCleanup (Some k) s4) w1.

Definition stopNotificationScheduler (w : World) : World :=
  let s0 :=
    match truthy_handle (notificationInterval (scheduler w)) with
    | Some h => set_notificationInterval None (clearInterval h (scheduler w))
    | None => scheduler w
    end in
  let s1 :=
    match window_notificationCleanup s0 with
    | Some k => set_window_notificationCleanup None (cleanup k s0)
    | None => s0
    end in
  with_scheduler s1 w.

End Part001.

(** ** The tasks store of [lib/db.ts] *)

(** The [Task] type in full, as the store "tasks" holds it; the dates are
    the strings the form hands over. *)
Module StoredTask.
Record t := mk {
  id : string;
  title : string;
  description : option string;
  dueDate : option string;
  reminderTime : option string;
  isRepeating : bool;
  repeatInterval : option RecurringPattern;
  isCompleted : bool;
  createdAt : Z;
  completedAt : option Z
}.
End StoredTask.

(** [Omit<Task, "id" | "createdAt">] *)
Module NewTask.
Record t := mk {
  title : string;
  description : option string;
  dueDate : option string;
  reminderTime : option string;
  isRepeating : bool;
  repeatInterval : option RecurringPattern;
  isCompleted : bool;
  completedAt : option Z
}.
End NewTask.

(** [Partial<Task>]: a field is absent ([None]) or present; a present
    optional field may hold [undefined]. *)
Module TaskUpdates.
Record t := mk {
  id : option string;
  title : option string;
  description : option (option string);
  dueDate : option (option string);
  reminderTime : option (option string);
  isRepeating : option bool;
  repeatInterval : option (option RecurringPattern);
  isCompleted : option bool;
  createdAt : option Z;
  completedAt : option (option Z)
}.
End TaskUpdates.

(** The object store "tasks" (key path [id]) with its index on
    [createdAt]. *)
Module TaskStore.

Definition t := list StoredTask.t.

Fixpoint get (key : string) (s : t) : option StoredTask.t :=
  match s with
  | [] => None
  | x :: s' => if String.eqb (StoredTask.id x) key then Some x else get key s'
  end.

Fixpoint put (value : StoredTask.t) (s : t) : t :=
  match s with
  | [] => [value]
  | x :: s' =>
      match String.compare (StoredTask.id value) (StoredTask.id x) with
      | Lt => value :: x :: s'
      | Eq => value :: s'
      | Gt => x :: put value s'
      end
  end.

Definition add (value : StoredTask.t) (s : t) : option t :=
  match get (StoredTask.id value) s with
  | Some _ => None
  | None => Some (put value s)
  end.

Definition delete (key : string) (s : t) : t :=
  filter (fun x => negb (String.eqb (StoredTask.id x) key)) s.

(** [store.index("createdAt").getAll()]: by [createdAt], records of one
    [createdAt] in key order. *)
Definition index_createdAt (s : t) : list StoredTask.t :=
  array_sort (fun a b => StoredTask.createdAt a - StoredTask.createdAt b) s.

End TaskStore.

(** The database: the tasks store, and the browser with the notifications
    store. *)
Record Database := mkDatabase {
  tasks_store : TaskStore.t;
  browser : World
}.

Definition with_tasks (l : list Task.t) (w : World) : World :=
  mkWorld (notifications w) l (now w) (uuids w) (uuid_count w) (localTZA w)
    (permission w) (prompt_answer w) (shown w) (console w) (scheduler w).

Inductive TaskError :=
| TaskConstraintError            (* [store.add] on a key that exists *)
| TaskNotFound.                  (* [new Error("Task not found")] *)

Inductive TaskOutcome (A : Type) :=
| Done (a : A)
| Failed (e : TaskError)
| Pending.                       (* the notification module has not returned *)
Arguments Done {A} a.
Arguments Failed {A} e.
Arguments Pending {A}.

(** [if (s)] on an optional string: [undefined] and the empty string are
    falsy. *)
Definition truthy_string (o : option string) : option string :=
  match o with
  | Some s => if String.eqb s "" then None else Some s
  | None => None
  end.

(** [a !== b] on optional strings. *)
Definition differs (a b : option string) : bool :=
  match a, b with
  | Some x, Some y => negb (String.eqb x y)
  | None, None => false
  | _, _ => true
  end.

(** [try { await c } catch (error) { console.error(msg, error) }] followed
    by [resolve(value)]. *)
Definition guarded {A} (c : Async unit) (msg : string) (value : A)
    (s : TaskStore.t) (w : World) : Database * TaskOutcome A :=
  match c w with
  | (w', Resolved _) => (mkDatabase s w', Done value)
  | (w', Rejected _) =>
      (mkDatabase s (with_console (console w' ++ [msg]) w'), Done value)
  | (w', Unfinished) => (mkDatabase s w', Pending)
  end.

Section Tasks.
(** [new Date(s).getTime()] *)
Variable parse : string -> Z.

(** A task as the notification module reads it. *)
Definition as_read (x : StoredTask.t) : Task.t :=
  Task.mk (StoredTask.id x) (StoredTask.title x)
    (option_map parse (truthy_string (StoredTask.dueDate x)))
    (option_map parse (truthy_string (StoredTask.reminderTime x)))
    (StoredTask.isRepeating x) (StoredTask.repeatInterval x)
    (StoredTask.isCompleted x).

(** What [getTasks] returns: the index in reverse, most recent first. *)
Definition listed (s : TaskStore.t) : list Task.t :=
  map as_read (rev (TaskStore.index_createdAt s)).

(** The tasks store after a write, seen by [getTasks]. *)
Definition commit (s : TaskStore.t) (w : World) : World :=
  with_tasks (listed s) w.

Definition addTask (budget : nat) (task : NewTask.t) (db : Database)
    : Database * TaskOutcome StoredTask.t :=
  let w := browser db in
  let newTask :=
    StoredTask.mk (uuids w (uuid_count w)) (NewTask.title task)
      (NewTask.description task) (NewTask.dueDate task)
      (NewTask.reminderTime task) (NewTask.isRepeating task)
      (NewTask.repeatInterval task) (NewTask.isCompleted task)
      (now w) (NewTask.completedAt task) in
  let w := with_uuid_count (S (uuid_count w)) w in
  match TaskStore.add newTask (tasks_store db) with
  | None => (mkDatabase (tasks_store db) w, Failed TaskConstraintError)
  | Some s =>
      match truthy_string (StoredTask.reminderTime newTask) with
      | Some reminderTime =>
          guarded
            (scheduleTaskReminder budget (StoredTask.id newTask)
               (StoredTask.title newTask) (parse reminderTime)
               (StoredTask.isRepeating newTask)
               (StoredTask.repeatInterval newTask) None)
            "Error scheduling reminder:" newTask s (commit s w)
      | None => (mkDatabase s (commit s w), Done newTask)
      end
  end.

(** [{ ...task, ...updates }] *)
Definition merge (task : StoredTask.t) (updates : TaskUpdates.t) : StoredTask.t :=
  StoredTask.mk
    (or_default (TaskUpdates.id updates) (StoredTask.id task))
    (or_default (TaskUpdates.title updates) (StoredTask.title task))
    (or_default (TaskUpdates.description updates) (StoredTask.description task))
    (or_default (TaskUpdates.dueDate updates) (StoredTask.dueDate task))
    (or_default (TaskUpdates.reminderTime updates) (StoredTask.reminderTime task))
    (or_default (TaskUpdates.isRepeating updates) (StoredTask.isRepeating task))
    (or_default (TaskUpdates.repeatInterval updates) (StoredTask.repeatInterval task))
    (or_default (TaskUpdates.isCompleted updates) (StoredTask.isCompleted task))
    (or_default (TaskUpdates.createdAt updates) (StoredTask.createdAt task))
    (or_default (TaskUpdates.completedAt updates) (StoredTask.completedAt task)).

(** [updates.field] of an optional field: absent and [undefined] read the
    same. *)
Definition read {A} (field : option (option A)) : option A :=
  match field with Some v => v | None => None end.

Definition updateTask (budget : nat) (key : string) (updates : TaskUpdates.t)
    (db : Database) : Database * TaskOutcome unit :=
  match TaskStore.get key (tasks_store db) with
  | Some task =>
      let updatedTask := merge task updates in
      let s := TaskStore.put updatedTask (tasks_store db) in
      let w := commit s (browser db) in
      match truthy_string (read (TaskUpdates.reminderTime updates)) with
      | Some reminderTime =>
          if differs (Some reminderTime) (StoredTask.reminderTime task)
          then
            guarded
              (scheduleTaskReminder budget (StoredTask.id updatedTask)
                 (StoredTask.title updatedTask) (parse reminderTime)
                 (StoredTask.isRepeating updatedTask)
                 (StoredTask.repeatInterval updatedTask) None)
              "Error scheduling reminder:" tt s w
          else (mkDatabase s w, Done tt)
      | None => (mkDatabase s w, Done tt)
      end
  | None => (db, Failed TaskNotFound)
  end.

Definition deleteTask (key : string) (db : Database)
    : Database * TaskOutcome unit :=
  let s := TaskStore.delete key (tasks_store db) in
  guarded
    (notifications <- getScheduledNotifications ;;
     let taskNotifications :=
       filter (fun n => String.eqb (taskId n) key) notifications in
     for_of taskNotifications
       (fun notification => deleteScheduledNotification (id notification)))
    "Error cleaning up notifications:" tt s (commit s (browser db)).

End Tasks.

(** * Vocabulary of the properties *)

(** ** Grouping *)

(** The order of the sorted list: higher priority first, earlier time first
    among equal priorities; a record without a priority counts as normal. *)
Definition rank (n : ScheduledNotification) : Z :=
  priorityOrder (or_default (priority n) normal).

Definition before (a b : ScheduledNotification) : Prop :=
  rank b < rank a \/ (rank a = rank b /\ scheduledTime a <= scheduledTime b).

(** The walk over the sorted list once a group is open: [anchor] is the
    time of the first item of [current]. *)
Fixpoint walk (timeWindow anchor : Z) (current rest : list ScheduledNotification)
    : list (list ScheduledNotification) :=
  match rest with
  | [] => [current]
  | n :: rest' =>
      if scheduledTime n - anchor <=? timeWindow
      then walk timeWindow anchor (current ++ [n]) rest'
      else current :: walk timeWindow (scheduledTime n) [n] rest'
  end.

(** [if (currentGroup.length > 0) groups.push(currentGroup)] *)
Definition finish (st : GroupingState) : list (list ScheduledNotification) :=
  if (0 <? List.length (currentGroup st))%nat
  then groups st ++ [currentGroup st] else groups st.



(** ** Stores and worlds *)

(** Every key of [s] is above [key]. *)
Definition above (key : string) (s : Store.t) : Prop :=
  Forall (fun n => String.compare key (id n) = Lt) s.

(** The store of a world is an object store: its keys ascend, so no two
    records share one. *)
Definition wf (w : World) : Prop := Store.ordered (notifications w) = true.

(** A step that touches neither the store nor the clock nor the timers. *)
Definition quiet (w w' : World) : Prop :=
  notifications w' = notifications w /\ now w' = now w
  /\ scheduler w' = scheduler w.

(** The record's anchor is its own scheduled time. *)
Definition own_anchor (n : ScheduledNotification) : Prop :=
  originalScheduledTime n = Some (scheduledTime n).

(** [c] takes every world to one related to it by [R]. *)
Definition respects (R : World -> World -> Prop) {A} (c : Async A) : Prop :=
  forall w, R w (fst (c w)).

(** The identifiers still to come are new to the store and differ from one
    another. *)
Definition fresh_uuids (w : World) : Prop :=
  (forall i, (uuid_count w <= i)%nat ->
     Store.get (uuids w i) (notifications w) = None)
  /\ (forall i j, (uuid_count w <= i)%nat -> (i < j)%nat ->
        uuids w i <> uuids w j).

(** [s'] holds what [s] held, and besides only new records that satisfy [P]. *)
Definition only_adds (P : ScheduledNotification -> Prop) (s s' : Store.t) : Prop :=
  forall key,
    Store.get key s' = Store.get key s
    \/ (Store.get key s = None /\ exists r, Store.get key s' = Some r /\ P r).

(** No key appears and none goes. *)
Definition same_keys (s s' : Store.t) : Prop :=
  forall key, Store.get key s = None <-> Store.get key s' = None.

Definition triggered_in (key : string) (s : Store.t) : Prop :=
  exists r, Store.get key s = Some r /\ isTriggered r = true.

(** A record under [key] that is triggered stays, and stays triggered. *)
Definition stays_triggered (key : string) (w w' : World) : Prop :=
  wf w ->
  wf w' /\ (triggered_in key (notifications w) -> triggered_in key (notifications w')).

(** Records stay, the clock stands still, and a record changes at most by
    becoming triggered. *)
Definition marks_only (w w' : World) : Prop :=
  now w' = now w
  /\ forall key r,
       Store.get key (notifications w) = Some r ->
       Store.get key (notifications w') = Some r
       \/ Store.get key (notifications w') = Some (set_isTriggered true r).

(** ** Operations *)

(** Everything a caller can do to the subsystem, and time passing. *)
Inductive Operation :=
| OpSchedule (task title body : string) (time : Z) (options : option ScheduleOptions)
| OpMarkTriggered (key : string)
| OpDelete (key : string)
| OpPresent (title body : string) (taskIds notificationIds : list string)
    (options : ShowOptions)
| OpEvaluate000
| OpEvaluate001
| OpSnooze (task : string) (minutes : Z)
| OpTaskReminder (budget : nat) (task title : string) (time : Z)
    (isRepeating : bool) (repeatInterval : option RecurringPattern)
    (options : option ReminderOptions)
| OpStart000
| OpStop000
| OpStart001
| OpStop001
| OpElapse (ms : Z).

Definition run (op : Operation) (w : World) : World :=
  match op with
  | OpSchedule task title body time options =>
      fst (scheduleNotification task title body time options w)
  | OpMarkTriggered key => fst (markNotificationTriggered key w)
  | OpDelete key => fst (deleteScheduledNotification key w)
  | OpPresent title body taskIds notificationIds options =>
      fst (showNotification title body taskIds notificationIds options w)
  | OpEvaluate000 => fst (Part000.checkAndTriggerNotifications w)
  | OpEvaluate001 => fst (Part001.checkAndTriggerNotifications w)
  | OpSnooze task minutes => fst (snoozeNotification task minutes w)
  | OpTaskReminder budget task title time isRepeating repeatInterval options =>
      fst (scheduleTaskReminder budget task title time isRepeating
             repeatInterval options w)
  | OpStart000 => Part000.startNotificationScheduler w
  | OpStop000 => Part000.stopNotificationScheduler w
  | OpStart001 => Part001.startNotificationScheduler w
  | OpStop001 => Part001.stopNotificationScheduler w
  | OpElapse ms => with_now (now w + Z.max 0 ms) w
  end.

Definition run_all (ops : list Operation) (w : World) : World :=
  fold_left (fun w op => run op w) ops w.

(** ** The evaluator *)

(** The records an evaluation pass would find due in [w]. *)
Definition due_in (w : World) : list ScheduledNotification :=
  filter (is_due (now w)) (notifications w).

(** The body of the outer loop of the first evaluator. *)
Definition deliver (group : list ScheduledNotification) : Async unit :=
  Part000.show_group group ;;; for_of group Part000.trigger.

(** ** The scheduler loop *)

(** A scheduler that was never started. *)
Definition idle (s : Scheduler) : Prop :=
  intervals s = [] /\ listeners s = []
  /\ window_notificationInterval s = None
  /\ notificationInterval s = None
  /\ window_notificationCleanup s = None.

Definition visibility_listener (k : nat) : Listener :=
  mkListener document "visibilitychange" (VisibilityHandler k).

(** ** Recurrence chains *)

(** [r] is a record [scheduleNotification] made. *)
Definition created (r : ScheduledNotification) : Prop :=
  exists task t b time options w w',
    scheduleNotification task t b time options w = (w', Resolved r).

(** [r'] is the record added when [r] is delivered: the evaluator hands the
    stored record, which is [r] up to a snooze count patched since, to
    [scheduleRecurringNotification]. *)
Definition rescheduled (r r' : ScheduledNotification) : Prop :=
  exists d w,
    (d = r \/ exists c, d = set_snoozeCount c r)
    /\ Store.get (id r') (notifications w) = None
    /\ Store.get (id r')
         (notifications (fst (scheduleRecurringNotification d w))) = Some r'.

(** The same, for a delivery that takes place in the world [w]. *)
Definition rescheduled_in (w : World) (r r' : ScheduledNotification) : Prop :=
  exists d,
    (d = r \/ exists c, d = set_snoozeCount c r)
    /\ Store.get (id r') (notifications w) = None
    /\ Store.get (id r')
         (notifications (fst (scheduleRecurringNotification d w))) = Some r'.

Fixpoint linked (l : list ScheduledNotification) : Prop :=
  match l with
  | r :: ((r' :: _) as l') => rescheduled r r' /\ linked l'
  | _ => True
  end.

(** A chain starts with a record made by [scheduleNotification]; every
    further record is the one added on delivery of its predecessor. *)
Definition recurrence_chain (l : list ScheduledNotification) : Prop :=
  match l with
  | [] => False
  | first :: _ => created first /\ linked l
  end.

(** ** Example worlds *)

(** The identifiers [crypto.randomUUID] hands out in the examples: "a", "b",
    "c", ... *)
Definition example_uuid (k : nat) : string :=
  String (ascii_of_nat (97 + k)) EmptyString.

Definition idle_scheduler : Scheduler := mkScheduler [] 0 [] 0 None None None.

(** A browser in UTC with notifications allowed; the next identifier is "b". *)
Definition example_world (s : Store.t) (tasks : list Task.t) (t : Z) : World :=
  mkWorld s tasks t example_uuid 1 utc granted default [] [] idle_scheduler.

Definition example_notification (key : string) (time : Z) : ScheduledNotification :=
  mkNotification key "task-1" "Task Reminder" "Don't forget: water the plants"
    time false 0 (Some normal) (Some reminder) None None None (Some 0)
    (Some time) (Some false) None.

Definition plants : Task.t :=
  Task.mk "task-1" "water the plants" None None false None false.

Definition delivered_notification : ScheduledNotification :=
  set_isTriggered true (example_notification "a" 1000).

Definition recurring_options (pattern : RecurringPattern) : option ScheduleOptions :=
  Some (mkScheduleOptions None None None (Some true) (Some pattern)).

(** A daily reminder for 00:00:01 is scheduled at time 0; the evaluator next
    runs 200000 seconds later, more than two days on. *)
Definition late_world : World :=
  run (OpElapse 200000000)
    (run (OpSchedule "task-1" "Stand-up" "Don't forget: stand-up" 1000
            (recurring_options daily))
         (example_world [] [] 0)).

(** The record of that reminder, and the one its delivery in [late_world]
    adds. *)
Definition chain_first : ScheduledNotification :=
  mkNotification "b" "task-1" "Stand-up" "Don't forget: stand-up" 1000 false 0
    (Some normal) (Some reminder) None None None (Some 0) (Some 1000)
    (Some true) (Some daily).

Definition chain_second : ScheduledNotification :=
  mkNotification "c" "task-1" "Stand-up" "Don't forget: stand-up" 86401000 false
    200000000 (Some normal) (Some reminder) None None None (Some 0)
    (Some 86401000) (Some true) (Some daily).

(** Identifiers that never repeat: "u", "uu", "uuu", ... *)
Fixpoint unary_uuid (k : nat) : string :=
  match k with
  | O => "u"
  | S k' => String "u" (unary_uuid k')
  end.

(** The daily reminder, overdue by more than two days, in a browser whose
    identifiers never repeat. *)
Definition unary_world : World :=
  mkWorld [chain_first] [] 200000000 unary_uuid 0 utc granted default [] []
    idle_scheduler.

(** A browser in UTC on the last day but one of the Date range. *)
Definition last_days_world : World :=
  mkWorld [] [] 8639999900000000 unary_uuid 0 utc granted default [] []
    idle_scheduler.

(** Four reminders of one priority, as they lie in the store. *)
Definition four_reminders : list ScheduledNotification :=
  [example_notification "a" 120000; example_notification "b" 0;
   example_notification "c" 200000; example_notification "d" 60000].

(** ** Further vocabulary *)

(** The record [scheduleTaskReminder] stores for one occurrence. *)
Definition reminder_record (w : World) (task taskTitle : string) (time : Z)
    (options : option ReminderOptions) : ScheduledNotification :=
  let category := reminder_category time (opt options ro_taskDueDate) in
  mkNotification (uuids w (uuid_count w)) task
    match category with
    | overdue => "Overdue Task!"
    | deadline => "Task Deadline Approaching"
    | reminder => "Task Reminder"
    end
    ("Don't forget: " ++ taskTitle) time false (now w)
    (Some (or_default (opt options ro_priority)
             (if Category_eqb category overdue then high else normal)))
    (Some category) (opt options ro_taskDueDate) None None (Some 0) (Some time)
    (Some false) None.

(** The occurrences of a repeating reminder in the zone [tza]: the first at
    [time], each next one an interval on. *)
Definition occurrence (tza : Z -> bool -> Z) (interval : RecurringPattern)
    (time : Z) (k : nat) : Z :=
  Nat.iter k (advance_date tza interval) time.

(** [w'] holds, under the [m] identifiers handed out since [w], the
    reminders of the first [m] occurrences, none of them triggered or
    recurring. *)
Definition occurrences_stored (task : string) (interval : RecurringPattern)
    (time : Z) (m : nat) (w w' : World) : Prop :=
  uuid_count w' = (uuid_count w + m)%nat
  /\ forall k, (k < m)%nat ->
       exists r,
         Store.get (uuids w (uuid_count w + k)) (notifications w') = Some r
         /\ taskId r = task
         /\ scheduledTime r = occurrence (localTZA w) interval time k
         /\ isTriggered r = false
         /\ recurring r = false.

(** What no operation changes in a stored record: everything but the
    triggered flag and the snooze count. *)
Definition frozen (r : ScheduledNotification) :=
  (id r, taskId r, title r, body r, scheduledTime r, createdAt r,
   (priority r, category r, taskDueDate r, isGrouped r, groupId r,
    originalScheduledTime r, isRecurring r, recurringPattern r)).

(** The record under [key] stays, and stays what it was but for the flag
    and the count. *)
Definition stays_as_it_was (key : string) (w w' : World) : Prop :=
  wf w ->
  wf w' /\ forall r, Store.get key (notifications w) = Some r ->
             exists r', Store.get key (notifications w') = Some r'
                        /\ frozen r' = frozen r.

(** The store with the records under [keys] marked as triggered. *)
Definition mark_keys (keys : list string) (s : Store.t) : Store.t :=
  map (fun n => if existsb (String.eqb (id n)) keys
                then set_isTriggered true n else n) s.

(** The store with the records due at [current] marked as triggered. *)
Definition mark_due (current : Z) (s : Store.t) : Store.t :=
  map (fun n => if is_due current n then set_isTriggered true n else n) s.

(** While permission is denied nothing is presented and nobody is asked. *)
Definition silent (w w' : World) : Prop :=
  permission w = denied -> permission w' = denied /\ shown w' = shown w.

(** What is on the screen and the permission stay as they are. *)
Definition same_screen (w w' : World) : Prop :=
  shown w' = shown w /\ permission w' = permission w.

(** The browser of [unary_world], with notifications blocked. *)
Definition blocked_world : World := with_permission denied unary_world.

(** The timers of the second variant: none, or the one the module variable
    holds; the first variant's handle is unset. *)
Definition one_timer (s : Scheduler) : Prop :=
  window_notificationInterval s = None
  /\ match notificationInterval s with
     | Some h => h <> 0%nat /\ intervals s = [(h, 120000)]
     | None => intervals s = []
     end.

(** A start followed by a stop. *)
Definition cycle000 (w : World) : World :=
  Part000.stopNotificationScheduler (Part000.startNotificationScheduler w).

Definition cycle001 (w : World) : World :=
  Part001.stopNotificationScheduler (Part001.startNotificationScheduler w).

Definition focus_listener : Listener := mkListener window "focus" CheckAndTrigger.

(** The listeners after some cycles of the first variant: the focus
    listener, registered once, and one visibility listener for each cycle. *)
Fixpoint leaked (k : nat) (n : nat) : list Listener :=
  match n with
  | O => []
  | S n' => visibility_listener k :: leaked (S k) n'
  end.

(** A browser five and a half hours ahead of UTC. *)
Definition kolkata : Z -> bool -> Z := fun _ _ => 19800000.

(** The task [addTask] stores. *)
Definition new_task (task : NewTask.t) (w : World) : StoredTask.t :=
  StoredTask.mk (uuids w (uuid_count w)) (NewTask.title task)
    (NewTask.description task) (NewTask.dueDate task)
    (NewTask.reminderTime task) (NewTask.isRepeating task)
    (NewTask.repeatInterval task) (NewTask.isCompleted task)
    (now w) (NewTask.completedAt task).


(** A daily stand-up, first due in the future of [unary_world]. *)
Definition stand_up : NewTask.t :=
  NewTask.mk "stand-up" None None (Some "1970-01-04T11:20") true (Some daily)
    false None.

(** A task to be reminded of once. *)
Definition watering : NewTask.t :=
  NewTask.mk "water the plants" None (Some "1970-01-01") (Some "1970-01-01T00:00:09")
    false None false None.

(** A snooze of [fst c] minutes, [snd c] milliseconds passing, and an
    evaluation pass [pass]. *)
Definition fire_snooze_cycle (task : string) (pass : Operation) (c : Z * Z)
    : list Operation :=
  [OpSnooze task (fst c); OpElapse (snd c); pass].

(** What a first snooze stores: the plain title, normal priority, and a
    count that is 1 (or 0 when the patch went to another record). *)
Definition first_snooze (r : ScheduledNotification) : Prop :=
  title r = "Snoozed Task Reminder"
  /\ priority r = Some normal
  /\ (snoozeCount r = Some 1 \/ snoozeCount r = Some 0).

(** Records keep their task, and a record that is added does not belong to
    [task]. *)
Definition adds_for_others (task : string) (w w' : World) : Prop :=
  (forall key r, Store.get key (notifications w) = Some r ->
     exists r', Store.get key (notifications w') = Some r' /\ taskId r' = taskId r)
  /\ (forall key r', Store.get key (notifications w) = None ->
        Store.get key (notifications w') = Some r' -> taskId r' <> task).

(** The record a snooze creates when the task has no pending notification. *)
Definition snooze_record (task : string) (minutes : Z) (found : Task.t) (w : World)
    : ScheduledNotification :=
  mkNotification (uuids w (uuid_count w)) task "Snoozed Task Reminder"
    ("Don't forget: " ++ Task.title found) (now w + minutes * 60 * 1000) false
    (now w) (Some normal) (Some reminder) (Task.dueDate found) None None
    (Some 0) (Some (now w + minutes * 60 * 1000)) (Some false) None.

(** The task's notifications are all delivered. *)
Definition all_delivered (task : string) (w : World) : Prop :=
  forall n, In n (notifications w) -> taskId n = task -> isTriggered n = true.

(** The records of the task that [w] holds and [w0] did not are first
    snoozes. *)
Definition new_are_first_snoozes (task : string) (w0 w : World) : Prop :=
  forall key r,
    Store.get key (notifications w0) = None ->
    Store.get key (notifications w) = Some r ->
    taskId r = task -> first_snooze r.

(** The plants' reminder has been delivered; identifiers never repeat. *)
Definition delivered_world : World :=
  mkWorld [delivered_notification] [plants] 2000 unary_uuid 0 utc granted
    default [] [] idle_scheduler.

(** The record of the second snooze in two cycles from [delivered_world]. *)
Definition second_snooze : ScheduledNotification :=
  mkNotification "uu" "task-1" "Snoozed Task Reminder"
    "Don't forget: water the plants" 4202000 true 602000 (Some normal)
    (Some reminder) None None None (Some 1) (Some 4202000) (Some false) None.

(** The due records that a pass reschedules. *)
Definition rescheduled_by_a_pass (w : World) : list ScheduledNotification :=
  filter recurring (due_in w).

(** * Properties *)

(** What follows [toISOString] runs on a valid date only. *)
Lemma toISOString_bind {B} (date : option Z) (k : Z -> Async B) w :
  (next <- toISOString date ;; k next) w
  = match date with
    | Some time => k time w
    | None => (w, Rejected RangeError)
    end.
Proof. destruct date; reflexivity. Qed.

(** The two cases of the next occurrence: within the Date range, or past
    it. *)
Ltac next_occurrence :=
  cbv zeta; try rewrite toISOString_bind;
  destruct (JSDate.TimeClip _); cbn [toISOString ret reject].

(** ** Dates *)

Example epoch : JSDate.civil_from_days 0 = (1970, 1, 1).
Proof. reflexivity. Qed.

(** In UTC a day later is 86400000 ms later. *)
Example next_day : advance_date utc daily 1000 = 86401000.
Proof. reflexivity. Qed.

(** A month after 2024-01-31T08:00Z is 2024-03-02T08:00Z: the 31st of
    February overflows into March. *)
Example month_overflow :
  advance_date utc monthly
    (JSDate.MakeDate (JSDate.days_from_civil 2024 1 31) 28800000)
  = JSDate.MakeDate (JSDate.days_from_civil 2024 3 2) 28800000.
Proof. reflexivity. Qed.

(** At UTC+05:30 a week after 1970-01-01T00:00:01Z. *)
Example next_week_in_another_zone :
  advance_date (fun _ _ => 19800000) weekly 1000 = 604801000.
Proof. reflexivity. Qed.

(** ** Sorting *)

Section SortFacts.
Context {A : Type} (cmp : A -> A -> Z).
Let le (a b : A) : Prop := cmp a b <= 0.
Hypothesis cmp_total : forall a b, cmp a b <= 0 \/ cmp b a <= 0.
Hypothesis cmp_trans : forall a b c, cmp a b <= 0 -> cmp b c <= 0 -> cmp a c <= 0.

Lemma sort_insert_perm x l : Permutation (x :: l) (sort_insert cmp x l).
Proof.
  induction l as [|y l IH]; simpl.
  - reflexivity.
  - destruct (cmp x y <=? 0).
    + reflexivity.
    + rewrite perm_swap. now apply perm_skip.
Qed.

Lemma array_sort_perm l : Permutation l (array_sort cmp l).
Proof.
  induction l as [|x l IH]; simpl.
  - constructor.
  - rewrite <- sort_insert_perm. now apply perm_skip.
Qed.

Lemma sort_insert_sorted x l :
  StronglySorted le l -> StronglySorted le (sort_insert cmp x l).
Proof.
  induction 1 as [|y l Hs IH Hall]; simpl.
  - repeat constructor.
  - destruct (cmp x y <=? 0) eqn:E.
    + apply Z.leb_le in E.
      constructor; [now constructor|].
      constructor; [exact E|].
      eapply Forall_impl; [|exact Hall].
      intros z Hz. unfold le in *. eauto.
    + apply Z.leb_gt in E.
      constructor; [exact IH|].
      eapply Permutation_Forall; [apply sort_insert_perm|].
      constructor; [|exact Hall].
      unfold le. destruct (cmp_total y x); [assumption|lia].
Qed.

Lemma array_sort_sorted l : StronglySorted le (array_sort cmp l).
Proof.
  induction l as [|x l IH]; simpl.
  - constructor.
  - now apply sort_insert_sorted.
Qed.
End SortFacts.

Lemma compare_before a b : compareNotifications a b <= 0 <-> before a b.
Proof.
  unfold compareNotifications, before, rank.
  destruct (priorityOrder (or_default (priority a) normal)
            =? priorityOrder (or_default (priority b) normal)) eqn:E; simpl.
  - apply Z.eqb_eq in E. lia.
  - apply Z.eqb_neq in E. lia.
Qed.

Lemma before_total a b : compareNotifications a b <= 0 \/ compareNotifications b a <= 0.
Proof. rewrite !compare_before. unfold before. lia. Qed.

Lemma before_trans a b c :
  compareNotifications a b <= 0 -> compareNotifications b c <= 0 ->
  compareNotifications a c <= 0.
Proof. rewrite !compare_before. unfold before. lia. Qed.

Lemma sorted_before l : StronglySorted before (array_sort compareNotifications l).
Proof.
  pose proof (array_sort_sorted compareNotifications before_total before_trans l) as H.
  induction H as [|x s Hs IH Hall]; constructor; auto.
  eapply Forall_impl; [|exact Hall]. intros y. apply compare_before.
Qed.

(** *** The loop is the walk *)

Lemma fold_walk tw rest : forall gs cur anchor,
  cur <> [] ->
  finish (fold_left (grouping_step tw) rest (mkGrouping gs cur anchor))
  = gs ++ walk tw anchor cur rest.
Proof.
  induction rest as [|n rest IH]; intros gs cur anchor Hcur.
  - unfold finish; simpl. destruct cur; [congruence|reflexivity].
  - simpl. unfold grouping_step at 2; simpl.
    destruct cur as [|c cur]; [congruence|]. simpl.
    destruct (scheduledTime n - anchor <=? tw).
    + apply IH. discriminate.
    + rewrite IH by discriminate. now rewrite <- app_assoc.
Qed.

Lemma grouping_walk l tw :
  groupNotificationsByTimeAndPriority l tw =
  match array_sort compareNotifications l with
  | [] => []
  | n :: rest => walk tw (scheduledTime n) [n] rest
  end.
Proof.
  unfold groupNotificationsByTimeAndPriority.
  change (finish (fold_left (grouping_step tw) (array_sort compareNotifications l)
                    (mkGrouping [] [] 0)) = 
          match array_sort compareNotifications l with
          | [] => []
          | n :: rest => walk tw (scheduledTime n) [n] rest
          end).
  destruct (array_sort compareNotifications l) as [|n rest]; [reflexivity|].
  simpl. unfold grouping_step at 2; simpl.
  now rewrite fold_walk by discriminate.
Qed.

Lemma walk_concat tw rest : forall anchor cur,
  List.concat (walk tw anchor cur rest) = cur ++ rest.
Proof.
  induction rest as [|n rest IH]; intros anchor cur; simpl.
  - now rewrite app_nil_r.
  - destruct (scheduledTime n - anchor <=? tw); simpl; rewrite IH.
    + now rewrite <- app_assoc.
    + reflexivity.
Qed.


Lemma walk_nonempty tw rest : forall anchor cur,
  cur <> [] -> Forall (fun g => g <> []) (walk tw anchor cur rest).
Proof.
  induction rest as [|n rest IH]; intros anchor cur Hcur; simpl.
  - now constructor.
  - destruct (scheduledTime n - anchor <=? tw).
    + apply IH. now destruct cur.
    + constructor; [assumption|]. apply IH. discriminate.
Qed.






Lemma grouping_concat l tw :
  List.concat (groupNotificationsByTimeAndPriority l tw)
  = array_sort compareNotifications l.
Proof.
  rewrite grouping_walk.
  destruct (array_sort compareNotifications l); [reflexivity|apply walk_concat].
Qed.

Lemma grouping_nonempty l tw :
  Forall (fun g => g <> []) (groupNotificationsByTimeAndPriority l tw).
Proof.
  rewrite grouping_walk.
  destruct (array_sort compareNotifications l);
    [constructor|apply walk_nonempty; discriminate].
Qed.



(** C10.  The groups form a partition of the input: read one after the
    other they are a rearrangement of the input list, so every notification
    stands in a group, none is dropped and none stands twice; and no group
    is empty. *)
Theorem groups_partition_the_input :
  forall (notifications : list ScheduledNotification) (timeWindow : Z),
    let result := groupNotificationsByTimeAndPriority notifications timeWindow in
    Permutation (List.concat result) notifications
    /\ Forall (fun g => g <> []) result
    /\ (forall n, In n notifications <-> exists g, In g result /\ In n g)
    /\ List.length (List.concat result) = List.length notifications.
Proof.
  intros l tw result.
  assert (Permutation (List.concat result) l) as HPc.
  { unfold result. rewrite grouping_concat. symmetry. apply array_sort_perm. }
  split; [exact HPc|]. split; [apply grouping_nonempty|]. split.
  - intros n. split.
    + intros Hin. apply in_concat.
      eapply Permutation_in; [symmetry; exact HPc|exact Hin].
    + intros Hg. eapply Permutation_in; [exact HPc|]. now apply in_concat.
  - now apply Permutation_length.
Qed.

(** ** Facts about the object store *)

Lemma compare_refl s : String.compare s s = Eq.
Proof. now apply OrderedTypeEx.String_as_OT.cmp_eq. Qed.

Lemma compare_Lt_trans a b c :
  String.compare a b = Lt -> String.compare b c = Lt -> String.compare a c = Lt.
Proof.
  intros H1 H2.
  apply OrderedTypeEx.String_as_OT.cmp_lt in H1, H2.
  apply OrderedTypeEx.String_as_OT.cmp_lt.
  eapply OrderedTypeEx.String_as_OT.lt_trans; eauto.
Qed.

Lemma compare_Gt_Lt a b : String.compare a b = Gt -> String.compare b a = Lt.
Proof. intros H. rewrite String.compare_antisym, H. reflexivity. Qed.

Lemma compare_neq a b : String.compare a b <> Eq -> String.eqb b a = false.
Proof.
  intros H. apply String.eqb_neq. intros ->. now rewrite compare_refl in H.
Qed.

Lemma get_put_same v s : Store.get (id v) (Store.put v s) = Some v.
Proof.
  induction s as [|n s IH]; simpl.
  - now rewrite String.eqb_refl.
  - destruct (String.compare (id v) (id n)) eqn:E; simpl.
    + now rewrite String.eqb_refl.
    + now rewrite String.eqb_refl.
    + rewrite compare_neq by congruence. exact IH.
Qed.

Lemma get_put_other v s key :
  key <> id v -> Store.get key (Store.put v s) = Store.get key s.
Proof.
  intros Hk. assert (String.eqb (id v) key = false) as Hv
    by (apply String.eqb_neq; congruence).
  induction s as [|n s IH]; simpl.
  - now rewrite Hv.
  - destruct (String.compare (id v) (id n)) eqn:E; simpl.
    + apply String.compare_eq_iff in E. rewrite Hv, <- E, Hv. reflexivity.
    + now rewrite Hv.
    + now rewrite IH.
Qed.

Lemma get_id key s n : Store.get key s = Some n -> id n = key.
Proof.
  induction s as [|m s IH]; simpl; [discriminate|].
  destruct (String.eqb (id m) key) eqn:E.
  - intros [= <-]. now apply String.eqb_eq.
  - exact IH.
Qed.

Lemma get_In key s n : Store.get key s = Some n -> In n s.
Proof.
  induction s as [|m s IH]; simpl; [discriminate|].
  destruct (String.eqb (id m) key).
  - intros [= <-]. now left.
  - auto.
Qed.

Lemma In_get_some n s : In n s -> Store.get (id n) s <> None.
Proof.
  induction s as [|m s IH]; simpl; [tauto|].
  intros [->|Hin].
  - now rewrite String.eqb_refl.
  - destruct (String.eqb (id m) (id n)); [discriminate|auto].
Qed.

Lemma get_delete key k s :
  Store.get k (Store.delete key s)
  = if String.eqb k key then None else Store.get k s.
Proof.
  induction s as [|n s IH]; simpl.
  - now destruct (String.eqb k key).
  - destruct (String.eqb (id n) key) eqn:E; simpl.
    + rewrite IH. destruct (String.eqb k key) eqn:K; [reflexivity|].
      apply String.eqb_eq in E. rewrite E, String.eqb_sym, K. reflexivity.
    + destruct (String.eqb (id n) k) eqn:F.
      * apply String.eqb_eq in F. subst k. rewrite E. reflexivity.
      * exact IH.
Qed.

Lemma ordered_cons n s :
  Store.ordered (n :: s) = true <-> above (id n) s /\ Store.ordered s = true.
Proof.
  revert n. induction s as [|m s IH]; intros n.
  - simpl. split; [split; [constructor|reflexivity]|reflexivity].
  - change (Store.ordered (n :: m :: s))
      with (String.ltb (id n) (id m) && Store.ordered (m :: s)).
    rewrite andb_true_iff. unfold String.ltb.
    split.
    + intros [Hlt Ho]. split; [|exact Ho].
      destruct (String.compare (id n) (id m)) eqn:E; try discriminate.
      constructor; [exact E|].
      apply IH in Ho. destruct Ho as [Ha _].
      eapply Forall_impl; [|exact Ha]. intros x Hx.
      eapply compare_Lt_trans; eauto.
    + intros [Ha Ho]. split; [|exact Ho].
      inversion Ha as [|? ? Hm _]; subst. now rewrite Hm.
Qed.

Lemma above_get key s : above key s -> Store.get key s = None.
Proof.
  induction 1 as [|n s Hn _ IH]; simpl; [reflexivity|].
  rewrite compare_neq; [exact IH|]. rewrite Hn. discriminate.
Qed.

Lemma ordered_get n s : Store.ordered s = true -> In n s -> Store.get (id n) s = Some n.
Proof.
  induction s as [|m s IH]; intros Ho Hin; [destruct Hin|].
  apply ordered_cons in Ho. destruct Ho as [Ha Ho]. simpl.
  destruct Hin as [->|Hin].
  - now rewrite String.eqb_refl.
  - destruct (String.eqb (id m) (id n)) eqn:E.
    + apply String.eqb_eq in E. apply above_get in Ha.
      rewrite E in Ha. apply In_get_some in Hin. contradiction.
    + auto.
Qed.

Lemma above_put key v s :
  String.compare key (id v) = Lt -> above key s -> above key (Store.put v s).
Proof.
  intros Hv. induction 1 as [|n s Hn Hs IH]; simpl.
  - repeat constructor. exact Hv.
  - destruct (String.compare (id v) (id n)); repeat (constructor; auto).
Qed.

Lemma ordered_put v s : Store.ordered s = true -> Store.ordered (Store.put v s) = true.
Proof.
  induction s as [|n s IH]; intros Ho; [reflexivity|].
  apply ordered_cons in Ho. destruct Ho as [Ha Ho].
  change (Store.put v (n :: s)) with
    (match String.compare (id v) (id n) with
     | Lt => v :: n :: s | Eq => v :: s | Gt => n :: Store.put v s end).
  destruct (String.compare (id v) (id n)) eqn:E.
  - apply String.compare_eq_iff in E. apply ordered_cons. rewrite E. auto.
  - apply ordered_cons. split.
    + constructor; [exact E|]. eapply Forall_impl; [|exact Ha].
      intros x Hx. eapply compare_Lt_trans; eauto.
    + apply ordered_cons. auto.
  - apply ordered_cons. split; [|auto].
    apply above_put; [now apply compare_Gt_Lt|exact Ha].
Qed.

Lemma ordered_delete key s :
  Store.ordered s = true -> Store.ordered (Store.delete key s) = true.
Proof.
  induction s as [|n s IH]; intros Ho; [reflexivity|].
  apply ordered_cons in Ho. destruct Ho as [Ha Ho]. simpl.
  destruct (negb (String.eqb (id n) key)); [|auto].
  apply ordered_cons. split; [|auto].
  unfold above, Store.delete in *. rewrite Forall_forall in *.
  intros x Hx. apply filter_In in Hx. apply Ha. tauto.
Qed.

(** ** Transitions of the world

    What the module does to the world, reduced to three kinds of step:
    a change outside the store, the clock and the timers; the addition of a
    fresh record; the marking of a stored record. *)

Section Respects.
Variable R : World -> World -> Prop.
Hypothesis R_refl : forall w, R w w.
Hypothesis R_trans : forall a b c, R a b -> R b c -> R a c.
Hypothesis R_quiet : forall w w', quiet w w' -> R w w'.
Hypothesis R_add : forall w v,
  Store.get (id v) (notifications w) = None ->
  isTriggered v = false -> own_anchor v ->
  R w (with_notifications (Store.put v (notifications w)) w).
Hypothesis R_mark : forall w n,
  Store.get (id n) (notifications w) = Some n ->
  R w (with_notifications (Store.put (set_isTriggered true n) (notifications w)) w).

Lemma respects_bind {A B} (c : Async A) (k : A -> Async B) w :
  R w (fst (c w)) ->
  (forall a w', c w = (w', Resolved a) -> R w' (fst (k a w'))) ->
  R w (fst (bind c k w)).
Proof.
  intros Hc Hk. unfold bind.
  destruct (c w) as [w' [a|e|]] eqn:E; simpl in *; eauto.
Qed.

Lemma respects_then {A B} (c : Async A) (k : A -> Async B) :
  respects R c -> (forall a, respects R (k a)) -> respects R (bind c k).
Proof. intros Hc Hk w. apply respects_bind; [apply Hc|intros; apply Hk]. Qed.

Lemma respects_ret {A} (a : A) : respects R (ret a).
Proof. intros w. apply R_refl. Qed.

Lemma respects_try_catch c msg : respects R c -> respects R (try_catch c msg).
Proof.
  intros Hc w. unfold try_catch. specialize (Hc w).
  destruct (c w) as [w' [a|e|]]; simpl in *; auto.
  eapply R_trans; [exact Hc|]. apply R_quiet. now repeat split.
Qed.

Lemma respects_for_of {A} (xs : list A) body :
  (forall x, In x xs -> respects R (body x)) -> respects R (for_of xs body).
Proof.
  induction xs as [|x xs IH]; intros Hb; simpl.
  - apply respects_ret.
  - apply respects_then; [apply Hb; now left|].
    intros _. apply IH. intros y Hy. apply Hb. now right.
Qed.

Lemma respects_console_log msg : respects R (console_log msg).
Proof. intros w. apply R_quiet. now repeat split. Qed.

Lemma respects_requestNotificationPermission :
  respects R requestNotificationPermission.
Proof.
  intros w. unfold requestNotificationPermission.
  destruct (permission w); simpl; try apply R_refl.
  apply R_quiet. now repeat split.
Qed.

Lemma respects_showNotification t b ts ns o :
  respects R (showNotification t b ts ns o).
Proof.
  unfold showNotification. apply respects_then.
  - apply respects_requestNotificationPermission.
  - intros [| |]; try apply respects_console_log.
    intros w. apply R_quiet. now repeat split.
Qed.

Lemma respects_scheduleNotification task t b time options :
  respects R (scheduleNotification task t b time options).
Proof.
  intros w. unfold scheduleNotification, bind, randomUUID, Date_now, store_add.
  simpl. unfold Store.add. simpl.
  destruct (Store.get (uuids w (uuid_count w)) (notifications w)) eqn:E; simpl.
  - apply R_quiet. now repeat split.
  - eapply R_trans; [apply (R_quiet w (with_uuid_count (S (uuid_count w)) w));
                     now repeat split|].
    apply (R_add (with_uuid_count (S (uuid_count w)) w)); simpl; auto.
    reflexivity.
Qed.

Lemma respects_markNotificationTriggered key :
  respects R (markNotificationTriggered key).
Proof.
  intros w. unfold markNotificationTriggered, bind, store_get, store_put, reject.
  simpl. destruct (Store.get key (notifications w)) as [n|] eqn:E; simpl.
  - apply R_mark. apply get_id in E as Hid. now rewrite Hid.
  - apply R_refl.
Qed.

Lemma respects_scheduleRecurringNotification n :
  respects R (scheduleRecurringNotification n).
Proof.
  intros w. unfold scheduleRecurringNotification.
  destruct (recurringPattern n); [|apply R_refl].
  apply respects_bind.
  - apply respects_scheduleNotification.
  - intros; apply R_refl.
Qed.

Lemma respects_trigger n : respects R (Part000.trigger n).
Proof.
  unfold Part000.trigger. apply respects_then.
  - apply respects_markNotificationTriggered.
  - intros _. destruct (recurring n).
    + apply respects_scheduleRecurringNotification.
    + apply respects_ret.
Qed.

Lemma respects_show_group g : respects R (Part000.show_group g).
Proof.
  unfold Part000.show_group.
  destruct g as [|n [|m g]]; apply respects_showNotification.
Qed.

Lemma respects_check_body : respects R Part000.checkAndTriggerNotifications_body.
Proof.
  intros w. unfold Part000.checkAndTriggerNotifications_body,
    getScheduledNotifications, Date_now, bind. simpl.
  destruct (_ =? _)%nat; [apply R_refl|].
  apply respects_for_of. intros g _. apply respects_then.
  - apply respects_show_group.
  - intros _. apply respects_for_of. intros n _. apply respects_trigger.
Qed.

Lemma respects_check000 : respects R Part000.checkAndTriggerNotifications.
Proof. apply respects_try_catch, respects_check_body. Qed.

Lemma respects_check001 : respects R Part001.checkAndTriggerNotifications.
Proof.
  intros w. unfold Part001.checkAndTriggerNotifications,
    getScheduledNotifications, Date_now, bind. simpl.
  apply respects_for_of. intros n _. unfold Part001.check.
  destruct (is_due (now w) n); [|apply respects_ret].
  apply respects_then; [apply respects_showNotification|intros _].
  apply respects_then; [apply respects_markNotificationTriggered|intros _].
  destruct (truthy_bool _).
  - apply respects_scheduleRecurringNotification.
  - apply respects_ret.
Qed.

Lemma respects_scheduleTaskReminder budget : forall task t time rep interval options,
  respects R (scheduleTaskReminder budget task t time rep interval options).
Proof.
  induction budget as [|budget IH]; intros task t time rep interval options w.
  - apply R_refl.
  - simpl. unfold bind at 1, Date_now. simpl.
    destruct (time <=? now w); [apply respects_console_log|].
    apply respects_bind; [apply respects_scheduleNotification|].
    intros _ w' _. destruct rep; [|apply R_refl].
    destruct interval; [|apply R_refl].
    next_occurrence; [apply IH|apply R_refl].
Qed.
End Respects.

Section RespectsMore.
Variable R : World -> World -> Prop.
Hypothesis R_refl : forall w, R w w.
Hypothesis R_trans : forall a b c, R a b -> R b c -> R a c.
Hypothesis R_quiet : forall w w', quiet w w' -> R w w'.
Hypothesis R_add : forall w v,
  Store.get (id v) (notifications w) = None ->
  isTriggered v = false -> own_anchor v ->
  R w (with_notifications (Store.put v (notifications w)) w).
Hypothesis R_mark : forall w n,
  Store.get (id n) (notifications w) = Some n ->
  R w (with_notifications (Store.put (set_isTriggered true n) (notifications w)) w).
Hypothesis R_patch : forall w n c,
  In n (notifications w) ->
  R w (with_notifications (Store.put (set_snoozeCount c n) (notifications w)) w).
Hypothesis R_scheduler : forall w s, R w (with_scheduler s w).

Lemma respects_snoozeNotification task minutes :
  respects R (snoozeNotification task minutes).
Proof.
  unfold snoozeNotification. apply respects_try_catch; auto.
  intros w. unfold bind at 1, getTasks. simpl.
  destruct (find _ (tasks w)) as [found|]; [|apply R_refl].
  unfold bind at 1, getScheduledNotifications at 1. simpl.
  unfold bind at 1, Date_now. simpl.
  apply respects_bind; auto.
  - apply respects_scheduleNotification; auto.
  - intros _ w' _. unfold bind, getScheduledNotifications. simpl.
    destruct (find _ (notifications w')) as [n|] eqn:F; simpl.
    + apply R_patch. apply find_some in F. tauto.
    + apply R_refl.
Qed.

Lemma respects_start000 w : R w (Part000.startNotificationScheduler w).
Proof.
  unfold Part000.startNotificationScheduler.
  destruct (setInterval 60000 (scheduler w)) as [s1 h].
  set (w1 := fst (Part000.checkAndTriggerNotifications (with_scheduler s1 w))).
  destruct (new_closure (scheduler w1)) as [s2 k].
  eapply R_trans; [apply (R_scheduler w s1)|].
  eapply R_trans; [apply (respects_check000 R); auto|].
  apply R_scheduler.
Qed.

Lemma respects_stop000 w : R w (Part000.stopNotificationScheduler w).
Proof.
  unfold Part000.stopNotificationScheduler.
  destruct (truthy_handle _); [apply R_scheduler|apply R_refl].
Qed.

Lemma respects_start001 w : R w (Part001.startNotificationScheduler w).
Proof.
  unfold Part001.startNotificationScheduler.
  destruct (setInterval 120000 _) as [s1 h].
  set (w1 := fst (Part001.checkAndTriggerNotifications _)).
  destruct (new_closure (scheduler w1)) as [s2 k].
  eapply R_trans; [apply (R_scheduler w (set_notificationInterval (Some h) s1))|].
  eapply R_trans; [apply (respects_check001 R); auto|].
  apply R_scheduler.
Qed.

Lemma respects_stop001 w : R w (Part001.stopNotificationScheduler w).
Proof. unfold Part001.stopNotificationScheduler. apply R_scheduler. Qed.
End RespectsMore.

(** ** A triggered record stays triggered *)

Lemma stays_triggered_refl key w : stays_triggered key w w.
Proof. intros Hw. auto. Qed.

Lemma stays_triggered_trans key a b c :
  stays_triggered key a b -> stays_triggered key b c -> stays_triggered key a c.
Proof.
  intros H1 H2 Ha. destruct (H1 Ha) as [Hb H1']. destruct (H2 Hb) as [Hc H2'].
  auto.
Qed.

Lemma stays_triggered_store key w w' :
  notifications w' = notifications w -> stays_triggered key w w'.
Proof. intros E Hw. unfold wf. rewrite E. auto. Qed.

Lemma stays_triggered_put key w v :
  (wf w -> forall r, Store.get (id v) (notifications w) = Some r ->
             isTriggered r = true -> isTriggered v = true) ->
  stays_triggered key w (with_notifications (Store.put v (notifications w)) w).
Proof.
  intros Hv Hw. specialize (Hv Hw). split.
  - unfold wf. simpl. now apply ordered_put.
  - intros (r & Hr & Ht). simpl. unfold triggered_in.
    destruct (String.eqb key (id v)) eqn:E.
    + apply String.eqb_eq in E. subst key. rewrite get_put_same.
      exists v. split; [reflexivity|]. eapply Hv; eauto.
    + apply String.eqb_neq in E. rewrite get_put_other by assumption. eauto.
Qed.

Lemma stays_triggered_delete key key' w :
  key' <> key ->
  stays_triggered key w (with_notifications (Store.delete key' (notifications w)) w).
Proof.
  intros Hk Hw. split.
  - unfold wf. simpl. now apply ordered_delete.
  - intros (r & Hr & Ht). exists r. simpl. rewrite get_delete.
    destruct (String.eqb key key') eqn:E; [|auto].
    apply String.eqb_eq in E. congruence.
Qed.

Lemma run_stays_triggered key op w :
  op <> OpDelete key -> stays_triggered key w (run op w).
Proof.
  assert (Hq : forall w w', quiet w w' -> stays_triggered key w w')
    by (intros ? ? (E & _); now apply stays_triggered_store).
  assert (Ha : forall w v, Store.get (id v) (notifications w) = None ->
            isTriggered v = false -> own_anchor v ->
            stays_triggered key w (with_notifications (Store.put v (notifications w)) w))
    by (intros ? ? E _ _; apply stays_triggered_put; intros _ r Hr; congruence).
  assert (Hm : forall w n, Store.get (id n) (notifications w) = Some n ->
            stays_triggered key w
              (with_notifications (Store.put (set_isTriggered true n) (notifications w)) w))
    by (intros; apply stays_triggered_put; reflexivity).
  pose proof (stays_triggered_refl key) as Hr.
  pose proof (stays_triggered_trans key) as Ht.
  intros Hop. destruct op; simpl.
  - apply respects_scheduleNotification; auto.
  - apply respects_markNotificationTriggered; auto.
  - unfold deleteScheduledNotification, store_delete. simpl.
    apply stays_triggered_delete. congruence.
  - apply respects_showNotification; auto.
  - apply respects_check000; auto.
  - apply respects_check001; auto.
  - apply respects_snoozeNotification; auto.
    intros w0 n c Hin. apply stays_triggered_put.
    simpl. intros Hw0 r Hg Htr.
    rewrite (ordered_get n _ Hw0 Hin) in Hg. congruence.
  - apply respects_scheduleTaskReminder; auto.
  - apply respects_start000; auto. intros; now apply stays_triggered_store.
  - apply respects_stop000; auto. intros; now apply stays_triggered_store.
  - apply respects_start001; auto. intros; now apply stays_triggered_store.
  - apply respects_stop001; auto. intros; now apply stays_triggered_store.
  - now apply stays_triggered_store.
Qed.

(** ** The scheduler loop *)

(** The evaluators leave timers and listeners alone. *)
Lemma check000_scheduler w :
  scheduler (fst (Part000.checkAndTriggerNotifications w)) = scheduler w.
Proof.
  apply (respects_check000 (fun w w' => scheduler w' = scheduler w)); auto.
  - intros a b c H1 H2. congruence.
  - intros a b (_ & _ & H). exact H.
Qed.

Lemma check001_scheduler w :
  scheduler (fst (Part001.checkAndTriggerNotifications w)) = scheduler w.
Proof.
  apply (respects_check001 (fun w w' => scheduler w' = scheduler w)); auto.
  - intros a b c H1 H2. congruence.
  - intros a b (_ & _ & H). exact H.
Qed.

Lemma start000_scheduler w :
  scheduler (Part000.startNotificationScheduler w) =
  let s1 := fst (setInterval 60000 (scheduler w)) in
  let s2 := fst (new_closure s1) in
  set_window_notificationInterval (Some (S (last_handle (scheduler w))))
    (addEventListener (mkListener window "focus" CheckAndTrigger)
       (addEventListener (visibility_listener (next_closure (scheduler w))) s2)).
Proof.
  unfold Part000.startNotificationScheduler. simpl.
  rewrite check000_scheduler. reflexivity.
Qed.

Lemma start001_scheduler w :
  scheduler (Part001.startNotificationScheduler w) =
  let s0 := match truthy_handle (notificationInterval (scheduler w)) with
            | Some h => clearInterval h (scheduler w)
            | None => scheduler w
            end in
  let s1 := set_notificationInterval (Some (S (last_handle s0)))
              (fst (setInterval 120000 s0)) in
  let k := next_closure s1 in
  set_window_notificationCleanup (Some k)
    (addEventListener (mkListener window "focus" (FocusHandler k))
       (addEventListener (visibility_listener k) (fst (new_closure s1)))).
Proof.
  unfold Part001.startNotificationScheduler. simpl.
  rewrite check001_scheduler. reflexivity.
Qed.

Lemma succ_eqb n : Nat.eqb (S n) n = false.
Proof. apply Nat.eqb_neq. lia. Qed.

Lemma eqb_succ n : Nat.eqb n (S n) = false.
Proof. apply Nat.eqb_neq. lia. Qed.

Lemma succ_eqb_0 n : Nat.eqb (S n) 0 = false.
Proof. reflexivity. Qed.

Ltac scheduler_compute :=
  unfold addEventListener, removeEventListener, visibility_listener,
    Listener_eqb;
  cbn -[String.eqb Nat.eqb];
  repeat (progress (rewrite ?String.eqb_refl, ?Nat.eqb_refl, ?succ_eqb,
                      ?eqb_succ, ?succ_eqb_0);
          cbn -[String.eqb Nat.eqb]).

(** C8.  What start, start, stop leaves behind, from a scheduler that was
    never started.  First variant: the second start adds a second live
    interval, the stop clears only that one, so one interval stays live, and
    no listener is detached.  Second variant: the second start replaces the
    interval and the stop clears it, so no interval stays live, but the
    visibility and focus listeners of the first start stay attached. *)
Theorem double_start_then_stop_leaks :
  forall w, idle (scheduler w) ->
    let h := last_handle (scheduler w) in
    let k := next_closure (scheduler w) in
    let twice000 := Part000.startNotificationScheduler (Part000.startNotificationScheduler w) in
    let twice001 := Part001.startNotificationScheduler (Part001.startNotificationScheduler w) in
    (intervals (scheduler twice000) = [(S h, 60000); (S (S h), 60000)]
     /\ intervals (scheduler (Part000.stopNotificationScheduler twice000)) = [(S h, 60000)]
     /\ listeners (scheduler (Part000.stopNotificationScheduler twice000))
        = [visibility_listener k; mkListener window "focus" CheckAndTrigger;
           visibility_listener (S k)])
    /\
    (intervals (scheduler twice001) = [(S (S h), 120000)]
     /\ intervals (scheduler (Part001.stopNotificationScheduler twice001)) = []
     /\ listeners (scheduler (Part001.stopNotificationScheduler twice001))
        = [visibility_listener k; mkListener window "focus" (FocusHandler k)]).
Proof.
  intros w (Hi & Hl & Hw & Hn & Hc) h k twice000 twice001.
  split.
  - assert (E : scheduler twice000 =
      mkScheduler [(S h, 60000); (S (S h), 60000)] (S (S h))
        [visibility_listener k; mkListener window "focus" CheckAndTrigger;
         visibility_listener (S k)] (S (S k)) (Some (S (S h))) None None).
    { unfold twice000. rewrite !start000_scheduler.
      destruct (scheduler w) as [iv lh ls nc wi ni wc]; simpl in *. subst.
      scheduler_compute. reflexivity. }
    unfold Part000.stopNotificationScheduler. rewrite E. unfold clearInterval.
    scheduler_compute. auto.
  - assert (E : scheduler twice001 =
      mkScheduler [(S (S h), 120000)] (S (S h))
        [visibility_listener k; mkListener window "focus" (FocusHandler k);
         visibility_listener (S k); mkListener window "focus" (FocusHandler (S k))]
        (S (S k)) None (Some (S (S h))) (Some (S k))).
    { unfold twice001. rewrite !start001_scheduler.
      destruct (scheduler w) as [iv lh ls nc wi ni wc]; simpl in *. subst.
      unfold clearInterval. scheduler_compute. reflexivity. }
    unfold Part001.stopNotificationScheduler, Part001.cleanup. rewrite E.
    unfold clearInterval.
    scheduler_compute. auto.
Qed.

(** From a freshly loaded page. *)
Lemma double_start_witness :
  let w := example_world [] [] 0 in
  intervals (scheduler (Part000.stopNotificationScheduler
               (Part000.startNotificationScheduler
                  (Part000.startNotificationScheduler w)))) = [(1%nat, 60000)]
  /\ listeners (scheduler (Part001.stopNotificationScheduler
                  (Part001.startNotificationScheduler
                     (Part001.startNotificationScheduler w))))
     = [visibility_listener 0; mkListener window "focus" (FocusHandler 0)].
Proof.
  destruct (double_start_then_stop_leaks (example_world [] [] 0))
    as ((_ & H0 & _) & (_ & _ & H1)).
  - repeat split.
  - split; [exact H0|exact H1].
Defined.

(** ** Deletion *)

Lemma delete_absent key s : Store.get key s = None -> Store.delete key s = s.
Proof.
  induction s as [|n s IH]; simpl; [reflexivity|].
  destruct (String.eqb (id n) key); [discriminate|].
  intros H. simpl. now rewrite IH.
Qed.

(** C9, counterexample.  The store holds one record, "a"; deleting "zz",
    which is not there, resolves and leaves the world as it was. *)
Lemma delete_of_absent_id_resolves :
  let w := example_world [example_notification "a" 1000] [] 0 in
  Store.get "zz" (notifications w) = None
  /\ deleteScheduledNotification "zz" w = (w, Resolved tt).
Proof. split; reflexivity. Qed.

(** C9, amended.  [deleteScheduledNotification] resolves for every id.
    Afterwards no record has that id and every other record is as before;
    when no record had the id the store is unchanged. *)
Theorem delete_resolves_and_removes :
  forall key w,
  exists w',
    deleteScheduledNotification key w = (w', Resolved tt)
    /\ Store.get key (notifications w') = None
    /\ (forall k, k <> key ->
          Store.get k (notifications w') = Store.get k (notifications w))
    /\ (Store.get key (notifications w) = None ->
          notifications w' = notifications w).
Proof.
  intros key w. eexists. split; [reflexivity|]. simpl. repeat split.
  - rewrite get_delete. now rewrite String.eqb_refl.
  - intros k Hk. rewrite get_delete.
    apply String.eqb_neq in Hk. now rewrite Hk.
  - apply delete_absent.
Qed.

(** Deleting the one record of a store. *)
Lemma delete_witness :
  let w := example_world [example_notification "a" 1000] [] 0 in
  exists w',
    deleteScheduledNotification "a" w = (w', Resolved tt)
    /\ Store.get "a" (notifications w') = None
    /\ (forall k, k <> "a" ->
          Store.get k (notifications w') = Store.get k (notifications w))
    /\ (Store.get "a" (notifications w) = None ->
          notifications w' = notifications w).
Proof. exact (delete_resolves_and_removes "a" _). Defined.

(** ** Scheduling a task reminder *)

Lemma scheduleNotification_fresh task t b time options w :
  Store.get (uuids w (uuid_count w)) (notifications w) = None ->
  let n := mkNotification (uuids w (uuid_count w)) task t b time false (now w)
             (Some (or_default (opt options opt_priority) normal))
             (Some (or_default (opt options opt_category) reminder))
             (opt options opt_taskDueDate) None None (Some 0) (Some time)
             (Some (or_default (opt options opt_isRecurring) false))
             (opt options opt_recurringPattern) in
  scheduleNotification task t b time options w
  = (with_notifications (Store.put n (notifications w))
       (with_uuid_count (S (uuid_count w)) w), Resolved n).
Proof.
  intros H n. unfold scheduleNotification, bind, randomUUID, Date_now, store_add, ret.
  simpl. unfold Store.add. simpl. rewrite H. reflexivity.
Qed.

Lemma scheduleNotification_taken task t b time options w :
  Store.get (uuids w (uuid_count w)) (notifications w) <> None ->
  scheduleNotification task t b time options w
  = (with_uuid_count (S (uuid_count w)) w, Rejected ConstraintError).
Proof.
  intros H. unfold scheduleNotification, bind, randomUUID, Date_now, store_add, ret.
  simpl. unfold Store.add. simpl.
  destruct (Store.get (uuids w (uuid_count w)) (notifications w)); [reflexivity|].
  congruence.
Qed.

Lemma only_adds_refl P s : only_adds P s s.
Proof. intros k. now left. Qed.

Lemma only_adds_trans P s1 s2 s3 :
  only_adds P s1 s2 -> only_adds P s2 s3 -> only_adds P s1 s3.
Proof.
  intros H1 H2 k. destruct (H1 k) as [E1|(N1 & r1 & G1 & P1)];
    destruct (H2 k) as [E2|(N2 & r2 & G2 & P2)].
  - left. congruence.
  - right. split; [congruence|]. eauto.
  - right. split; [assumption|]. exists r1. split; [congruence|assumption].
  - congruence.
Qed.

Lemma only_adds_put (P : ScheduledNotification -> Prop) v s :
  Store.get (id v) s = None -> P v -> only_adds P s (Store.put v s).
Proof.
  intros Hn Hv k. destruct (String.eqb k (id v)) eqn:E.
  - apply String.eqb_eq in E. subst k. right. split; [assumption|].
    exists v. split; [apply get_put_same|assumption].
  - apply String.eqb_neq in E. left. now apply get_put_other.
Qed.

Lemma scheduleTaskReminder_only_adds budget :
  forall task t time rep interval options w,
    only_adds (fun r => now w < scheduledTime r)
      (notifications w)
      (notifications
         (fst (scheduleTaskReminder budget task t time rep interval options w))).
Proof.
  induction budget as [|budget IH]; intros task t time rep interval options w.
  - apply only_adds_refl.
  - simpl. unfold bind at 1, Date_now. simpl.
    destruct (time <=? now w) eqn:E; [apply only_adds_refl|].
    apply Z.leb_gt in E. unfold bind.
    destruct (Store.get (uuids w (uuid_count w)) (notifications w)) eqn:G.
    + rewrite scheduleNotification_taken by congruence. apply only_adds_refl.
    + rewrite scheduleNotification_fresh by assumption.
      match goal with |- context [Store.put ?v _] => set (n := v) end.
      assert (Hput : only_adds (fun r => now w < scheduledTime r)
                (notifications w) (Store.put n (notifications w)))
        by (apply only_adds_put; [exact G|simpl; lia]).
      destruct rep; [|exact Hput]. destruct interval; [|exact Hput].
      next_occurrence; [|exact Hput].
      eapply only_adds_trans; [exact Hput|].
      match goal with |- context [scheduleTaskReminder budget ?a ?b ?c ?d ?e ?f ?w'] =>
        apply (IH a b c d e f w') end.
Qed.

Lemma scheduleTaskReminder_rejects_past budget task t time rep interval options w :
  time <= now w ->
  scheduleTaskReminder (S budget) task t time rep interval options w
  = (with_console (console w ++ ["Cannot schedule reminder in the past"]) w,
     Resolved tt).
Proof.
  intros H. simpl. unfold bind, Date_now. simpl.
  apply Z.leb_le in H. rewrite H. reflexivity.
Qed.

(** One call for a time still ahead: the record of this occurrence is
    stored; a repeating reminder goes on to the next occurrence, or is
    rejected when that lies past the Date range. *)
Lemma scheduleTaskReminder_step n task taskTitle time rep interval options w :
  now w < time ->
  Store.get (uuids w (uuid_count w)) (notifications w) = None ->
  scheduleTaskReminder (S n) task taskTitle time rep interval options w
  = let w1 :=
      with_notifications
        (Store.put (reminder_record w task taskTitle time options) (notifications w))
        (with_uuid_count (S (uuid_count w)) w) in
    match rep, interval with
    | true, Some i =>
        match JSDate.TimeClip (advance_date (localTZA w) i time) with
        | Some next =>
            scheduleTaskReminder n task taskTitle next rep interval options w1
        | None => (w1, Rejected RangeError)
        end
    | _, _ => (w1, Resolved tt)
    end.
Proof.
  intros Hlt Hnew.
  cbn [scheduleTaskReminder]. unfold bind at 1, Date_now.
  replace (time <=? now w) with false by (symmetry; apply Z.leb_gt; lia).
  unfold bind at 1.
  rewrite scheduleNotification_fresh by exact Hnew. cbv zeta.
  destruct rep; [destruct interval|]; try reflexivity.
  rewrite toISOString_bind. reflexivity.
Qed.

(** C7.  A call to [scheduleTaskReminder] for a time still ahead, with a
    fresh identifier at hand, stores a record for that time whose category
    is "overdue" when due date minus reminder time is at most 0, "deadline"
    when that gap is positive and at most 3600000 ms, "reminder" when it is
    larger or when there is no due date; when the caller gives no priority
    the record's priority is "high" if the category is "overdue" and
    "normal" otherwise.  A call that does not repeat resolves. *)
Theorem task_reminder_category_and_priority :
  forall budget task t time rep interval options w,
    now w < time ->
    Store.get (uuids w (uuid_count w)) (notifications w) = None ->
    let result :=
      scheduleTaskReminder (S budget) task t time rep interval options w in
    exists r,
      Store.get (uuids w (uuid_count w)) (notifications (fst result)) = Some r
      /\ taskId r = task /\ scheduledTime r = time
      /\ (forall due, opt options ro_taskDueDate = Some due ->
            (due - time <= 0 -> category r = Some overdue)
            /\ (0 < due - time <= 3600000 -> category r = Some deadline)
            /\ (3600000 < due - time -> category r = Some reminder))
      /\ (opt options ro_taskDueDate = None -> category r = Some reminder)
      /\ (opt options ro_priority = None ->
            (category r = Some overdue -> priority r = Some high)
            /\ (category r <> Some overdue -> priority r = Some normal))
      /\ (rep = false \/ interval = None -> snd result = Resolved tt).
Proof.
  intros budget task t time rep interval options w Hnow Hfresh result.
  unfold result. rewrite scheduleTaskReminder_step by assumption. cbv zeta.
  set (n := reminder_record w task t time options).
  exists n. split; [|split; [reflexivity|split; [reflexivity|]]].
  - assert (Hmid : Store.get (uuids w (uuid_count w))
                     (Store.put n (notifications w)) = Some n)
      by apply (get_put_same n).
    destruct rep; [|exact Hmid]. destruct interval; [|exact Hmid].
    destruct (JSDate.TimeClip _); [|exact Hmid].
    match goal with |- context [scheduleTaskReminder budget ?a ?b ?c ?d ?e ?f ?w'] =>
      destruct (scheduleTaskReminder_only_adds budget a b c d e f w'
                  (uuids w (uuid_count w))) as [E|(N & _)] end.
    + rewrite E. exact Hmid.
    + simpl in N. congruence.
  - unfold n, reminder_record. simpl. unfold reminder_category.
    split; [|split; [|split]].
    + intros due ->. 
      destruct (due - time <=? 0) eqn:E1; [apply Z.leb_le in E1|apply Z.leb_gt in E1].
      * repeat split; intros; (reflexivity || lia).
      * destruct (due - time <=? 60 * 60 * 1000) eqn:E2;
          [apply Z.leb_le in E2|apply Z.leb_gt in E2];
          repeat split; intros; (reflexivity || lia).
    + intros ->. reflexivity.
    + intros ->. simpl.
      destruct (opt options ro_taskDueDate) as [due|]; simpl.
      * destruct (due - time <=? 0); [|destruct (due - time <=? 3600000)];
          simpl; split; intros H; try reflexivity; try discriminate;
          exfalso; apply H; reflexivity.
      * split; intros; try reflexivity; discriminate.
    + intros [->| ->]; [reflexivity|]. destruct rep; reflexivity.
Qed.

(** A reminder for 00:00:05, due half an hour later, scheduled at time 0. *)
Lemma task_reminder_witness :
  exists r,
    Store.get "b"
      (notifications
         (fst (scheduleTaskReminder 1 "task-1" "water the plants" 5000 false None
                 (Some (mkReminderOptions None (Some 1805000)))
                 (example_world [] [] 0)))) = Some r
    /\ category r = Some deadline /\ priority r = Some normal.
Proof.
  destruct (task_reminder_category_and_priority 0 "task-1" "water the plants"
              5000 false None (Some (mkReminderOptions None (Some 1805000)))
              (example_world [] [] 0))
    as (r & Hg & _ & _ & Hcat & _ & Hpri & _).
  - reflexivity.
  - reflexivity.
  - exists r. split; [exact Hg|].
    destruct (Hcat 1805000 eq_refl) as (_ & Hd & _).
    assert (Hc : category r = Some deadline) by (apply Hd; simpl; lia).
    split; [exact Hc|].
    apply (proj2 (Hpri eq_refl)). rewrite Hc. discriminate.
Defined.

(** ** What the three paths store *)

Lemma In_put x v s : In x (Store.put v s) -> x = v \/ In x s.
Proof.
  induction s as [|n s IH]; simpl.
  - intros [<-|[]]. now left.
  - destruct (String.compare (id v) (id n)); simpl.
    + intros [<-|H]; auto.
    + intros [<-|[<-|H]]; auto.
    + intros [<-|H]; auto. destruct (IH H); auto.
Qed.

Lemma get_put_new key v s r :
  Store.get key s = None -> Store.get key (Store.put v s) = Some r ->
  key = id v /\ r = v.
Proof.
  intros Hn Hg. destruct (String.eqb key (id v)) eqn:E.
  - apply String.eqb_eq in E. subst key. rewrite get_put_same in Hg.
    split; congruence.
  - apply String.eqb_neq in E. rewrite get_put_other in Hg by assumption.
    congruence.
Qed.

(** The record the snooze path adds. *)
Lemma snooze_new_record task minutes w key r :
  Store.get key (notifications w) = None ->
  Store.get key (notifications (fst (snoozeNotification task minutes w))) = Some r ->
  createdAt r = now w /\ scheduledTime r = now w + minutes * 60 * 1000.
Proof.
  intros Hn. unfold snoozeNotification, try_catch.
  unfold bind at 1, getTasks. simpl.
  destruct (find _ (tasks w)) as [found|]; [|simpl; congruence].
  unfold bind at 1, getScheduledNotifications at 1. simpl.
  unfold bind at 1, Date_now. simpl. unfold bind at 1.
  destruct (Store.get (uuids w (uuid_count w)) (notifications w)) eqn:G.
  - rewrite scheduleNotification_taken by congruence. simpl. congruence.
  - rewrite scheduleNotification_fresh by assumption.
    match goal with |- context [Store.put ?v _] => set (v0 := v) end.
    unfold bind, getScheduledNotifications. simpl.
    destruct (find _ (Store.put v0 (notifications w))) as [n|] eqn:F; simpl.
    + intros Hg. apply find_some in F. destruct F as [Hin _].
      destruct (String.eqb key (id n)) eqn:E.
      * apply String.eqb_eq in E. subst key.
        change (id n) with (id (set_snoozeCount
          (or_default (truthy_number (opt
             (find (fun n0 => String.eqb (taskId n0) task && negb (isTriggered n0))
                (notifications w)) snoozeCount)) 0 + 1) n)) in Hg at 1.
        rewrite get_put_same in Hg. injection Hg as <-.
        apply In_put in Hin. destruct Hin as [->|Hin].
        -- split; reflexivity.
        -- apply In_get_some in Hin. contradiction.
      * apply String.eqb_neq in E.
        rewrite get_put_other in Hg by (simpl; assumption).
        destruct (get_put_new _ _ _ _ Hn Hg) as [_ ->]. split; reflexivity.
    + intros Hg. destruct (get_put_new _ _ _ _ Hn Hg) as [_ ->]. split; reflexivity.
Qed.

(** The record the recurrence path adds. *)
Lemma recurring_new_record n pattern w key r :
  recurringPattern n = Some pattern ->
  Store.get key (notifications w) = None ->
  Store.get key (notifications (fst (scheduleRecurringNotification n w))) = Some r ->
  createdAt r = now w
  /\ scheduledTime r =
     advance_date (localTZA w) pattern
       (or_default (truthy_number (originalScheduledTime n)) (scheduledTime n))
  /\ own_anchor r /\ isTriggered r = false
  /\ recurringPattern r = Some pattern.
Proof.
  intros Hp Hn. unfold scheduleRecurringNotification. rewrite Hp. unfold bind.
  destruct (Store.get (uuids w (uuid_count w)) (notifications w)) eqn:G.
  - rewrite scheduleNotification_taken by congruence. simpl. congruence.
  - rewrite scheduleNotification_fresh by assumption. simpl.
    intros Hg. destruct (get_put_new _ _ _ _ Hn Hg) as [_ ->].
    repeat split.
Qed.

(** C2, counterexample.  In [late_world] the evaluator delivers the daily
    reminder of 00:00:01 and the recurrence path stores its successor "c":
    created at 200000000 ms, scheduled for 86401000 ms, which is earlier. *)
Lemma recurrence_persists_a_past_record :
  Store.get "c" (notifications late_world) = None
  /\ exists r,
       Store.get "c" (notifications (run OpEvaluate000 late_world)) = Some r
       /\ createdAt r = 200000000
       /\ scheduledTime r = 86401000
       /\ scheduledTime r < createdAt r.
Proof.
  split; [reflexivity|]. eexists. split; [vm_compute; reflexivity|].
  simpl. repeat split. 
Qed.

(** C2, amended.  [now w] is the time the call reads from the clock: with
    [new Date()] for the guard of [scheduleTaskReminder], with [Date.now()]
    for the snooze time in [snoozeNotification].  Every record
    [scheduleTaskReminder] stores is scheduled strictly later than that, and
    a call with a reminder time at or before it resolves with the store
    unchanged.  The record the snooze path stores is scheduled
    [minutes * 60000] ms after the time [snoozeNotification] read, and the
    record the recurrence path stores is scheduled one interval after the
    anchor of the delivered record, whatever the current time is.  The
    creation time, which [scheduleNotification] reads for itself further
    on, enters none of these. *)
Theorem task_reminders_lie_in_the_future :
  (forall budget task t time rep interval options w,
     only_adds (fun r => now w < scheduledTime r)
       (notifications w)
       (notifications
          (fst (scheduleTaskReminder budget task t time rep interval options w))))
  /\ (forall budget task t time rep interval options w,
        time <= now w ->
        exists w',
          scheduleTaskReminder (S budget) task t time rep interval options w
          = (w', Resolved tt)
          /\ notifications w' = notifications w)
  /\ (forall task minutes w key r,
        Store.get key (notifications w) = None ->
        Store.get key (notifications (fst (snoozeNotification task minutes w)))
        = Some r ->
        scheduledTime r = now w + minutes * 60000)
  /\ (forall n pattern w key r,
        recurringPattern n = Some pattern ->
        Store.get key (notifications w) = None ->
        Store.get key (notifications (fst (scheduleRecurringNotification n w)))
        = Some r ->
        scheduledTime r =
        advance_date (localTZA w) pattern
          (or_default (truthy_number (originalScheduledTime n))
                      (scheduledTime n))).
Proof.
  split; [|split; [|split]].
  - intros budget task t time rep interval options w.
    apply scheduleTaskReminder_only_adds.
  - intros. eexists. split; [now apply scheduleTaskReminder_rejects_past|reflexivity].
  - intros task minutes w key r Hn Hg.
    destruct (snooze_new_record _ _ _ _ _ Hn Hg) as [Hc Hs]. lia.
  - intros n pattern w key r Hp Hn Hg.
    destruct (recurring_new_record _ _ _ _ _ Hp Hn Hg) as (Hc & Hs & _). auto.
Qed.

(** A weekly reminder followed through three calls, and a reminder that is
    already past. *)
Lemma task_reminders_witness :
  only_adds (fun r => 0 < scheduledTime r)
    [] (notifications
          (fst (scheduleTaskReminder 3 "task-1" "water the plants" 5000 true
                  (Some weekly) None (example_world [] [] 0))))
  /\ notifications
       (fst (scheduleTaskReminder 1 "task-1" "water the plants" 5000 false None
               None (example_world [] [] 7000))) = [].
Proof.
  split.
  - exact (proj1 task_reminders_lie_in_the_future 3%nat "task-1" "water the plants"
             5000 true (Some weekly) None (example_world [] [] 0)).
  - destruct (proj1 (proj2 task_reminders_lie_in_the_future) 0%nat "task-1"
                "water the plants" 5000 false None None (example_world [] [] 7000))
      as (w' & E & Hs); [simpl; lia|].
    rewrite E. exact Hs.
Defined.

(** ** Snoozing *)

(** C6.  Task "task-1" has one pending reminder "a", untriggered, never
    snoozed, due at 600000 ms.  At time 0 the task is snoozed for 10 minutes:
    the new record "b" is due at 600000 ms as well, the lookup that is to
    find it finds "a", and the snooze count 1 is written to "a" while "b"
    keeps the count 0. *)
Lemma snooze_patches_an_older_record :
  let pending := example_notification "a" 600000 in
  let w := example_world [pending] [plants] 0 in
  let w' := fst (snoozeNotification "task-1" 10 w) in
  find (fun n => String.eqb (taskId n) "task-1" && negb (isTriggered n))
       (notifications w) = Some pending
  /\ snoozeCount pending = Some 0
  /\ Store.get "b" (notifications w) = None
  /\ (exists created,
        Store.get "b" (notifications w') = Some created
        /\ scheduledTime created = 0 + 10 * 60000
        /\ snoozeCount created = Some 0)
  /\ Store.get "a" (notifications w') = Some (set_snoozeCount 1 pending).
Proof.
  repeat split. eexists. repeat split.
Qed.

(** ** Recurrence *)

Lemma created_own_anchor r : created r -> own_anchor r.
Proof.
  intros (task & t & b & time & options & w & w' & E).
  destruct (Store.get (uuids w (uuid_count w)) (notifications w)) eqn:G.
  - rewrite scheduleNotification_taken in E by congruence. discriminate.
  - rewrite scheduleNotification_fresh in E by assumption.
    injection E as _ <-. reflexivity.
Qed.

Lemma rescheduled_in_facts w r r' :
  rescheduled_in w r r' ->
  own_anchor r'
  /\ exists pattern,
       recurringPattern r = Some pattern
       /\ scheduledTime r' =
          advance_date (localTZA w) pattern
            (or_default (truthy_number (originalScheduledTime r)) (scheduledTime r)).
Proof.
  intros (d & Hd & Hn & Hg).
  assert (Hsame : recurringPattern d = recurringPattern r
                  /\ originalScheduledTime d = originalScheduledTime r
                  /\ scheduledTime d = scheduledTime r)
    by (destruct Hd as [->|(c & ->)]; repeat split).
  destruct Hsame as (Hp & Ho & Hs).
  destruct (recurringPattern d) as [pattern|] eqn:P.
  - destruct (recurring_new_record d pattern w _ _ P Hn Hg) as (_ & Ht & Ha & _).
    split; [exact Ha|]. exists pattern.
    split; [congruence|]. rewrite Ht, Ho, Hs. reflexivity.
  - unfold scheduleRecurringNotification in Hg. rewrite P in Hg. simpl in Hg.
    congruence.
Qed.

Lemma rescheduled_somewhere r r' :
  rescheduled r r' <-> exists w, rescheduled_in w r r'.
Proof.
  split.
  - intros (d & w & H). exists w, d. exact H.
  - intros (w & d & H). exists d, w. exact H.
Qed.

Lemma rescheduled_facts r r' : rescheduled r r' -> own_anchor r'.
Proof.
  intros H. apply rescheduled_somewhere in H. destruct H as (w & H).
  apply (rescheduled_in_facts w r r' H).
Qed.

Lemma anchor_of_own r :
  own_anchor r ->
  or_default (truthy_number (originalScheduledTime r)) (scheduledTime r)
  = scheduledTime r.
Proof.
  unfold own_anchor. intros ->. simpl.
  destruct (scheduledTime r =? 0) eqn:E; [|reflexivity].
  apply Z.eqb_eq in E. simpl. congruence.
Qed.

Lemma linked_own_anchor l :
  linked l -> (forall r, hd_error l = Some r -> own_anchor r) -> Forall own_anchor l.
Proof.
  induction l as [|r l IH]; intros Hl Hh; [constructor|].
  constructor; [apply Hh; reflexivity|].
  destruct l as [|r' l]; [constructor|].
  destruct Hl as [Hr Hl]. apply IH; [exact Hl|].
  intros x [= <-]. apply (rescheduled_facts r r' Hr).
Qed.

Lemma linked_nth l : forall i r r',
  linked l -> nth_error l i = Some r -> nth_error l (S i) = Some r' ->
  rescheduled r r'.
Proof.
  induction l as [|a l IH]; intros i r r' Hl Hi Hj.
  - destruct i; discriminate.
  - destruct l as [|b l]; [destruct i; discriminate|].
    destruct Hl as [Hr Hl]. destruct i as [|i].
    + simpl in Hi, Hj. injection Hi as <-. injection Hj as <-. exact Hr.
    + apply (IH i); assumption.
Qed.

(** C1, amended.  In a recurrence chain of any length every record has
    [originalScheduledTime] equal to its own [scheduledTime].  Each record
    after the first was added by a delivery of its predecessor, and in
    whichever browser that delivery took place, its [scheduledTime] is that
    of the predecessor advanced by one interval of the predecessor's
    pattern, in the time zone of that browser. *)
Theorem chain_records_anchor_on_their_own_time :
  forall l, recurrence_chain l ->
    Forall (fun r => originalScheduledTime r = Some (scheduledTime r)) l
    /\ forall i r r',
         nth_error l i = Some r -> nth_error l (S i) = Some r' ->
         exists pattern,
           recurringPattern r = Some pattern
           /\ (exists w, rescheduled_in w r r')
           /\ forall w, rescheduled_in w r r' ->
                scheduledTime r'
                = advance_date (localTZA w) pattern (scheduledTime r).
Proof.
  intros l Hc. destruct l as [|first l]; [destruct Hc|].
  destruct Hc as [Hcr Hl].
  assert (Hall : Forall own_anchor (first :: l)).
  { apply linked_own_anchor; [exact Hl|]. intros r [= <-].
    now apply created_own_anchor. }
  split; [exact Hall|].
  intros i r r' Hi Hj.
  pose proof (linked_nth _ i r r' Hl Hi Hj) as Hr.
  assert (Hown : own_anchor r).
  { rewrite Forall_forall in Hall. apply Hall. eapply nth_error_In. exact Hi. }
  apply rescheduled_somewhere in Hr. destruct Hr as (w0 & Hr).
  destruct (rescheduled_in_facts w0 r r' Hr) as (_ & pattern & Hp & _).
  exists pattern. split; [exact Hp|]. split; [exists w0; exact Hr|].
  intros w Hw.
  destruct (rescheduled_in_facts w r r' Hw) as (_ & pattern' & Hp' & Ht).
  rewrite Ht, anchor_of_own by exact Hown. congruence.
Qed.

Lemma example_chain : recurrence_chain [chain_first; chain_second].
Proof.
  split; [|split; [|exact I]].
  - exists "task-1", "Stand-up", "Don't forget: stand-up", 1000,
      (recurring_options daily), (example_world [] [] 0). eexists.
    rewrite scheduleNotification_fresh by reflexivity. reflexivity.
  - exists chain_first, late_world. split; [now left|]. split; reflexivity.
Qed.

(** C1, counterexample.  A chain of two: the daily reminder scheduled for
    1000 ms and the record its delivery in [late_world] adds.  The second
    record's [originalScheduledTime] is 86401000, not the 1000 of the
    first. *)
Lemma second_record_has_its_own_anchor :
  recurrence_chain [chain_first; chain_second]
  /\ Store.get "c" (notifications (run OpEvaluate000 late_world)) = Some chain_second
  /\ scheduledTime chain_first = 1000
  /\ originalScheduledTime chain_second = Some 86401000
  /\ originalScheduledTime chain_second <> Some (scheduledTime chain_first).
Proof.
  split; [exact example_chain|]. repeat split. discriminate.
Qed.

(** The chain of two of the example: the second record is scheduled a day
    after the first. *)
Lemma chain_witness :
  Forall (fun r => originalScheduledTime r = Some (scheduledTime r))
    [chain_first; chain_second]
  /\ scheduledTime chain_second
     = advance_date (localTZA late_world) daily (scheduledTime chain_first)
  /\ scheduledTime chain_second = scheduledTime chain_first + 86400000.
Proof.
  destruct (chain_records_anchor_on_their_own_time
              [chain_first; chain_second] example_chain) as [Hown Hnext].
  split; [exact Hown|].
  destruct (Hnext 0%nat chain_first chain_second eq_refl eq_refl)
    as (pattern & Hp & _ & Hall).
  injection Hp as <-. split; [|reflexivity].
  apply Hall. exists chain_first. split; [now left|]. split; reflexivity.
Defined.

(** ** Two evaluation passes in a row *)

Lemma marks_only_refl w : marks_only w w.
Proof. split; auto. Qed.

Lemma marks_only_trans a b c : marks_only a b -> marks_only b c -> marks_only a c.
Proof.
  intros [N1 H1] [N2 H2]. split; [congruence|].
  intros key r Hr. destruct (H1 key r Hr) as [E|E]; destruct (H2 key _ E); auto.
Qed.

Lemma marks_only_quiet w w' : quiet w w' -> marks_only w w'.
Proof. intros (E & N & _). split; [exact N|]. rewrite E. auto. Qed.

Lemma marks_only_add w v :
  Store.get (id v) (notifications w) = None ->
  marks_only w (with_notifications (Store.put v (notifications w)) w).
Proof.
  intros Hn. split; [reflexivity|]. intros key r Hr. left. simpl.
  rewrite get_put_other; [exact Hr|]. intros ->. congruence.
Qed.

Lemma marks_only_mark w n :
  Store.get (id n) (notifications w) = Some n ->
  marks_only w
    (with_notifications (Store.put (set_isTriggered true n) (notifications w)) w).
Proof.
  intros Hn. split; [reflexivity|]. intros key r Hr. simpl.
  destruct (String.eqb key (id n)) eqn:E.
  - apply String.eqb_eq in E. subst key. right.
    assert (r = n) as -> by congruence.
    apply (get_put_same (set_isTriggered true n)).
  - apply String.eqb_neq in E. left. now rewrite get_put_other.
Qed.

Lemma check_body_marks_only w :
  marks_only w (fst (Part000.checkAndTriggerNotifications_body w)).
Proof.
  apply (respects_check_body marks_only).
  - exact marks_only_refl.
  - exact marks_only_trans.
  - exact marks_only_quiet.
  - intros w0 v H _ _. now apply marks_only_add.
  - exact marks_only_mark.
Qed.

(** *** Loops that run to completion *)

Lemma for_of_establishes {A} (Inv : World -> Prop) (P : A -> World -> Prop)
    (body : A -> Async unit) :
  (forall x w, Inv w -> Inv (fst (body x w))) ->
  (forall x w w', Inv w -> body x w = (w', Resolved tt) -> P x w') ->
  (forall x y w, Inv w -> P x w -> P x (fst (body y w))) ->
  forall xs w w',
    Inv w -> for_of xs body w = (w', Resolved tt) ->
    Inv w' /\ forall x, In x xs -> P x w'.
Proof.
  intros Hinv Hest Hstable. induction xs as [|x xs IH]; intros w w' Hw E.
  - injection E as <-. split; [exact Hw|intros ? []].
  - simpl in E. unfold bind in E.
    destruct (body x w) as [w1 [[]|e|]] eqn:B; try discriminate.
    assert (Hw1 : Inv w1) by (specialize (Hinv x w Hw); now rewrite B in Hinv).
    assert (Px : P x w1) by exact (Hest x w w1 Hw B).
    destruct (IH w1 w' Hw1 E) as [Hw' Hall]. split; [exact Hw'|].
    intros y [<-|Hy]; [|now apply Hall].
    clear - Hinv Hstable Hw1 Px E. revert w1 Hw1 Px E.
    induction xs as [|z xs IHxs]; intros w1 Hw1 Px E.
    + now injection E as <-.
    + simpl in E. unfold bind in E.
      destruct (body z w1) as [w2 [[]|e|]] eqn:B; try discriminate.
      apply (IHxs w2); auto.
      * specialize (Hinv z w1 Hw1). now rewrite B in Hinv.
      * specialize (Hstable x z w1 Hw1 Px). now rewrite B in Hstable.
Qed.

Lemma for_of_resolves {A} (Inv : World -> Prop) (body : A -> Async unit) xs :
  (forall x, In x xs -> forall w, Inv w ->
     exists w', body x w = (w', Resolved tt) /\ Inv w') ->
  forall w, Inv w -> exists w', for_of xs body w = (w', Resolved tt) /\ Inv w'.
Proof.
  induction xs as [|x xs IH]; intros Hb w Hw.
  - exists w. split; [reflexivity|exact Hw].
  - destruct (Hb x (or_introl eq_refl) w Hw) as (w1 & B & Hw1).
    destruct (IH (fun y Hy => Hb y (or_intror Hy)) w1 Hw1) as (w2 & E & Hw2).
    exists w2. split; [|exact Hw2]. simpl. unfold bind. now rewrite B.
Qed.

Lemma showNotification_resolves t b ts ns o w :
  exists w', showNotification t b ts ns o w = (w', Resolved tt)
             /\ notifications w' = notifications w.
Proof.
  unfold showNotification, bind, requestNotificationPermission.
  destruct (permission w) eqn:P; simpl.
  - destruct (prompt_answer w); eexists; split; reflexivity.
  - eexists; split; reflexivity.
  - eexists; split; reflexivity.
Qed.

Lemma show_group_resolves g w :
  exists w', Part000.show_group g w = (w', Resolved tt)
             /\ notifications w' = notifications w.
Proof.
  unfold Part000.show_group. destruct g as [|n [|m g]];
    apply showNotification_resolves.
Qed.

Lemma stays_triggered_quiet key w w' : quiet w w' -> stays_triggered key w w'.
Proof. intros (E & _). now apply stays_triggered_store. Qed.

Lemma stays_triggered_add key w v :
  Store.get (id v) (notifications w) = None ->
  isTriggered v = false -> own_anchor v ->
  stays_triggered key w (with_notifications (Store.put v (notifications w)) w).
Proof. intros E _ _. apply stays_triggered_put. intros _ r Hr. congruence. Qed.

Lemma stays_triggered_mark key w n :
  Store.get (id n) (notifications w) = Some n ->
  stays_triggered key w
    (with_notifications (Store.put (set_isTriggered true n) (notifications w)) w).
Proof. intros _. apply stays_triggered_put. reflexivity. Qed.

Lemma trigger_stays key n : respects (stays_triggered key) (Part000.trigger n).
Proof.
  apply respects_trigger.
  - apply stays_triggered_refl.
  - apply stays_triggered_trans.
  - apply stays_triggered_quiet.
  - apply stays_triggered_add.
  - apply stays_triggered_mark.
Qed.

Lemma deliver_stays key g : respects (stays_triggered key) (deliver g).
Proof.
  unfold deliver. apply respects_then.
  - apply stays_triggered_trans.
  - apply respects_show_group.
    + apply stays_triggered_refl.
    + apply stays_triggered_trans.
    + apply stays_triggered_quiet.
  - intros _. apply respects_for_of.
    + apply stays_triggered_refl.
    + apply stays_triggered_trans.
    + intros n _. apply trigger_stays.
Qed.

Lemma trigger_establishes n w w' :
  wf w -> Part000.trigger n w = (w', Resolved tt) ->
  triggered_in (id n) (notifications w').
Proof.
  intros Hw. unfold Part000.trigger, bind at 1.
  unfold markNotificationTriggered, bind, store_get, store_put, reject. simpl.
  destruct (Store.get (id n) (notifications w)) as [found|] eqn:G; simpl;
    [|discriminate].
  set (wm := with_notifications _ w).
  set (k := if recurring n then _ else _).
  intros E.
  assert (Hwm : wf wm) by (unfold wf, wm; simpl; now apply ordered_put).
  assert (Hm : triggered_in (id n) (notifications wm)).
  { exists (set_isTriggered true found). split; [|reflexivity].
    unfold wm. simpl. apply get_id in G. rewrite <- G.
    apply (get_put_same (set_isTriggered true found)). }
  assert (Hk : stays_triggered (id n) wm (fst (k wm))).
  { unfold k. destruct (recurring n).
    - apply respects_scheduleRecurringNotification.
      + apply stays_triggered_refl.
      + apply stays_triggered_trans.
      + apply stays_triggered_quiet.
      + apply stays_triggered_add.
    - apply stays_triggered_refl. }
  rewrite E in Hk. simpl in Hk. now apply Hk.
Qed.

Lemma deliver_establishes g w w' :
  wf w -> deliver g w = (w', Resolved tt) ->
  forall n, In n g -> triggered_in (id n) (notifications w').
Proof.
  intros Hw. unfold deliver, bind.
  destruct (show_group_resolves g w) as (ws & -> & Es).
  intros E.
  apply (for_of_establishes wf (fun n w => triggered_in (id n) (notifications w))
           Part000.trigger) with (xs := g) (w := ws) (w' := w').
  - intros x w0 Hw0. now apply (trigger_stays "" x w0).
  - intros x w0 w0' Hw0. now apply trigger_establishes.
  - intros x y w0 Hw0 Hx. now apply (trigger_stays (id x) y w0).
  - unfold wf. now rewrite Es.
  - exact E.
Qed.

(** After a pass that ran to completion every record it found due is
    triggered. *)
Lemma completed_pass_triggers_the_due w w' :
  wf w ->
  Part000.checkAndTriggerNotifications_body w = (w', Resolved tt) ->
  wf w' /\ forall n, In n (due_in w) -> triggered_in (id n) (notifications w').
Proof.
  intros Hw. unfold Part000.checkAndTriggerNotifications_body,
    getScheduledNotifications, Date_now, bind. simpl.
  fold (due_in w).
  destruct (List.length (due_in w) =? 0)%nat eqn:L.
  - intros [= <-]. split; [exact Hw|].
    apply Nat.eqb_eq in L. destruct (due_in w); [intros ? []|discriminate].
  - intros E.
    change (for_of (groupNotificationsByTimeAndPriority (due_in w) (3 * 60 * 1000))
              deliver w = (w', Resolved tt)) in E.
    destruct (for_of_establishes wf
                (fun g w => forall n, In n g -> triggered_in (id n) (notifications w))
                deliver) with (5 := E) as [Hw' Hall]; auto.
    + intros g w0 Hw0. now apply (deliver_stays "" g w0).
    + intros g w0 w0' Hw0. now apply deliver_establishes.
    + intros g y w0 Hw0 Hg n Hn. now apply (deliver_stays (id n) y w0), Hg.
    + split; [exact Hw'|]. intros n Hn.
      assert (In n (List.concat
                (groupNotificationsByTimeAndPriority (due_in w) (3 * 60 * 1000)))) as Hc.
      { rewrite grouping_walk.
        pose proof (array_sort_perm compareNotifications (due_in w)) as HP.
        destruct (array_sort compareNotifications (due_in w)) as [|a rest] eqn:S.
        - apply Permutation_sym, Permutation_nil in HP. rewrite HP in Hn. destruct Hn.
        - rewrite walk_concat. eapply Permutation_in; [exact HP|exact Hn]. }
      apply in_concat in Hc. destruct Hc as (g & Hg & Hng). now apply (Hall g).
Qed.

Lemma get_put_none key v s :
  key <> id v -> Store.get key s = None -> Store.get key (Store.put v s) = None.
Proof. intros Hk Hn. now rewrite get_put_other. Qed.

Lemma mark_resolves key w :
  Store.get key (notifications w) <> None ->
  exists w', markNotificationTriggered key w = (w', Resolved tt)
             /\ same_keys (notifications w) (notifications w').
Proof.
  intros H. unfold markNotificationTriggered, bind, store_get, store_put. simpl.
  destruct (Store.get key (notifications w)) as [n|] eqn:G; [|congruence].
  eexists. split; [reflexivity|]. simpl. intros k.
  apply get_id in G as Hid.
  destruct (String.eqb k key) eqn:E.
  - apply String.eqb_eq in E. subst k. rewrite G, <- Hid.
    rewrite (get_put_same (set_isTriggered true n)). split; discriminate.
  - apply String.eqb_neq in E. rewrite get_put_other; [reflexivity|].
    simpl. congruence.
Qed.

Lemma pass_without_recurrence w :
  (forall n, In n (due_in w) -> recurring n = false) ->
  exists w',
    Part000.checkAndTriggerNotifications_body w = (w', Resolved tt)
    /\ same_keys (notifications w) (notifications w').
Proof.
  intros Hnr. unfold Part000.checkAndTriggerNotifications_body,
    getScheduledNotifications, Date_now, bind. simpl. fold (due_in w).
  destruct (List.length (due_in w) =? 0)%nat.
  { exists w. split; [reflexivity|]. intros k; reflexivity. }
  set (groups := groupNotificationsByTimeAndPriority _ _).
  assert (Hin : forall g n, In g groups -> In n g -> In n (due_in w)).
  { intros g n Hg Hn.
    assert (In n (List.concat groups)) as Hc by (apply in_concat; eauto).
    unfold groups in Hc. rewrite grouping_walk in Hc.
    pose proof (array_sort_perm compareNotifications (due_in w)) as HP.
    destruct (array_sort compareNotifications (due_in w)) as [|a rest];
      [destruct Hc|].
    rewrite walk_concat in Hc.
    eapply Permutation_in; [symmetry; exact HP|exact Hc]. }
  apply (for_of_resolves
           (fun w0 => same_keys (notifications w) (notifications w0))).
  2: { intros k; reflexivity. }
  intros g Hg w0 Hw0. unfold bind.
  destruct (show_group_resolves g w0) as (ws & -> & Es).
  apply (for_of_resolves
           (fun w1 => same_keys (notifications w) (notifications w1))).
  2: { now rewrite Es. }
  intros n Hn w1 Hw1. unfold Part000.trigger, bind.
  assert (Hd : In n (due_in w)) by eauto.
  destruct (mark_resolves (id n) w1) as (w2 & -> & Hk).
  - intros Hnone. apply Hw1 in Hnone.
    apply filter_In in Hd. destruct Hd as [Hd _].
    apply In_get_some in Hd. contradiction.
  - specialize (Hnr n Hd). rewrite Hnr.
    exists w2. split; [reflexivity|].
    intros k. rewrite (Hw1 k). apply Hk.
Qed.

Lemma showNotification_keeps t b ts ns o w :
  exists w', showNotification t b ts ns o w = (w', Resolved tt)
             /\ notifications w' = notifications w
             /\ uuids w' = uuids w /\ uuid_count w' = uuid_count w.
Proof.
  unfold showNotification, bind, requestNotificationPermission.
  destruct (permission w) eqn:P; simpl.
  - destruct (prompt_answer w); eexists; repeat split.
  - eexists; repeat split.
  - eexists; repeat split.
Qed.

Lemma fresh_uuids_put w v :
  fresh_uuids w -> id v = uuids w (uuid_count w) ->
  fresh_uuids (with_notifications (Store.put v (notifications w))
                 (with_uuid_count (S (uuid_count w)) w)).
Proof.
  intros [Hnew Hdiff] Hid. split; simpl.
  - intros i Hi. rewrite get_put_other; [apply Hnew; lia|].
    rewrite Hid. intros E. symmetry in E. revert E. apply Hdiff; lia.
  - intros i j Hi Hj. apply Hdiff; lia.
Qed.

Lemma fresh_uuids_same_keys w s :
  fresh_uuids w -> same_keys (notifications w) s ->
  fresh_uuids (with_notifications s w).
Proof.
  intros [Hnew Hdiff] Hk. split; simpl; [|exact Hdiff].
  intros i Hi. apply Hk. now apply Hnew.
Qed.

Lemma trigger_resolves n w :
  fresh_uuids w -> Store.get (id n) (notifications w) <> None ->
  exists w', Part000.trigger n w = (w', Resolved tt)
    /\ fresh_uuids w'
    /\ forall key, Store.get key (notifications w) <> None ->
                   Store.get key (notifications w') <> None.
Proof.
  intros Hf Hn. unfold Part000.trigger, bind.
  unfold markNotificationTriggered, bind, store_get, store_put. simpl.
  destruct (Store.get (id n) (notifications w)) as [found|] eqn:G; [|congruence].
  simpl. set (wm := with_notifications _ w).
  assert (Hk : same_keys (notifications w) (notifications wm)).
  { intros k. unfold wm. simpl. apply get_id in G as Hid.
    destruct (String.eqb k (id n)) eqn:E.
    - apply String.eqb_eq in E. subst k. rewrite G, <- Hid.
      rewrite (get_put_same (set_isTriggered true found)). split; discriminate.
    - apply String.eqb_neq in E. rewrite get_put_other; [reflexivity|].
      simpl. congruence. }
  assert (Hfm : fresh_uuids wm) by now apply fresh_uuids_same_keys.
  destruct (recurring n).
  - unfold scheduleRecurringNotification.
    destruct (recurringPattern n) as [pattern|].
    + unfold bind. rewrite scheduleNotification_fresh
        by (apply Hfm; apply Nat.le_refl).
      eexists. split; [reflexivity|]. split.
      * apply (fresh_uuids_put wm); [exact Hfm|reflexivity].
      * intros key Hkey. simpl.
        match goal with |- context [Store.put ?v _] => set (v0 := v) end.
        destruct (String.eqb key (id v0)) eqn:E.
        -- apply String.eqb_eq in E. subst key. rewrite get_put_same. discriminate.
        -- apply String.eqb_neq in E. rewrite get_put_other by assumption.
           intros Hnone. apply Hk in Hnone. contradiction.
    + exists wm. split; [reflexivity|]. split; [exact Hfm|].
      intros key Hkey Hnone. apply Hk in Hnone. contradiction.
  - exists wm. split; [reflexivity|]. split; [exact Hfm|].
    intros key Hkey Hnone. apply Hk in Hnone. contradiction.
Qed.

(** With fresh identifiers to come, a pass of the first evaluator runs to
    its end. *)
Lemma fresh_uuids_pass_completes w :
  fresh_uuids w ->
  snd (Part000.checkAndTriggerNotifications_body w) = Resolved tt.
Proof.
  intros Hf. unfold Part000.checkAndTriggerNotifications_body,
    getScheduledNotifications, Date_now, bind. simpl. fold (due_in w).
  destruct (List.length (due_in w) =? 0)%nat; [reflexivity|].
  set (groups := groupNotificationsByTimeAndPriority _ _).
  assert (Hin : forall g n, In g groups -> In n g -> In n (notifications w)).
  { intros g n Hg Hn.
    assert (In n (List.concat groups)) as Hc by (apply in_concat; eauto).
    unfold groups in Hc. rewrite grouping_concat in Hc.
    eapply Permutation_in in Hc; [|symmetry; apply array_sort_perm].
    unfold due_in in Hc. apply filter_In in Hc. tauto. }
  set (Inv := fun w0 => fresh_uuids w0
                /\ forall n, In n (notifications w) ->
                             Store.get (id n) (notifications w0) <> None).
  change (snd (for_of groups deliver w) = Resolved tt).
  destruct (for_of_resolves Inv deliver groups) with (w := w) as (w' & E & _).
  - intros g Hg w0 [Hf0 Hk0]. unfold deliver, bind.
    assert (Hs : exists ws, Part000.show_group g w0 = (ws, Resolved tt) /\ Inv ws).
    { unfold Part000.show_group.
      destruct g as [|n [|m g']];
        match goal with |- context [showNotification ?t ?b ?ts ?ns ?o w0] =>
          destruct (showNotification_keeps t b ts ns o w0)
            as (ws & Es & En & Eu & Ec) end;
        (exists ws; split; [exact Es|]; split;
         [destruct Hf0 as [H1 H2]; split;
          [intros i Hi; rewrite En, Eu; apply H1; now rewrite <- Ec
          |intros i j Hi Hj; rewrite Eu; apply H2; [now rewrite <- Ec|exact Hj]]
         |intros n0 Hn0; rewrite En; now apply Hk0]). }
    destruct Hs as (ws & -> & Hws).
    apply (for_of_resolves Inv); [|exact Hws].
    intros n Hn w1 [Hf1 Hk1].
    destruct (trigger_resolves n w1 Hf1) as (w2 & E2 & Hf2 & Hk2).
    + apply Hk1. eauto.
    + exists w2. split; [exact E2|]. split; [exact Hf2|].
      intros n0 Hn0. apply Hk2. now apply Hk1.
  - split; [exact Hf|]. intros n Hn. now apply In_get_some.
  - rewrite E. reflexivity.
Qed.

(** C4, amended.  Two passes of the evaluator in immediate succession, on a
    store with distinct keys.  The clock reads the same in both.  When the
    first pass ran to its end, every record the second pass finds due and
    untriggered is one the first pass added: no record that was in the store
    before the first pass is found again; and the first pass runs to its end
    whenever the identifiers still to come are fresh.  When none of the
    notifications due in the first pass is recurring, the second pass finds
    nothing due and presents nothing. *)
Theorem second_pass_finds_only_new_follow_ups :
  forall w, wf w ->
    let w1 := fst (Part000.checkAndTriggerNotifications w) in
    let w2 := fst (Part000.checkAndTriggerNotifications w1) in
    now w1 = now w
    /\ (snd (Part000.checkAndTriggerNotifications_body w) = Resolved tt ->
        forall n, In n (due_in w1) -> Store.get (id n) (notifications w) = None)
    /\ (fresh_uuids w ->
        snd (Part000.checkAndTriggerNotifications_body w) = Resolved tt)
    /\ ((forall n, In n (due_in w) -> recurring n = false) ->
        due_in w1 = [] /\ shown w2 = shown w1).
Proof.
  intros w Hw w1 w2.
  assert (Hnow : now w1 = now w).
  { apply (respects_check000 marks_only).
    - exact marks_only_refl.
    - exact marks_only_trans.
    - exact marks_only_quiet.
    - intros w0 v H _ _. now apply marks_only_add.
    - exact marks_only_mark. }
  assert (Hnew : snd (Part000.checkAndTriggerNotifications_body w) = Resolved tt ->
            forall n, In n (due_in w1) -> Store.get (id n) (notifications w) = None).
  { intros Hres n Hn.
    destruct (Part000.checkAndTriggerNotifications_body w) as [wb o] eqn:B.
    simpl in Hres. subst o.
    assert (w1 = wb) as Ew
      by (unfold w1, Part000.checkAndTriggerNotifications, try_catch; now rewrite B).
    destruct (completed_pass_triggers_the_due w wb Hw B) as [Hwb Htr].
    pose proof (check_body_marks_only w) as [_ Hm]. rewrite B in Hm. simpl in Hm.
    rewrite Ew in Hn. unfold due_in in Hn. apply filter_In in Hn.
    destruct Hn as [Hin Hdue].
    assert (Hgn : Store.get (id n) (notifications wb) = Some n)
      by now apply ordered_get.
    destruct (Store.get (id n) (notifications w)) as [r|] eqn:G; [|reflexivity].
    exfalso. unfold is_due in Hdue. apply andb_true_iff in Hdue.
    destruct Hdue as [Hunt Htime].
    destruct (Hm _ _ G) as [E|E]; rewrite Hgn in E; injection E as ->.
    - assert (In r (due_in w)) as Hd.
      { apply filter_In. split; [eapply get_In; eauto|].
        unfold is_due. rewrite Hunt. simpl. rewrite <- Ew, Hnow in Htime. exact Htime. }
      destruct (Htr r Hd) as (x & Hx & Ht). rewrite Hgn in Hx.
      injection Hx as <-. rewrite Ht in Hunt. discriminate.
    - discriminate. }
  split; [exact Hnow|]. split; [exact Hnew|].
  split; [apply fresh_uuids_pass_completes|].
  intros Hnr. destruct (pass_without_recurrence w Hnr) as (wb & B & Hk).
  assert (w1 = wb) as Ew
    by (unfold w1, Part000.checkAndTriggerNotifications, try_catch; now rewrite B).
  assert (Hempty : due_in w1 = []).
  { assert (Hno : forall n, In n (due_in w1) -> False).
    { intros n Hn.
      assert (Hres : snd (Part000.checkAndTriggerNotifications_body w) = Resolved tt)
        by now rewrite B.
      specialize (Hnew Hres n Hn). apply Hk in Hnew.
      unfold due_in in Hn. apply filter_In in Hn. destruct Hn as [Hin _].
      rewrite Ew in Hin. apply In_get_some in Hin. contradiction. }
    destruct (due_in w1) as [|n l]; [reflexivity|].
    exfalso. apply (Hno n). now left. }
  split; [exact Hempty|].
  unfold w2, Part000.checkAndTriggerNotifications, try_catch,
    Part000.checkAndTriggerNotifications_body, getScheduledNotifications,
    Date_now, bind. simpl.
  fold (due_in w1). rewrite Hempty. reflexivity.
Qed.

(** C4, counterexample.  In [late_world] the first pass delivers "b" and
    adds its successor "c", due a day after "b" and so already due; the
    second pass, at the same clock reading, finds "c" and presents it. *)
Lemma second_pass_presents_the_follow_up :
  let w1 := run OpEvaluate000 late_world in
  let w2 := run OpEvaluate000 w1 in
  now w1 = now late_world
  /\ map id (due_in w1) = ["c"]
  /\ map shown_notificationIds (shown w1) = [["b"]]
  /\ map shown_notificationIds (shown w2) = [["b"]; ["c"]].
Proof. repeat split. Qed.

Lemma unary_uuid_length k : String.length (unary_uuid k) = S k.
Proof. induction k as [|k IH]; simpl; [reflexivity|now rewrite IH]. Qed.

Lemma unary_world_fresh : fresh_uuids unary_world.
Proof.
  split; simpl.
  - intros i _. destruct i; reflexivity.
  - intros i j _ Hlt E. apply (f_equal String.length) in E.
    rewrite !unary_uuid_length in E. lia.
Qed.

(** The late daily reminder, the same with identifiers that never repeat,
    and a single reminder that does not recur. *)
Lemma second_pass_witness :
  (forall n, In n (due_in (run OpEvaluate000 late_world)) ->
     Store.get (id n) (notifications late_world) = None)
  /\ snd (Part000.checkAndTriggerNotifications_body unary_world) = Resolved tt
  /\ due_in (run OpEvaluate000 (example_world [example_notification "a" 1000] [] 5000))
     = [].
Proof.
  split; [|split].
  - apply (second_pass_finds_only_new_follow_ups late_world); reflexivity.
  - apply (second_pass_finds_only_new_follow_ups unary_world);
      [reflexivity|exact unary_world_fresh].
  - apply (second_pass_finds_only_new_follow_ups
             (example_world [example_notification "a" 1000] [] 5000)).
    + reflexivity.
    + intros n [<-|[]]. reflexivity.
Defined.

(** ** The triggered flag *)

Lemma run_wf op w : wf w -> wf (run op w).
Proof.
  intros Hw. destruct op;
    try (apply (run_stays_triggered "" _ w); [discriminate|exact Hw]).
  simpl. unfold wf. simpl. now apply ordered_delete.
Qed.

(** C5.  [scheduleNotification] makes its record with [isTriggered] false;
    [markNotificationTriggered] sets it to true; and no operation of the
    subsystem takes a stored record from true back to false: after any one
    operation a record that was triggered is, if it is still stored,
    triggered, and through any sequence of operations that does not delete
    it, it stays stored and triggered. *)
Theorem isTriggered_only_goes_from_false_to_true :
  (forall task t b time options w w' n,
     scheduleNotification task t b time options w = (w', Resolved n) ->
     isTriggered n = false /\ Store.get (id n) (notifications w') = Some n)
  /\ (forall key w n,
        Store.get key (notifications w) = Some n ->
        exists w',
          markNotificationTriggered key w = (w', Resolved tt)
          /\ Store.get key (notifications w') = Some (set_isTriggered true n))
  /\ (forall op w key r r',
        wf w ->
        Store.get key (notifications w) = Some r -> isTriggered r = true ->
        Store.get key (notifications (run op w)) = Some r' ->
        isTriggered r' = true)
  /\ (forall ops w key r,
        wf w ->
        Store.get key (notifications w) = Some r -> isTriggered r = true ->
        ~ In (OpDelete key) ops ->
        exists r',
          Store.get key (notifications (run_all ops w)) = Some r'
          /\ isTriggered r' = true).
Proof.
  split; [|split; [|split]].
  - intros task t b time options w w' n E.
    destruct (Store.get (uuids w (uuid_count w)) (notifications w)) eqn:G.
    + rewrite scheduleNotification_taken in E by congruence. discriminate.
    + rewrite scheduleNotification_fresh in E by assumption.
      injection E as <- <-. split; [reflexivity|]. simpl.
      match goal with |- context [Store.put ?v _] => apply (get_put_same v) end.
  - intros key w n G. unfold markNotificationTriggered, bind, store_get, store_put.
    simpl. rewrite G. eexists. split; [reflexivity|]. simpl.
    apply get_id in G. rewrite <- G.
    apply (get_put_same (set_isTriggered true n)).
  - intros op w key r r' Hw G Ht G'.
    assert (Hop : op = OpDelete key \/ op <> OpDelete key).
    { destruct op; try (right; discriminate).
      destruct (string_dec key0 key) as [->|N]; [now left|right; congruence]. }
    destruct Hop as [->|Hop].
    + simpl in G'. rewrite get_delete, String.eqb_refl in G'. discriminate.
    + destruct (run_stays_triggered key op w Hop Hw) as [_ H].
      destruct H as (x & Hx & Htx); [now exists r|]. congruence.
  - intros ops. induction ops as [|op ops IH]; intros w key r Hw G Ht Hno.
    + exists r. auto.
    + simpl.
      assert (Hop : op <> OpDelete key) by (intros ->; apply Hno; now left).
      destruct (run_stays_triggered key op w Hop Hw) as [Hw' H].
      destruct H as (x & Hx & Htx); [now exists r|].
      apply (IH (run op w) key x); auto.
      intros Hin. apply Hno. now right.
Qed.

(** A delivered record through a snooze, both evaluators, a new reminder, a
    start of the scheduler and the deletion of another record. *)
Lemma isTriggered_witness :
  exists r',
    Store.get "a"
      (notifications
         (run_all [OpSnooze "task-1" 10; OpElapse 700000; OpEvaluate000;
                   OpTaskReminder 2 "task-1" "water the plants" 900000 false None None;
                   OpStart001; OpDelete "b"; OpEvaluate001]
            (example_world [delivered_notification] [plants] 2000))) = Some r'
    /\ isTriggered r' = true.
Proof.
  apply (proj2 (proj2 (proj2 isTriggered_only_goes_from_false_to_true))
           _ _ "a" delivered_notification).
  - reflexivity.
  - reflexivity.
  - reflexivity.
  - simpl. intros H.
    repeat (destruct H as [H|H]; [discriminate H|]). exact H.
Defined.

(** ** The snooze in the ordinary case *)

Lemma find_put_fresh (p : ScheduledNotification -> bool) v s :
  (forall n, In n s -> p n = false) -> p v = true ->
  find p (Store.put v s) = Some v.
Proof.
  intros Hs Hv. induction s as [|n s IH]; simpl.
  - now rewrite Hv.
  - destruct (String.compare (id v) (id n)); simpl.
    + now rewrite Hv.
    + now rewrite Hv.
    + rewrite (Hs n) by now left. apply IH. intros m Hm. apply Hs. now right.
Qed.

(** When no record of the task is already scheduled for the new time, the
    snooze stores a record with the count raised by one, due [minutes]
    minutes from now, titled after the new count and of high priority once
    the new count exceeds 2. *)
Lemma snooze_ordinary_case :
  forall task minutes w found,
    find (fun t => String.eqb (Task.id t) task) (tasks w) = Some found ->
    Store.get (uuids w (uuid_count w)) (notifications w) = None ->
    (forall n, In n (notifications w) ->
       String.eqb (taskId n) task
       && (scheduledTime n =? now w + minutes * 60 * 1000) = false) ->
    let k :=
      or_default
        (truthy_number
           (opt (find (fun n => String.eqb (taskId n) task && negb (isTriggered n))
                      (notifications w)) snoozeCount)) 0 in
    exists w' r,
      snoozeNotification task minutes w = (w', Resolved tt)
      /\ Store.get (uuids w (uuid_count w)) (notifications w') = Some r
      /\ snoozeCount r = Some (k + 1)
      /\ scheduledTime r = now w + minutes * 60000
      /\ title r = (if 1 <? k + 1
                    then ("Snoozed Task (" ++ number_to_string (k + 1) ++ "x)")%string
                    else "Snoozed Task Reminder")
      /\ priority r = Some (if 2 <? k + 1 then high else normal)
      /\ isTriggered r = false.
Proof.
  intros task minutes w found Hf Hfresh Hclash k.
  unfold snoozeNotification, try_catch.
  unfold bind at 1, getTasks. simpl. rewrite Hf.
  unfold bind at 1, getScheduledNotifications at 1. simpl.
  unfold bind at 1, Date_now. simpl. unfold bind at 1.
  rewrite scheduleNotification_fresh by assumption.
  match goal with |- context [Store.put ?v _] => set (v0 := v) end.
  unfold bind, getScheduledNotifications. simpl.
  rewrite find_put_fresh.
  - simpl. eexists. exists (set_snoozeCount (k + 1) v0).
    split; [reflexivity|]. simpl.
    split; [apply (get_put_same (set_snoozeCount (k + 1) v0))|].
    repeat split. lia.
  - exact Hclash.
  - simpl. rewrite String.eqb_refl, Z.eqb_refl. reflexivity.
Qed.

(** A first snooze of one hour. *)
Lemma snooze_ordinary_witness :
  exists w' r,
    snoozeNotification "task-1" 60 (example_world [example_notification "a" 1000] [plants] 0)
    = (w', Resolved tt)
    /\ Store.get "b" (notifications w') = Some r
    /\ snoozeCount r = Some 1
    /\ scheduledTime r = 3600000
    /\ title r = "Snoozed Task Reminder"
    /\ priority r = Some normal
    /\ isTriggered r = false.
Proof.
  apply (snooze_ordinary_case "task-1" 60
           (example_world [example_notification "a" 1000] [plants] 0) plants).
  - reflexivity.
  - reflexivity.
  - intros n [<-|[]]. reflexivity.
Defined.

(** ** The steps of a recurrence *)

Lemma yoe_bounds doe :
  0 <= doe < 146097 ->
  let yoe := (doe - doe / 1460 + doe / 36524 - doe / 146096) / 365 in
  let doy := doe - (365 * yoe + yoe / 4 - yoe / 100) in
  0 <= yoe <= 399 /\ 0 <= doy <= 365.
Proof.
  intros H yoe doy. subst yoe doy.
  Z.div_mod_to_equations. lia.
Qed.

(** The calendar date of a day number is a date, and it is the date of that
    day. *)
Lemma civil_from_days_spec z :
  let '(y, m, d) := JSDate.civil_from_days z in
  1 <= m <= 12 /\ 1 <= d <= 31 /\ JSDate.days_from_civil y m d = z.
Proof.
  unfold JSDate.civil_from_days, JSDate.days_from_civil.
  set (z' := z + 719468).
  set (era := z' / 146097).
  set (doe := z' - era * 146097).
  assert (Hdoe : 0 <= doe < 146097).
  { subst doe era. Z.div_mod_to_equations. lia. }
  pose proof (yoe_bounds doe Hdoe) as Hy. cbv zeta in Hy.
  set (yoe := (doe - doe / 1460 + doe / 36524 - doe / 146096) / 365) in *.
  set (doy := doe - (365 * yoe + yoe / 4 - yoe / 100)) in *.
  destruct Hy as [Hyoe Hdoy].
  set (mp := (5 * doy + 2) / 153).
  assert (Hmp : 0 <= mp <= 11) by (subst mp; Z.div_mod_to_equations; lia).
  destruct (mp <? 10) eqn:Hlt.
  - apply Z.ltb_lt in Hlt.
    replace (mp + 3 <=? 2) with false by (symmetry; apply Z.leb_gt; lia).
    replace (2 <? mp + 3) with true by (symmetry; apply Z.ltb_lt; lia).
    replace (mp + 3 - 3) with mp by lia.
    repeat split; try lia.
    + subst mp. Z.div_mod_to_equations. lia.
    + subst mp. Z.div_mod_to_equations. lia.
    + replace ((yoe + era * 400) / 400) with era
        by (Z.div_mod_to_equations; lia).
      replace (yoe + era * 400 - era * 400) with yoe by lia.
      subst doy. lia.
  - apply Z.ltb_ge in Hlt.
    replace (mp - 9 <=? 2) with true by (symmetry; apply Z.leb_le; lia).
    replace (2 <? mp - 9) with false by (symmetry; apply Z.ltb_ge; lia).
    replace (mp - 9 + 9) with mp by lia.
    replace (yoe + era * 400 + 1 - 1) with (yoe + era * 400) by lia.
    repeat split; try lia.
    + subst mp. Z.div_mod_to_equations. lia.
    + subst mp. Z.div_mod_to_equations. lia.
    + replace ((yoe + era * 400) / 400) with era
        by (Z.div_mod_to_equations; lia).
      replace (yoe + era * 400 - era * 400) with yoe by lia.
      subst doy. lia.
Qed.

Lemma days_from_civil_day y m d :
  JSDate.days_from_civil y m d = JSDate.days_from_civil y m 1 + d - 1.
Proof. unfold JSDate.days_from_civil. lia. Qed.

(** The first of the next month comes 28 to 31 days after the first of
    this one. *)
Lemma month_length y m :
  1 <= m <= 12 ->
  28 <= JSDate.days_from_civil (y + m / 12) (m mod 12 + 1) 1
        - JSDate.days_from_civil y m 1 <= 31.
Proof.
  intros Hm.
  assert (Hc : m = 1 \/ m = 2 \/ m = 3 \/ m = 4 \/ m = 5 \/ m = 6 \/ m = 7
               \/ m = 8 \/ m = 9 \/ m = 10 \/ m = 11 \/ m = 12) by lia.
  unfold JSDate.days_from_civil.
  repeat (destruct Hc as [-> | Hc]); [ .. | subst m ];
    cbn; Z.div_mod_to_equations; lia.
Qed.

Section FixedOffset.
Variable tza : Z -> bool -> Z.
Variable offset : Z.
Hypothesis fixed : forall t b, tza t b = offset.

Lemma setDate_fixed t k :
  JSDate.setDate tza t (JSDate.getDate tza t + k) = t + k * 86400000.
Proof.
  unfold JSDate.setDate, JSDate.getDate, JSDate.LocalTime, JSDate.UTC,
    JSDate.YearFromTime, JSDate.MonthFromTime, JSDate.DateFromTime,
    JSDate.MakeDate, JSDate.MakeDay.
  rewrite !fixed.
  pose proof (civil_from_days_spec (JSDate.Day (t + offset))) as H.
  destruct (JSDate.civil_from_days (JSDate.Day (t + offset))) as [[y m] d].
  destruct H as (Hm & Hd & Hr). cbn [fst snd].
  replace ((m - 1) / 12) with 0 by (Z.div_mod_to_equations; lia).
  replace ((m - 1) mod 12 + 1) with m by (Z.div_mod_to_equations; lia).
  rewrite Z.add_0_r.
  rewrite (days_from_civil_day y m d) in Hr.
  unfold JSDate.TimeWithinDay, JSDate.Day, JSDate.msPerDay in *.
  Z.div_mod_to_equations. lia.
Qed.

Lemma setMonth_fixed t :
  exists n, 28 <= n <= 31 /\
    JSDate.setMonth tza t (JSDate.getMonth tza t + 1) = t + n * 86400000.
Proof.
  unfold JSDate.setMonth, JSDate.getMonth, JSDate.LocalTime, JSDate.UTC,
    JSDate.YearFromTime, JSDate.MonthFromTime, JSDate.DateFromTime,
    JSDate.MakeDate, JSDate.MakeDay.
  rewrite !fixed.
  pose proof (civil_from_days_spec (JSDate.Day (t + offset))) as H.
  destruct (JSDate.civil_from_days (JSDate.Day (t + offset))) as [[y m] d].
  destruct H as (Hm & Hd & Hr). cbn [fst snd].
  replace (m - 1 + 1) with m by lia.
  pose proof (month_length y m Hm) as Hl.
  exists (JSDate.days_from_civil (y + m / 12) (m mod 12 + 1) 1
          - JSDate.days_from_civil y m 1).
  split; [exact Hl|].
  rewrite (days_from_civil_day y m d) in Hr.
  unfold JSDate.TimeWithinDay, JSDate.Day, JSDate.msPerDay in *.
  set (a := JSDate.days_from_civil (y + m / 12) (m mod 12 + 1) 1) in *.
  set (b := JSDate.days_from_civil y m 1) in *.
  clearbody a b.
  Z.div_mod_to_equations. lia.
Qed.

Lemma advance_date_fixed pattern t :
  match pattern with
  | daily => advance_date tza pattern t = t + 86400000
  | weekly => advance_date tza pattern t = t + 604800000
  | monthly => exists n, 28 <= n <= 31
                 /\ advance_date tza pattern t = t + n * 86400000
  end.
Proof.
  destruct pattern; cbn [advance_date].
  - rewrite setDate_fixed. lia.
  - rewrite setDate_fixed. lia.
  - apply setMonth_fixed.
Qed.
End FixedOffset.

Lemma advance_date_later tza offset pattern t :
  (forall t b, tza t b = offset) -> t < advance_date tza pattern t.
Proof.
  intros Hf. pose proof (advance_date_fixed tza offset Hf pattern t) as H.
  destruct pattern; [lia|lia|].
  destruct H as (n & Hn & ->). lia.
Qed.


Lemma advance_date_a_day_later tza offset pattern t :
  (forall t' b, tza t' b = offset) -> t + 86400000 <= advance_date tza pattern t.
Proof.
  intros Hf. pose proof (advance_date_fixed tza offset Hf pattern t) as H.
  destruct pattern; [lia|lia|].
  destruct H as (n & Hn & ->). lia.
Qed.

Lemma iter_advance_later tza offset pattern k : forall t,
  (forall t' b, tza t' b = offset) ->
  t + Z.of_nat k * 86400000 <= Nat.iter k (advance_date tza pattern) t.
Proof.
  induction k as [|k IH]; intros t Hf; [simpl; lia|].
  change (Nat.iter (S k) (advance_date tza pattern) t)
    with (advance_date tza pattern (Nat.iter k (advance_date tza pattern) t)).
  specialize (IH t Hf).
  pose proof (advance_date_a_day_later tza offset pattern
                (Nat.iter k (advance_date tza pattern) t) Hf). lia.
Qed.


(** In a zone whose offset from UTC does not change, the date arithmetic
    of the recurrence and of the repeating reminder moves a time by exactly
    one day for [daily], by exactly seven days for [weekly], and by the
    length of the current month, 28 to 31 days, for [monthly]. *)
Theorem recurrence_steps_in_a_fixed_offset_zone :
  forall tza offset t,
    (forall t' b, tza t' b = offset) ->
    advance_date tza daily t = t + 86400000
    /\ advance_date tza weekly t = t + 7 * 86400000
    /\ exists days,
         28 <= days <= 31
         /\ advance_date tza monthly t = t + days * 86400000.
Proof.
  intros tza offset t Hf.
  pose proof (advance_date_fixed tza offset Hf daily t) as Hd.
  pose proof (advance_date_fixed tza offset Hf weekly t) as Hw.
  pose proof (advance_date_fixed tza offset Hf monthly t) as Hm.
  cbv iota in Hd, Hw, Hm. rewrite Hd, Hw. repeat split; try lia. exact Hm.
Qed.

Lemma recurrence_steps_witness :
  advance_date kolkata daily 1000 = 86401000
  /\ advance_date kolkata weekly 1000 = 604801000.
Proof.
  destruct (recurrence_steps_in_a_fixed_offset_zone kolkata 19800000 1000
              (fun _ _ => eq_refl)) as (D & W & _).
  split; [exact D|exact W].
Defined.

Lemma yoe_back yoe doy :
  0 <= yoe <= 399 -> 0 <= doy <= 364 ->
  let doe := yoe * 365 + yoe / 4 - yoe / 100 + doy in
  0 <= doe < 146097
  /\ (doe - doe / 1460 + doe / 36524 - doe / 146096) / 365 = yoe.
Proof.
  intros Hy Hd doe. subst doe.
  Z.div_mod_to_equations. lia.
Qed.

(** The day number of a date up to the 28th of a month is the day number of
    that date. *)
Lemma civil_from_days_from_civil y m d :
  1 <= m <= 12 -> 1 <= d <= 28 ->
  JSDate.civil_from_days (JSDate.days_from_civil y m d) = (y, m, d).
Proof.
  intros Hm Hd. unfold JSDate.days_from_civil.
  set (y0 := if m <=? 2 then y - 1 else y).
  set (era := y0 / 400).
  set (yoe := y0 - era * 400).
  set (mp := if 2 <? m then m - 3 else m + 9).
  set (doy := (153 * mp + 2) / 5 + d - 1).
  assert (Hyoe : 0 <= yoe <= 399) by (subst yoe era; Z.div_mod_to_equations; lia).
  assert (Hmp : 0 <= mp <= 11) by (subst mp; destruct (2 <? m) eqn:E;
    [apply Z.ltb_lt in E|apply Z.ltb_ge in E]; lia).
  assert (Hdoy : 0 <= doy <= 364) by (subst doy; Z.div_mod_to_equations; lia).
  destruct (yoe_back yoe doy Hyoe Hdoy) as [Hdoe Hback]. cbv zeta in Hdoe, Hback.
  set (doe := yoe * 365 + yoe / 4 - yoe / 100 + doy) in *.
  unfold JSDate.civil_from_days.
  replace (era * 146097 + doe - 719468 + 719468) with (era * 146097 + doe) by lia.
  replace ((era * 146097 + doe) / 146097) with era
    by (Z.div_mod_to_equations; lia).
  replace (era * 146097 + doe - era * 146097) with doe by lia.
  rewrite Hback.
  replace (doe - (365 * yoe + yoe / 4 - yoe / 100)) with doy by (subst doe; lia).
  assert (Hmp' : (5 * doy + 2) / 153 = mp)
    by (subst doy; Z.div_mod_to_equations; lia).
  rewrite Hmp'.
  replace (doy - (153 * mp + 2) / 5 + 1) with d by (subst doy; lia).
  assert (Hm' : (if mp <? 10 then mp + 3 else mp - 9) = m).
  { subst mp. destruct (2 <? m) eqn:E.
    - apply Z.ltb_lt in E.
      replace (m - 3 <? 10) with true by (symmetry; apply Z.ltb_lt; lia). lia.
    - apply Z.ltb_ge in E.
      replace (m + 9 <? 10) with false by (symmetry; apply Z.ltb_ge; lia). lia. }
  rewrite Hm'. f_equal. f_equal.
  subst yoe y0. destruct (m <=? 2); lia.
Qed.

Section FixedOffsetMonths.
Variable tza : Z -> bool -> Z.
Variable offset : Z.
Hypothesis fixed : forall t b, tza t b = offset.

Lemma setMonth_keeps_the_day t :
  JSDate.getDate tza t <= 28 ->
  let t' := JSDate.setMonth tza t (JSDate.getMonth tza t + 1) in
  JSDate.getDate tza t' = JSDate.getDate tza t
  /\ JSDate.getMonth tza t' = (JSDate.getMonth tza t + 1) mod 12
  /\ JSDate.TimeWithinDay (JSDate.LocalTime tza t')
     = JSDate.TimeWithinDay (JSDate.LocalTime tza t).
Proof.
  unfold JSDate.setMonth, JSDate.getMonth, JSDate.getDate, JSDate.LocalTime,
    JSDate.UTC, JSDate.YearFromTime, JSDate.MonthFromTime, JSDate.DateFromTime,
    JSDate.MakeDate, JSDate.MakeDay.
  rewrite !fixed.
  pose proof (civil_from_days_spec (JSDate.Day (t + offset))) as H.
  destruct (JSDate.civil_from_days (JSDate.Day (t + offset))) as [[y m] d].
  destruct H as (Hm & Hd & Hr). cbn [fst snd]. intros H28. cbv zeta.
  replace (m - 1 + 1) with m by lia.
  set (y' := y + m / 12). set (m' := m mod 12 + 1).
  assert (Hm' : 1 <= m' <= 12) by (subst m'; Z.div_mod_to_equations; lia).
  rewrite <- (days_from_civil_day y' m' d).
  set (D' := JSDate.days_from_civil y' m' d).
  set (twd := JSDate.TimeWithinDay (t + offset)).
  assert (Htwd : 0 <= twd < JSDate.msPerDay)
    by (subst twd; unfold JSDate.TimeWithinDay, JSDate.msPerDay;
        Z.div_mod_to_equations; lia).
  replace (D' * JSDate.msPerDay + twd - offset + offset)
    with (D' * JSDate.msPerDay + twd) by lia.
  assert (HD : JSDate.Day (D' * JSDate.msPerDay + twd) = D')
    by (unfold JSDate.Day, JSDate.msPerDay in *; Z.div_mod_to_equations; lia).
  assert (HT : JSDate.TimeWithinDay (D' * JSDate.msPerDay + twd) = twd)
    by (unfold JSDate.TimeWithinDay, JSDate.msPerDay in *;
        Z.div_mod_to_equations; lia).
  rewrite HD, HT. unfold D'.
  rewrite civil_from_days_from_civil by lia. cbn [fst snd].
  split; [reflexivity|]. split; [|reflexivity].
  subst m'. Z.div_mod_to_equations. lia.
Qed.
End FixedOffsetMonths.

(** In a zone whose offset from UTC does not change, a monthly step from a
    day of the month up to the 28th lands on the same day of the next
    month, at the same time of the day. *)
Theorem monthly_recurrence_keeps_the_day_of_the_month :
  forall tza offset t,
    (forall t' b, tza t' b = offset) ->
    JSDate.getDate tza t <= 28 ->
    let next := advance_date tza monthly t in
    JSDate.getDate tza next = JSDate.getDate tza t
    /\ JSDate.getMonth tza next = (JSDate.getMonth tza t + 1) mod 12
    /\ JSDate.TimeWithinDay (JSDate.LocalTime tza next)
       = JSDate.TimeWithinDay (JSDate.LocalTime tza t).
Proof.
  intros tza offset t Hf H28. apply (setMonth_keeps_the_day tza offset Hf t H28).
Qed.

Lemma monthly_recurrence_witness :
  JSDate.getDate utc (advance_date utc monthly 1296000000) = 16
  /\ JSDate.getMonth utc (advance_date utc monthly 1296000000) = 1.
Proof.
  destruct (monthly_recurrence_keeps_the_day_of_the_month utc 0 1296000000
              (fun _ _ => eq_refl)) as (Hd & Hm & _).
  - vm_compute. discriminate.
  - rewrite Hd, Hm. split; reflexivity.
Defined.

(** ** A repeating reminder *)

Lemma TimeClip_some t : Z.abs t <= JSDate.maxTime -> JSDate.TimeClip t = Some t.
Proof.
  intros H. unfold JSDate.TimeClip.
  replace (JSDate.maxTime <? Z.abs t) with false by (symmetry; apply Z.ltb_ge; lia).
  reflexivity.
Qed.

Lemma TimeClip_none t : JSDate.maxTime < Z.abs t -> JSDate.TimeClip t = None.
Proof.
  intros H. unfold JSDate.TimeClip.
  replace (JSDate.maxTime <? Z.abs t) with true by (symmetry; apply Z.ltb_lt; lia).
  reflexivity.
Qed.

Lemma occurrence_succ tza interval time k :
  occurrence tza interval time (S k)
  = occurrence tza interval (advance_date tza interval time) k.
Proof. unfold occurrence. apply Nat.iter_succ_r. Qed.

Section Occurrences.
Variable tza : Z -> bool -> Z.
Variable offset : Z.
Hypothesis fixed : forall t b, tza t b = offset.
Variable interval : RecurringPattern.

Lemma occurrence_next time k :
  occurrence tza interval time k < occurrence tza interval time (S k).
Proof. apply (advance_date_later tza offset interval _ fixed). Qed.

Lemma occurrence_mono time j k :
  (j <= k)%nat ->
  occurrence tza interval time j <= occurrence tza interval time k.
Proof.
  induction 1 as [|k _ IH]; [lia|].
  pose proof (occurrence_next time k). lia.
Qed.

Lemma occurrence_days time k :
  time + Z.of_nat k * 86400000 <= occurrence tza interval time k.
Proof. apply (iter_advance_later tza offset interval k time fixed). Qed.

(** The first occurrence past a bound comes right after one within it. *)
Lemma occurrence_crosses bound time k :
  time <= bound -> bound < occurrence tza interval time k ->
  exists last, (last < k)%nat
    /\ occurrence tza interval time last <= bound
       < occurrence tza interval time (S last).
Proof.
  intros H0. induction k as [|k IH]; intros Hk.
  - unfold occurrence in Hk. simpl in Hk. lia.
  - destruct (Z_le_gt_dec (occurrence tza interval time k) bound) as [Hle|Hgt].
    + exists k. split; [lia|]. split; [exact Hle|exact Hk].
    + destruct IH as (last & Hl & Hb); [lia|].
      exists last. split; [lia|exact Hb].
Qed.

Lemma last_occurrence time :
  time <= JSDate.maxTime ->
  exists last,
    occurrence tza interval time last <= JSDate.maxTime
    < occurrence tza interval time (S last).
Proof.
  intros H0.
  set (k := Z.to_nat ((JSDate.maxTime - time) / 86400000 + 1)).
  destruct (occurrence_crosses JSDate.maxTime time k H0) as (last & _ & Hl).
  - pose proof (occurrence_days time k) as Hd.
    assert (Hk : Z.of_nat k = (JSDate.maxTime - time) / 86400000 + 1).
    { unfold k. rewrite Z2Nat.id; [reflexivity|].
      assert (0 <= (JSDate.maxTime - time) / 86400000)
        by (apply Z.div_pos; lia). lia. }
    rewrite Hk in Hd.
    pose proof (Z.mod_pos_bound (JSDate.maxTime - time) 86400000 ltac:(lia)).
    pose proof (Z.div_mod (JSDate.maxTime - time) 86400000 ltac:(lia)). lia.
  - exists last. exact Hl.
Qed.
End Occurrences.

(** The record of this call and those of the calls inside it. *)
Lemma occurrences_stored_step task taskTitle interval time options m w w' :
  let r0 := reminder_record w task taskTitle time options in
  let w1 := with_notifications (Store.put r0 (notifications w))
              (with_uuid_count (S (uuid_count w)) w) in
  Store.get (uuids w (uuid_count w)) (notifications w') = Some r0 ->
  occurrences_stored task interval
    (advance_date (localTZA w) interval time) m w1 w' ->
  occurrences_stored task interval time (S m) w w'.
Proof.
  intros r0 w1 Hg [Hc Hk]. split; [rewrite Hc; simpl; lia|].
  intros k Hlt. destruct k as [|k].
  - exists r0. rewrite Nat.add_0_r. split; [exact Hg|]. repeat split.
  - destruct (Hk k ltac:(lia)) as (r & Hr & Ht & Hs & Hi & Hrec).
    exists r. replace (uuid_count w + S k)%nat with (uuid_count w1 + k)%nat
      by (simpl; lia).
    split; [exact Hr|]. split; [exact Ht|]. split; [|auto].
    rewrite Hs. symmetry. apply occurrence_succ.
Qed.

(** The record of this call is still there when the calls inside it are
    through. *)
Lemma reminder_record_stays n task taskTitle time next rep interval options w :
  Store.get (uuids w (uuid_count w)) (notifications w) = None ->
  let r0 := reminder_record w task taskTitle time options in
  let w1 := with_notifications (Store.put r0 (notifications w))
              (with_uuid_count (S (uuid_count w)) w) in
  Store.get (uuids w (uuid_count w))
    (notifications
       (fst (scheduleTaskReminder n task taskTitle next rep interval options w1)))
  = Some r0.
Proof.
  intros Hnew r0 w1.
  assert (Hg : Store.get (uuids w (uuid_count w)) (notifications w1) = Some r0)
    by (simpl; apply (get_put_same r0)).
  destruct (scheduleTaskReminder_only_adds n task taskTitle next rep interval
              options w1 (uuids w (uuid_count w))) as [Ho | [Ho _]];
    [rewrite Ho; exact Hg|congruence].
Qed.

(** While the occurrences lie within the Date range the calls go on. *)
Lemma scheduleTaskReminder_goes_on n :
  forall task taskTitle time interval options w offset,
    (forall t b, localTZA w t b = offset) ->
    fresh_uuids w -> now w < time -> - JSDate.maxTime <= time ->
    occurrence (localTZA w) interval time n <= JSDate.maxTime ->
    let result :=
      scheduleTaskReminder n task taskTitle time true (Some interval) options w in
    snd result = Unfinished
    /\ occurrences_stored task interval time n w (fst result).
Proof.
  induction n as [|n IH];
    intros task taskTitle time interval options w offset Hf Hfresh Hlt Hlow Hn.
  - simpl. split; [reflexivity|]. split; [lia|]. intros k Hk. lia.
  - cbv zeta.
    assert (Hnew : Store.get (uuids w (uuid_count w)) (notifications w) = None)
      by (apply Hfresh; lia).
    rewrite scheduleTaskReminder_step by assumption. cbv zeta.
    set (r0 := reminder_record w task taskTitle time options).
    set (w1 := with_notifications (Store.put r0 (notifications w))
                 (with_uuid_count (S (uuid_count w)) w)).
    set (next := advance_date (localTZA w) interval time).
    assert (Hlater : time < next)
      by apply (advance_date_later (localTZA w) offset interval time Hf).
    rewrite occurrence_succ in Hn. fold next in Hn.
    assert (Hnext : next <= JSDate.maxTime).
    { pose proof (occurrence_mono (localTZA w) offset Hf interval next 0 n
                    ltac:(lia)) as Hm.
      unfold occurrence at 1 in Hm. simpl in Hm. lia. }
    rewrite TimeClip_some by lia.
    destruct (IH task taskTitle next interval options w1 offset Hf
                ltac:(apply fresh_uuids_put; auto) ltac:(simpl; lia)
                ltac:(lia) Hn) as [Hu Hst].
    split; [exact Hu|].
    apply (occurrences_stored_step task taskTitle interval time options);
      [|exact Hst].
    now apply reminder_record_stays.
Qed.

(** The call that finds the next occurrence past the Date range is
    rejected, and with it the calls around it. *)
Lemma scheduleTaskReminder_ends n :
  forall last task taskTitle time interval options w offset,
    (forall t b, localTZA w t b = offset) ->
    fresh_uuids w -> now w < time -> - JSDate.maxTime <= time ->
    (last < n)%nat ->
    occurrence (localTZA w) interval time last <= JSDate.maxTime
    < occurrence (localTZA w) interval time (S last) ->
    let result :=
      scheduleTaskReminder n task taskTitle time true (Some interval) options w in
    snd result = Rejected RangeError
    /\ occurrences_stored task interval time (S last) w (fst result).
Proof.
  induction n as [|n IH];
    intros last task taskTitle time interval options w offset Hf Hfresh Hlt Hlow
      Hlast [Hin Hout]; [lia|].
  cbv zeta.
  assert (Hnew : Store.get (uuids w (uuid_count w)) (notifications w) = None)
    by (apply Hfresh; lia).
  rewrite scheduleTaskReminder_step by assumption. cbv zeta.
  set (r0 := reminder_record w task taskTitle time options).
  set (w1 := with_notifications (Store.put r0 (notifications w))
               (with_uuid_count (S (uuid_count w)) w)).
  set (next := advance_date (localTZA w) interval time).
  assert (Hlater : time < next)
    by apply (advance_date_later (localTZA w) offset interval time Hf).
  rewrite occurrence_succ in Hout. fold next in Hout.
  destruct last as [|last].
  - unfold occurrence in Hout. simpl in Hout.
    rewrite TimeClip_none by lia. split; [reflexivity|].
    apply (occurrences_stored_step task taskTitle interval time options).
    + simpl. apply (get_put_same r0).
    + split; [simpl; lia|]. intros k Hk. lia.
  - rewrite occurrence_succ in Hin. fold next in Hin.
    assert (Hnext : next <= JSDate.maxTime).
    { pose proof (occurrence_mono (localTZA w) offset Hf interval next 0 last
                    ltac:(lia)) as Hm.
      unfold occurrence at 1 in Hm. simpl in Hm. lia. }
    rewrite TimeClip_some by lia.
    destruct (IH last task taskTitle next interval options w1 offset Hf
                ltac:(apply fresh_uuids_put; auto) ltac:(simpl; lia)
                ltac:(lia) ltac:(lia) (conj Hin Hout)) as [Hu Hst].
    split; [exact Hu|].
    apply (occurrences_stored_step task taskTitle interval time options);
      [|exact Hst].
    now apply reminder_record_stays.
Qed.

(** A repeating reminder in the future, in a zone with a fixed offset and
    with fresh identifiers to come: [scheduleTaskReminder] stores the
    notification of every occurrence up to the end of the Date range before
    it ends, and it ends by being rejected.  The occurrences lie at least a
    day apart.  As long as the [n]-th occurrence is within the range, [n]
    nested calls have stored the first [n] occurrences, none of them
    triggered or recurring, and the call has not returned.  There is a last
    occurrence within the range; the call that stores it finds the next
    date invalid, [toISOString] throws, and the whole call is rejected with
    a RangeError.  It never resolves. *)
Theorem repeating_reminder_is_scheduled_eagerly :
  forall task taskTitle time interval options w offset,
    (forall t b, localTZA w t b = offset) ->
    fresh_uuids w -> now w < time -> Z.abs time <= JSDate.maxTime ->
    let occ := occurrence (localTZA w) interval time in
    let result n :=
      scheduleTaskReminder n task taskTitle time true (Some interval) options w in
    (forall k, time + Z.of_nat k * 86400000 <= occ k)
    /\ (forall n, occ n <= JSDate.maxTime ->
          snd (result n) = Unfinished
          /\ occurrences_stored task interval time n w (fst (result n)))
    /\ (exists last,
          occ last <= JSDate.maxTime < occ (S last)
          /\ forall n, (last < n)%nat ->
               snd (result n) = Rejected RangeError
               /\ occurrences_stored task interval time (S last) w
                    (fst (result n)))
    /\ (forall n, snd (result n) <> Resolved tt).
Proof.
  intros task taskTitle time interval options w offset Hf Hfresh Hlt Hrange
    occ result.
  assert (Hon : forall n, occ n <= JSDate.maxTime ->
            snd (result n) = Unfinished
            /\ occurrences_stored task interval time n w (fst (result n))).
  { intros n Hn.
    apply (scheduleTaskReminder_goes_on n task taskTitle time interval options w
             offset Hf Hfresh Hlt ltac:(lia) Hn). }
  assert (Hend : forall last n, (last < n)%nat ->
            occ last <= JSDate.maxTime < occ (S last) ->
            snd (result n) = Rejected RangeError
            /\ occurrences_stored task interval time (S last) w (fst (result n))).
  { intros last n Hl Hb.
    apply (scheduleTaskReminder_ends n last task taskTitle time interval options
             w offset Hf Hfresh Hlt ltac:(lia) Hl Hb). }
  split; [intros k; apply (occurrence_days (localTZA w) offset Hf)|].
  split; [exact Hon|]. split.
  - destruct (last_occurrence (localTZA w) offset Hf interval time ltac:(lia))
      as (last & Hb).
    exists last. split; [exact Hb|]. intros n Hl. now apply Hend.
  - intros n. destruct (Z_le_gt_dec (occ n) JSDate.maxTime) as [Hle|Hgt].
    + destruct (Hon n Hle) as [-> _]. discriminate.
    + destruct (occurrence_crosses (localTZA w) interval
                  JSDate.maxTime time n ltac:(lia) ltac:(unfold occ in Hgt; lia))
        as (last & Hl & Hb).
      destruct (Hend last n Hl Hb) as [-> _]. discriminate.
Qed.

(** A weekly stand-up followed through three calls, and a daily one that
    starts on the last day but one of the Date range: the third call is
    never made. *)
Lemma repeating_reminder_witness :
  snd (scheduleTaskReminder 3 "task-1" "stand-up" 300000000 true (Some weekly)
         None unary_world) = Unfinished
  /\ (exists r,
        Store.get "uuu"
          (notifications
             (fst (scheduleTaskReminder 3 "task-1" "stand-up" 300000000 true
                     (Some weekly) None unary_world))) = Some r
        /\ scheduledTime r = 1509600000)
  /\ snd (scheduleTaskReminder 3 "task-1" "stand-up" 8639999913600000 true
            (Some daily) None last_days_world) = Rejected RangeError
  /\ map scheduledTime
       (notifications
          (fst (scheduleTaskReminder 3 "task-1" "stand-up" 8639999913600000
                  true (Some daily) None last_days_world)))
     = [8639999913600000; 8640000000000000].
Proof.
  destruct (repeating_reminder_is_scheduled_eagerly "task-1" "stand-up"
              300000000 weekly None unary_world 0 (fun _ _ => eq_refl)
              unary_world_fresh eq_refl) as (_ & Hon & _).
  - vm_compute. discriminate.
  - destruct (Hon 3%nat) as (Hu & _ & Hk); [vm_compute; discriminate|].
    split; [exact Hu|]. split.
    + destruct (Hk 2%nat) as (r & Hg & _ & Hs & _); [lia|].
      exists r. split; [exact Hg|]. rewrite Hs. reflexivity.
    + split; vm_compute; reflexivity.
Defined.

(** ** What stays of a stored record *)

Lemma stays_as_it_was_refl key w : stays_as_it_was key w w.
Proof. intros Hw. split; [assumption|]. eauto. Qed.

Lemma stays_as_it_was_trans key a b c :
  stays_as_it_was key a b -> stays_as_it_was key b c -> stays_as_it_was key a c.
Proof.
  intros H1 H2 Ha. destruct (H1 Ha) as [Hb H1']. destruct (H2 Hb) as [Hc H2'].
  split; [assumption|]. intros r Hr.
  destruct (H1' r Hr) as (r1 & Hr1 & F1).
  destruct (H2' r1 Hr1) as (r2 & Hr2 & F2).
  exists r2. split; [assumption|congruence].
Qed.

Lemma stays_as_it_was_store key w w' :
  notifications w' = notifications w -> stays_as_it_was key w w'.
Proof. intros E Hw. unfold wf. rewrite E. eauto. Qed.

Lemma stays_as_it_was_put key w v :
  (wf w -> forall r, Store.get (id v) (notifications w) = Some r ->
             frozen v = frozen r) ->
  stays_as_it_was key w (with_notifications (Store.put v (notifications w)) w).
Proof.
  intros Hv Hw. specialize (Hv Hw). split.
  - unfold wf. simpl. now apply ordered_put.
  - intros r Hr. simpl.
    destruct (String.eqb key (id v)) eqn:E.
    + apply String.eqb_eq in E. subst key. rewrite get_put_same.
      exists v. split; [reflexivity|]. auto.
    + apply String.eqb_neq in E. rewrite get_put_other by assumption. eauto.
Qed.

Lemma run_stays_as_it_was key op w :
  op <> OpDelete key -> stays_as_it_was key w (run op w).
Proof.
  assert (Hq : forall w w', quiet w w' -> stays_as_it_was key w w')
    by (intros ? ? (E & _); now apply stays_as_it_was_store).
  assert (Ha : forall w v, Store.get (id v) (notifications w) = None ->
            isTriggered v = false -> own_anchor v ->
            stays_as_it_was key w
              (with_notifications (Store.put v (notifications w)) w))
    by (intros ? ? E _ _; apply stays_as_it_was_put; intros _ r Hr; congruence).
  assert (Hm : forall w n, Store.get (id n) (notifications w) = Some n ->
            stays_as_it_was key w
              (with_notifications
                 (Store.put (set_isTriggered true n) (notifications w)) w)).
  { intros w0 n E. apply stays_as_it_was_put. simpl. intros _ r Hr.
    rewrite E in Hr. injection Hr as <-. reflexivity. }
  pose proof (stays_as_it_was_refl key) as Hr.
  pose proof (stays_as_it_was_trans key) as Ht.
  intros Hop. destruct op; simpl.
  - apply respects_scheduleNotification; auto.
  - apply respects_markNotificationTriggered; auto.
  - unfold deleteScheduledNotification, store_delete. simpl.
    intros Hw. split.
    + unfold wf. simpl. now apply ordered_delete.
    + intros r Hg. exists r. simpl. rewrite get_delete.
      destruct (String.eqb key key0) eqn:E; [|auto].
      apply String.eqb_eq in E. congruence.
  - apply respects_showNotification; auto.
  - apply respects_check000; auto.
  - apply respects_check001; auto.
  - apply respects_snoozeNotification; auto.
    intros w0 n c Hin. apply stays_as_it_was_put.
    simpl. intros Hw0 r Hg.
    rewrite (ordered_get n _ Hw0 Hin) in Hg. injection Hg as <-. reflexivity.
  - apply respects_scheduleTaskReminder; auto.
  - apply respects_start000; auto. intros; now apply stays_as_it_was_store.
  - apply respects_stop000; auto. intros; now apply stays_as_it_was_store.
  - apply respects_start001; auto. intros; now apply stays_as_it_was_store.
  - apply respects_stop001; auto. intros; now apply stays_as_it_was_store.
  - now apply stays_as_it_was_store.
Qed.

(** Whatever the callers do, in either variant, a stored record stays in
    the store until [deleteScheduledNotification] is called on its key, and
    nothing but its triggered flag and its snooze count ever changes: the
    task, the texts, the scheduled time, the priority, the category and the
    recurrence fields are those it was created with. *)
Theorem stored_records_are_never_edited :
  forall ops w key r,
    wf w ->
    Store.get key (notifications w) = Some r ->
    ~ In (OpDelete key) ops ->
    exists r',
      Store.get key (notifications (run_all ops w)) = Some r'
      /\ taskId r' = taskId r /\ title r' = title r /\ body r' = body r
      /\ scheduledTime r' = scheduledTime r /\ createdAt r' = createdAt r
      /\ priority r' = priority r /\ category r' = category r
      /\ taskDueDate r' = taskDueDate r
      /\ originalScheduledTime r' = originalScheduledTime r
      /\ isRecurring r' = isRecurring r
      /\ recurringPattern r' = recurringPattern r.
Proof.
  intros ops w key r Hw Hg Hops.
  assert (H : wf (run_all ops w)
              /\ exists r', Store.get key (notifications (run_all ops w)) = Some r'
                            /\ frozen r' = frozen r).
  { revert w r Hw Hg.
    induction ops as [|op ops IH]; intros w r Hw Hg; simpl.
    - eauto.
    - assert (Hop : op <> OpDelete key) by (intros ->; apply Hops; now left).
      destruct (run_stays_as_it_was key op w Hop Hw) as [Hw1 H1].
      destruct (H1 r Hg) as (r1 & Hg1 & F1).
      destruct (IH (fun H => Hops (or_intror H)) (run op w) r1 Hw1 Hg1)
        as (Hw2 & r2 & Hg2 & F2).
      split; [assumption|]. exists r2. split; [assumption|congruence]. }
  destruct H as (_ & r' & Hg' & F). exists r'. split; [assumption|].
  unfold frozen in F. injection F as ? ? ? ? ? ? ? ? ? ? ? ? ? ?.
  repeat split; assumption.
Qed.

Lemma stored_records_witness :
  exists r',
    Store.get "a"
      (notifications
         (run_all [OpSnooze "task-1" 10; OpElapse 700000; OpEvaluate000;
                   OpDelete "b"; OpEvaluate001]
            (example_world [example_notification "a" 1000] [plants] 2000)))
    = Some r'
    /\ scheduledTime r' = 1000 /\ title r' = "Task Reminder".
Proof.
  destruct (stored_records_are_never_edited
              [OpSnooze "task-1" 10; OpElapse 700000; OpEvaluate000;
               OpDelete "b"; OpEvaluate001]
              (example_world [example_notification "a" 1000] [plants] 2000)
              "a" (example_notification "a" 1000))
    as (r' & Hg & _ & Ht & _ & Hs & _).
  - reflexivity.
  - reflexivity.
  - simpl. intros [H|[H|[H|[H|[H|[]]]]]]; discriminate H.
  - exists r'. repeat split; assumption.
Defined.


Lemma put_put v s : Store.put v (Store.put v s) = Store.put v s.
Proof.
  induction s as [|n s IH]; simpl.
  - now rewrite compare_refl.
  - destruct (String.compare (id v) (id n)) eqn:E; simpl.
    + now rewrite compare_refl.
    + now rewrite compare_refl.
    + rewrite E. now rewrite IH.
Qed.

(** [markNotificationTriggered] called a second time changes nothing and
    ends as the first call did; on a key that is not in the store it rejects
    with "Notification not found" and leaves the world as it is; and it
    touches no record but the one under the key. *)
Theorem marking_twice_is_marking_once :
  forall key w,
    markNotificationTriggered key (fst (markNotificationTriggered key w))
    = markNotificationTriggered key w
    /\ (Store.get key (notifications w) = None ->
        markNotificationTriggered key w = (w, Rejected NotificationNotFound))
    /\ (forall k, k <> key ->
          Store.get k (notifications (fst (markNotificationTriggered key w)))
          = Store.get k (notifications w)).
Proof.
  intros key w.
  unfold markNotificationTriggered, bind, store_get, store_put, reject.
  destruct (Store.get key (notifications w)) as [n|] eqn:E; simpl.
  - pose proof (get_id _ _ _ E) as Hid. subst key.
    change (id n) with (id (set_isTriggered true n)) at 1.
    rewrite get_put_same. simpl.
    split; [|split].
    + change (set_isTriggered true (set_isTriggered true n))
        with (set_isTriggered true n).
      now rewrite put_put.
    + discriminate.
    + intros k Hk. now apply get_put_other.
  - rewrite E. auto.
Qed.


Lemma delete_put v s :
  Store.get (id v) s = None -> Store.delete (id v) (Store.put v s) = s.
Proof.
  induction s as [|n s IH]; simpl; intros H.
  - now rewrite String.eqb_refl.
  - destruct (String.eqb (id n) (id v)) eqn:E; [discriminate|].
    destruct (String.compare (id v) (id n)) eqn:C; simpl.
    + apply OrderedTypeEx.String_as_OT.cmp_eq in C.
      apply String.eqb_neq in E. congruence.
    + rewrite String.eqb_refl, E. simpl. f_equal.
      now apply delete_absent.
    + rewrite E. simpl. f_equal. apply IH, H.
Qed.

(** Deleting the record that [scheduleNotification] has just returned puts
    the store back as it was: the world differs from the initial one by the
    identifier used up. *)
Theorem schedule_then_delete_restores_the_store :
  forall task t b time options w,
    Store.get (uuids w (uuid_count w)) (notifications w) = None ->
    exists n w1,
      scheduleNotification task t b time options w = (w1, Resolved n)
      /\ Store.get (id n) (notifications w1) = Some n
      /\ deleteScheduledNotification (id n) w1
         = (with_uuid_count (S (uuid_count w)) w, Resolved tt).
Proof.
  intros task t b time options w Hnew.
  rewrite scheduleNotification_fresh by assumption. cbv zeta.
  match goal with |- context [Resolved ?v] => set (n := v) end.
  assert (E : Store.delete (id n) (Store.put n (notifications w))
              = notifications w) by (apply delete_put; exact Hnew).
  eexists. eexists. split; [reflexivity|]. split.
  - apply (get_put_same n).
  - unfold deleteScheduledNotification, store_delete.
    cbn [notifications with_notifications fst]. rewrite E. reflexivity.
Qed.

Lemma schedule_then_delete_witness :
  exists n w1,
    scheduleNotification "task-1" "Task Reminder" "Don't forget: water the plants"
      5000 None (example_world [example_notification "a" 1000] [] 0)
    = (w1, Resolved n)
    /\ notifications (fst (deleteScheduledNotification (id n) w1))
       = [example_notification "a" 1000].
Proof.
  destruct (schedule_then_delete_restores_the_store
              "task-1" "Task Reminder" "Don't forget: water the plants" 5000 None
              (example_world [example_notification "a" 1000] [] 0) eq_refl)
    as (n & w1 & E & _ & D).
  exists n, w1. split; [exact E|]. rewrite D. reflexivity.
Defined.

(** ** What a pass does to the store *)

Lemma above_not_eqb key s :
  above key s -> forall m, In m s -> String.eqb (id m) key = false.
Proof.
  intros Ha m Hm. unfold above in Ha. rewrite Forall_forall in Ha.
  apply compare_neq. rewrite (Ha m Hm). discriminate.
Qed.

(** On a store with distinct keys, [put] under a key that is taken replaces
    that record and leaves the list as it is otherwise. *)
Lemma put_replaces v s :
  Store.ordered s = true -> Store.get (id v) s <> None ->
  Store.put v s = map (fun m => if String.eqb (id m) (id v) then v else m) s.
Proof.
  induction s as [|n s IH]; intros Ho Hg; [now elim Hg|].
  apply ordered_cons in Ho as [Ha Ho].
  simpl in *. destruct (String.eqb (id n) (id v)) eqn:E.
  - apply String.eqb_eq in E. rewrite <- E, compare_refl. f_equal.
    rewrite <- (map_id s) at 1. apply map_ext_in.
    intros m Hm. now rewrite (above_not_eqb _ _ Ha m Hm).
  - assert (Hin : exists x, In x s /\ id x = id v).
    { destruct (Store.get (id v) s) as [x|] eqn:G; [|now elim Hg].
      exists x. split; [eapply get_In; eauto|eapply get_id; eauto]. }
    destruct Hin as (x & Hx & Hid).
    unfold above in Ha. rewrite Forall_forall in Ha.
    specialize (Ha x Hx). rewrite Hid in Ha.
    destruct (String.compare (id v) (id n)) eqn:C.
    + apply OrderedTypeEx.String_as_OT.cmp_eq in C.
      apply String.eqb_neq in E. congruence.
    + pose proof (compare_Lt_trans _ _ _ Ha C) as F.
      rewrite compare_refl in F. discriminate.
    + f_equal. now apply IH.
Qed.

Lemma mark_keys_id keys s : map id (mark_keys keys s) = map id s.
Proof.
  unfold mark_keys. rewrite map_map. apply map_ext.
  intros n. now destruct (existsb _ keys).
Qed.

Lemma ordered_map_id s s' :
  map id s' = map id s -> Store.ordered s = true -> Store.ordered s' = true.
Proof.
  revert s'. induction s as [|n s IH]; intros [|n' s'] E Ho;
    try discriminate; [reflexivity|].
  simpl in E. injection E as En Es.
  destruct s as [|m s]; destruct s' as [|m' s']; try discriminate; [reflexivity|].
  simpl in Es. injection Es as Em Es.
  change (String.ltb (id n') (id m') && Store.ordered (m' :: s') = true).
  change (String.ltb (id n) (id m) && Store.ordered (m :: s) = true) in Ho.
  apply andb_true_iff in Ho as [Hl Ho]. rewrite En, Em, Hl, andb_true_l.
  apply IH; [|assumption]. simpl. now rewrite Em, Es.
Qed.

Lemma get_map_id (f : ScheduledNotification -> ScheduledNotification) key s :
  (forall n, id (f n) = id n) ->
  Store.get key (map f s) = option_map f (Store.get key s).
Proof.
  intros Hf. induction s as [|n s IH]; simpl; [reflexivity|].
  rewrite Hf. destruct (String.eqb (id n) key); [reflexivity|apply IH].
Qed.

Lemma get_mark_keys key keys s :
  Store.get key (mark_keys keys s)
  = option_map (fun n => if existsb (String.eqb (id n)) keys
                         then set_isTriggered true n else n)
      (Store.get key s).
Proof.
  apply get_map_id. intros n. now destruct (existsb _ keys).
Qed.

Lemma mark_keys_cons key keys s :
  mark_keys keys (mark_keys [key] s) = mark_keys (key :: keys) s.
Proof.
  unfold mark_keys. rewrite map_map. apply map_ext. intros n. simpl.
  rewrite orb_false_r.
  destruct (String.eqb (id n) key); simpl; [|reflexivity].
  now destruct (existsb _ keys).
Qed.

(** Marking a stored record is marking its key. *)
Lemma mark_computes key w :
  wf w -> Store.get key (notifications w) <> None ->
  exists w',
    markNotificationTriggered key w = (w', Resolved tt)
    /\ notifications w' = mark_keys [key] (notifications w)
    /\ now w' = now w.
Proof.
  intros Hw Hg.
  unfold markNotificationTriggered, bind, store_get, store_put. simpl.
  destruct (Store.get key (notifications w)) as [n|] eqn:E; [|now elim Hg].
  eexists. split; [reflexivity|]. split; [|reflexivity]. simpl.
  pose proof (get_id _ _ _ E) as Hid.
  rewrite put_replaces; [|exact Hw|simpl; rewrite Hid, E; discriminate].
  unfold mark_keys. apply map_ext_in. intros m Hm. simpl.
  rewrite orb_false_r, Hid.
  destruct (String.eqb (id m) key) eqn:Em; [|reflexivity].
  apply String.eqb_eq in Em.
  pose proof (ordered_get m _ Hw Hm) as Gm. rewrite Em, E in Gm.
  now injection Gm as ->.
Qed.

Lemma wf_mark_keys keys w s :
  wf w -> s = mark_keys keys (notifications w) -> Store.ordered s = true.
Proof.
  intros Hw ->. eapply ordered_map_id; [apply mark_keys_id|exact Hw].
Qed.

Lemma mark_keys_present key keys s :
  Store.get key s <> None -> Store.get key (mark_keys keys s) <> None.
Proof.
  rewrite get_mark_keys. now destruct (Store.get key s).
Qed.

Lemma mark_keys_nil s : mark_keys [] s = s.
Proof. unfold mark_keys. simpl. apply map_id. Qed.

(** The inner loop of the first evaluator, when no member of the group is
    recurring. *)
Lemma trigger_loop g : forall w,
  wf w ->
  (forall n, In n g -> recurring n = false
                       /\ Store.get (id n) (notifications w) <> None) ->
  exists w',
    for_of g Part000.trigger w = (w', Resolved tt)
    /\ notifications w' = mark_keys (map id g) (notifications w)
    /\ now w' = now w.
Proof.
  induction g as [|n g IH]; intros w Hw Hg.
  - exists w. simpl. now rewrite mark_keys_nil.
  - destruct (Hg n (or_introl eq_refl)) as [Hr Hp].
    destruct (mark_computes (id n) w Hw Hp) as (w1 & E1 & S1 & N1).
    assert (Hw1 : wf w1) by (eapply wf_mark_keys; eauto).
    destruct (IH w1 Hw1) as (w2 & E2 & S2 & N2).
    { intros m Hm. destruct (Hg m (or_intror Hm)) as [Hrm Hpm].
      split; [assumption|]. rewrite S1. now apply mark_keys_present. }
    exists w2. split; [|split].
    + cbn [for_of]. unfold bind at 1. unfold Part000.trigger at 1.
      unfold bind at 1. rewrite E1, Hr. cbn [ret]. exact E2.
    + rewrite S2, S1. apply mark_keys_cons.
    + congruence.
Qed.

Lemma quiet_refl w : quiet w w.
Proof. now repeat split. Qed.

Lemma quiet_trans a b c : quiet a b -> quiet b c -> quiet a c.
Proof. unfold quiet. intros (? & ? & ?) (? & ? & ?). repeat split; congruence. Qed.

Lemma showNotification_quiet t b ts ns o w :
  exists w', showNotification t b ts ns o w = (w', Resolved tt) /\ quiet w w'.
Proof.
  destruct (showNotification_resolves t b ts ns o w) as (w' & E & _).
  exists w'. split; [exact E|].
  pose proof (respects_showNotification quiet quiet_refl quiet_trans
                (fun _ _ H => H) t b ts ns o w) as Q.
  now rewrite E in Q.
Qed.

Lemma show_group_quiet g w :
  exists w', Part000.show_group g w = (w', Resolved tt) /\ quiet w w'.
Proof.
  unfold Part000.show_group.
  destruct g as [|n [|m g]]; apply showNotification_quiet.
Qed.

(** The outer loop of the first evaluator, when no member of a group is
    recurring. *)
Lemma deliver_loop gs : forall w,
  wf w ->
  (forall n, In n (List.concat gs) ->
     recurring n = false /\ Store.get (id n) (notifications w) <> None) ->
  exists w',
    for_of gs deliver w = (w', Resolved tt)
    /\ notifications w' = mark_keys (map id (List.concat gs)) (notifications w)
    /\ now w' = now w.
Proof.
  induction gs as [|g gs IH]; intros w Hw Hg.
  - exists w. simpl. now rewrite mark_keys_nil.
  - destruct (show_group_quiet g w) as (w1 & E1 & S1 & N1 & _).
    assert (Hw1 : wf w1) by (unfold wf; now rewrite S1).
    destruct (trigger_loop g w1 Hw1) as (w2 & E2 & S2 & N2).
    { intros n Hn. rewrite S1. apply Hg. simpl. apply in_or_app. now left. }
    assert (Hw2 : wf w2) by (eapply wf_mark_keys; eauto).
    destruct (IH w2 Hw2) as (w3 & E3 & S3 & N3).
    { intros n Hn. destruct (Hg n) as [Hr Hp].
      - simpl. apply in_or_app. now right.
      - split; [assumption|]. rewrite S2, S1. now apply mark_keys_present. }
    exists w3. split; [|split].
    + cbn [for_of]. unfold bind at 1. unfold deliver at 1. unfold bind at 1.
      rewrite E1, E2. exact E3.
    + rewrite S3, S2, S1. simpl. rewrite map_app.
      unfold mark_keys. rewrite map_map. apply map_ext. intros n.
      rewrite existsb_app.
      destruct (existsb _ (map id g)); simpl; [|reflexivity].
      now destruct (existsb _ (map id (List.concat gs))).
    + congruence.
Qed.

Lemma ordered_unique s m n :
  Store.ordered s = true -> In m s -> In n s -> id m = id n -> m = n.
Proof.
  intros Ho Hm Hn E.
  pose proof (ordered_get m s Ho Hm) as Gm.
  pose proof (ordered_get n s Ho Hn) as Gn.
  rewrite E in Gm. congruence.
Qed.

(** Marking the keys of the records that are due is marking the records
    that are due. *)
Lemma mark_keys_due keys current s :
  Store.ordered s = true ->
  (forall key, In key keys <-> exists n, In n s /\ is_due current n = true /\ id n = key) ->
  mark_keys keys s = mark_due current s.
Proof.
  intros Ho Hk. unfold mark_keys, mark_due. apply map_ext_in. intros m Hm.
  destruct (is_due current m) eqn:D.
  - replace (existsb (String.eqb (id m)) keys) with true; [reflexivity|].
    symmetry. apply existsb_exists. exists (id m).
    split; [|apply String.eqb_refl]. apply Hk. eauto.
  - replace (existsb (String.eqb (id m)) keys) with false; [reflexivity|].
    symmetry. apply not_true_is_false. intros H.
    apply existsb_exists in H as (key & Hin & E).
    apply String.eqb_eq in E. apply Hk in Hin as (n & Hn & Dn & Hid).
    assert (m = n) by (eapply ordered_unique; eauto; congruence).
    congruence.
Qed.

(** The loop of the second evaluator over a snapshot [xs] of the store,
    when no record that is due is recurring. *)
Lemma check_loop current xs : forall w,
  wf w -> now w = current ->
  (forall n, In n xs -> is_due current n = true ->
     recurring n = false /\ Store.get (id n) (notifications w) <> None) ->
  exists w',
    for_of xs (Part001.check current) w = (w', Resolved tt)
    /\ notifications w'
       = mark_keys (map id (filter (is_due current) xs)) (notifications w)
    /\ now w' = now w.
Proof.
  induction xs as [|n xs IH]; intros w Hw Hc Hg.
  - exists w. simpl. now rewrite mark_keys_nil.
  - cbn [for_of filter]. unfold bind at 1. unfold Part001.check at 1.
    destruct (is_due current n) eqn:D.
    + destruct (Hg n (or_introl eq_refl) D) as [Hr Hp].
      destruct (showNotification_quiet (title n) (body n) [taskId n] []
                  (mkShowOptions (priority n) (category n) (taskDueDate n)
                     (snoozeCount n) (isGrouped n) None) w)
        as (w1 & E1 & S1 & N1 & _).
      assert (Hw1 : wf w1) by (unfold wf; now rewrite S1).
      destruct (mark_computes (id n) w1 Hw1) as (w2 & E2 & S2 & N2);
        [now rewrite S1|].
      assert (Hw2 : wf w2) by (eapply wf_mark_keys; eauto).
      destruct (IH w2 Hw2) as (w3 & E3 & S3 & N3); [congruence| |].
      { intros m Hm Dm. destruct (Hg m (or_intror Hm) Dm) as [Hrm Hpm].
        split; [assumption|]. rewrite S2, S1. now apply mark_keys_present. }
      exists w3. split; [|split].
      * unfold bind at 1. rewrite E1. unfold bind at 1. rewrite E2.
        assert (Hnop : (if truthy_bool (isRecurring n)
                        then scheduleRecurringNotification n else ret tt) w2
                       = (w2, Resolved tt)).
        { unfold recurring in Hr. destruct (truthy_bool (isRecurring n));
            [|reflexivity].
          unfold scheduleRecurringNotification.
          destruct (recurringPattern n); [discriminate|reflexivity]. }
        rewrite Hnop. exact E3.
      * rewrite S3, S2, S1. simpl. apply mark_keys_cons.
      * congruence.
    + cbn [ret]. apply IH; auto.
      intros m Hm Dm. apply Hg; [now right|assumption].
Qed.

(** When none of the due records is recurring, a pass of either evaluator
    runs to its end and leaves the store with exactly the due records turned
    to triggered: every other record, and every other field, is as before.
    The two variants then agree on the store. *)
Theorem pass_marks_exactly_the_due :
  forall w,
    wf w ->
    (forall n, In n (due_in w) -> recurring n = false) ->
    (snd (Part000.checkAndTriggerNotifications w) = Resolved tt
     /\ notifications (fst (Part000.checkAndTriggerNotifications w))
        = mark_due (now w) (notifications w))
    /\ (snd (Part001.checkAndTriggerNotifications w) = Resolved tt
        /\ notifications (fst (Part001.checkAndTriggerNotifications w))
           = mark_due (now w) (notifications w)).
Proof.
  intros w Hw Hn. split.
  - assert (Hbody : exists w',
              Part000.checkAndTriggerNotifications_body w = (w', Resolved tt)
              /\ notifications w' = mark_due (now w) (notifications w)).
    { unfold Part000.checkAndTriggerNotifications_body, bind,
        getScheduledNotifications, Date_now.
      fold (due_in w).
      destruct (List.length (due_in w) =? 0)%nat eqn:L.
      - exists w. split; [reflexivity|].
        apply Nat.eqb_eq, length_zero_iff_nil in L.
        unfold mark_due. rewrite <- (map_id (notifications w)) at 1.
        apply map_ext_in. intros m Hm.
        destruct (is_due (now w) m) eqn:D; [|reflexivity].
        assert (In m (due_in w)) by (apply filter_In; auto).
        rewrite L in H. contradiction.
      - set (gs := groupNotificationsByTimeAndPriority (due_in w) (3 * 60 * 1000)).
        assert (Hin : forall n, In n (List.concat gs) <-> In n (due_in w)).
        { intros n. unfold gs. rewrite grouping_concat. split; intros H.
          - eapply Permutation_in; [|exact H].
            apply Permutation_sym, array_sort_perm.
          - eapply Permutation_in; [|exact H]. apply array_sort_perm. }
        destruct (deliver_loop gs w Hw) as (w' & E & S & _).
        { intros n H. apply Hin in H. split; [now apply Hn|].
          apply In_get_some. apply filter_In in H. tauto. }
        exists w'. split; [exact E|]. rewrite S.
        apply mark_keys_due; [exact Hw|].
        intros key. rewrite in_map_iff. split.
        + intros (n & Hid & H). apply Hin in H. apply filter_In in H.
          exists n. tauto.
        + intros (n & H & D & Hid). exists n. split; [assumption|].
          apply Hin. apply filter_In. auto. }
    destruct Hbody as (w' & E & S).
    unfold Part000.checkAndTriggerNotifications, try_catch. rewrite E.
    split; [reflexivity|exact S].
  - unfold Part001.checkAndTriggerNotifications, bind,
      getScheduledNotifications, Date_now.
    destruct (check_loop (now w) (notifications w) w Hw eq_refl)
      as (w' & E & S & _).
    { intros n H D. split.
      - apply Hn. apply filter_In. auto.
      - now apply In_get_some. }
    rewrite E. split; [reflexivity|]. cbn [fst]. rewrite S.
    apply mark_keys_due; [exact Hw|].
    intros key. rewrite in_map_iff. split.
    + intros (n & Hid & H). apply filter_In in H. exists n. tauto.
    + intros (n & H & D & Hid). exists n. split; [assumption|].
      apply filter_In. auto.
Qed.

Lemma pass_marks_witness :
  notifications
    (fst (Part000.checkAndTriggerNotifications
            (example_world [example_notification "a" 1000;
                            example_notification "b" 9000] [] 5000)))
  = [delivered_notification; example_notification "b" 9000]
  /\ notifications
       (fst (Part001.checkAndTriggerNotifications
               (example_world [example_notification "a" 1000;
                               example_notification "b" 9000] [] 5000)))
     = [delivered_notification; example_notification "b" 9000].
Proof.
  destruct (pass_marks_exactly_the_due
              (example_world [example_notification "a" 1000;
                              example_notification "b" 9000] [] 5000))
    as [[_ H0] [_ H1]].
  - reflexivity.
  - intros n [<-|[]]. reflexivity.
  - rewrite H0, H1. split; reflexivity.
Defined.

(** ** Transitions of the world, by the part they touch *)

Section Frames.
Variable R : World -> World -> Prop.
Hypothesis R_refl : forall w, R w w.
Hypothesis R_trans : forall a b c, R a b -> R b c -> R a c.
Hypothesis R_store : forall w s, R w (with_notifications s w).
Hypothesis R_uuid : forall w k, R w (with_uuid_count k w).
Hypothesis R_console : forall w l, R w (with_console l w).
Hypothesis R_prompt : forall w,
  permission w = default -> R w (with_permission (prompt_answer w) w).
Hypothesis R_show : forall w a,
  permission w = granted -> R w (with_shown (shown w ++ [a]) w).
Hypothesis R_scheduler : forall w s, R w (with_scheduler s w).

Lemma frames_try_catch c msg : respects R c -> respects R (try_catch c msg).
Proof.
  intros Hc w. unfold try_catch. specialize (Hc w).
  destruct (c w) as [w' [a|e|]]; simpl in *; auto.
  eapply R_trans; [exact Hc|]. apply R_console.
Qed.

Lemma frames_console_log msg : respects R (console_log msg).
Proof. intros w. apply R_console. Qed.

Lemma frames_showNotification t b ts ns o :
  respects R (showNotification t b ts ns o).
Proof.
  intros w. unfold showNotification, bind, requestNotificationPermission.
  destruct (permission w) eqn:P; simpl.
  - destruct (prompt_answer w) eqn:A; simpl.
    + eapply R_trans; [apply (R_prompt w P)|]. rewrite A. apply R_console.
    + eapply R_trans; [apply (R_prompt w P)|]. rewrite A.
      apply (R_show (with_permission granted w)). reflexivity.
    + eapply R_trans; [apply (R_prompt w P)|]. rewrite A. apply R_console.
  - now apply R_show.
  - apply R_console.
Qed.

Lemma frames_scheduleNotification task t b time options :
  respects R (scheduleNotification task t b time options).
Proof.
  intros w. unfold scheduleNotification, bind, randomUUID, Date_now, store_add.
  simpl. unfold Store.add. simpl.
  destruct (Store.get (uuids w (uuid_count w)) (notifications w)) eqn:E; simpl.
  - apply R_uuid.
  - eapply R_trans; [apply (R_uuid w (S (uuid_count w)))|].
    apply (R_store (with_uuid_count (S (uuid_count w)) w)).
Qed.

Lemma frames_markNotificationTriggered key :
  respects R (markNotificationTriggered key).
Proof.
  intros w. unfold markNotificationTriggered, bind, store_get, store_put, reject.
  simpl. destruct (Store.get key (notifications w)); simpl.
  - apply R_store.
  - apply R_refl.
Qed.

Lemma frames_scheduleRecurringNotification n :
  respects R (scheduleRecurringNotification n).
Proof.
  intros w. unfold scheduleRecurringNotification.
  destruct (recurringPattern n); [|apply R_refl].
  apply (respects_bind R R_trans).
  - apply frames_scheduleNotification.
  - intros; apply R_refl.
Qed.

Lemma frames_trigger n : respects R (Part000.trigger n).
Proof.
  unfold Part000.trigger. apply (respects_then R R_trans).
  - apply frames_markNotificationTriggered.
  - intros _. destruct (recurring n).
    + apply frames_scheduleRecurringNotification.
    + apply (respects_ret R R_refl).
Qed.

Lemma frames_show_group g : respects R (Part000.show_group g).
Proof.
  unfold Part000.show_group.
  destruct g as [|n [|m g]]; apply frames_showNotification.
Qed.

Lemma frames_check_body : respects R Part000.checkAndTriggerNotifications_body.
Proof.
  intros w. unfold Part000.checkAndTriggerNotifications_body,
    getScheduledNotifications, Date_now, bind. simpl.
  destruct (_ =? _)%nat; [apply R_refl|].
  apply (respects_for_of R R_refl R_trans). intros g _. apply (respects_then R R_trans).
  - apply frames_show_group.
  - intros _. apply (respects_for_of R R_refl R_trans). intros n _. apply frames_trigger.
Qed.

Lemma frames_check000 : respects R Part000.checkAndTriggerNotifications.
Proof. apply frames_try_catch, frames_check_body. Qed.

Lemma frames_check001 : respects R Part001.checkAndTriggerNotifications.
Proof.
  intros w. unfold Part001.checkAndTriggerNotifications,
    getScheduledNotifications, Date_now, bind. simpl.
  apply (respects_for_of R R_refl R_trans). intros n _. unfold Part001.check.
  destruct (is_due (now w) n); [|apply (respects_ret R R_refl)].
  apply (respects_then R R_trans); [apply frames_showNotification|intros _].
  apply (respects_then R R_trans); [apply frames_markNotificationTriggered|intros _].
  destruct (truthy_bool _).
  - apply frames_scheduleRecurringNotification.
  - apply (respects_ret R R_refl).
Qed.

Lemma frames_scheduleTaskReminder budget : forall task t time rep interval options,
  respects R (scheduleTaskReminder budget task t time rep interval options).
Proof.
  induction budget as [|budget IH]; intros task t time rep interval options w.
  - apply R_refl.
  - simpl. unfold bind at 1, Date_now. simpl.
    destruct (time <=? now w); [apply frames_console_log|].
    apply (respects_bind R R_trans); [apply frames_scheduleNotification|].
    intros _ w' _. destruct rep; [|apply R_refl].
    destruct interval; [|apply R_refl].
    next_occurrence; [apply IH|apply R_refl].
Qed.

Lemma frames_snoozeNotification task minutes :
  respects R (snoozeNotification task minutes).
Proof.
  unfold snoozeNotification. apply frames_try_catch.
  intros w. unfold bind at 1, getTasks. simpl.
  destruct (find _ (tasks w)) as [found|]; [|apply R_refl].
  unfold bind at 1, getScheduledNotifications at 1. simpl.
  unfold bind at 1, Date_now. simpl.
  apply (respects_bind R R_trans).
  - apply frames_scheduleNotification.
  - intros _ w' _. unfold bind, getScheduledNotifications. simpl.
    destruct (find _ (notifications w')) as [n|]; simpl.
    + apply R_store.
    + apply R_refl.
Qed.

Lemma frames_run op w : (forall ms, op <> OpElapse ms) -> R w (run op w).
Proof.
  intros Hop. destruct op; simpl.
  - apply frames_scheduleNotification.
  - apply frames_markNotificationTriggered.
  - apply R_store.
  - apply frames_showNotification.
  - apply frames_check000.
  - apply frames_check001.
  - apply frames_snoozeNotification.
  - apply frames_scheduleTaskReminder.
  - unfold Part000.startNotificationScheduler.
    destruct (setInterval 60000 (scheduler w)) as [s1 h].
    set (w1 := fst (Part000.checkAndTriggerNotifications (with_scheduler s1 w))).
    destruct (new_closure (scheduler w1)) as [s2 k].
    eapply R_trans; [apply (R_scheduler w s1)|].
    eapply R_trans; [apply frames_check000|].
    apply R_scheduler.
  - unfold Part000.stopNotificationScheduler.
    destruct (truthy_handle _); [apply R_scheduler|apply R_refl].
  - unfold Part001.startNotificationScheduler.
    destruct (setInterval 120000 _) as [s1 h].
    set (w1 := fst (Part001.checkAndTriggerNotifications _)).
    destruct (new_closure (scheduler w1)) as [s2 k].
    eapply R_trans; [apply (R_scheduler w (set_notificationInterval (Some h) s1))|].
    eapply R_trans; [apply frames_check001|].
    apply R_scheduler.
  - unfold Part001.stopNotificationScheduler. apply R_scheduler.
  - now elim (Hop ms).
Qed.
End Frames.

(** ** An evaluation pass, seen from the screen *)

(** The second evaluator does to a due record what the first one does to a
    member of a group. *)
Lemma check_as_trigger current n :
  forall w,
    Part001.check current n w
    = if is_due current n
      then (showNotification (title n) (body n) [taskId n] []
              (mkShowOptions (priority n) (category n) (taskDueDate n)
                 (snoozeCount n) (isGrouped n) None) ;;;
            Part000.trigger n) w
      else (w, Resolved tt).
Proof.
  intros w. unfold Part001.check.
  destruct (is_due current n); [|reflexivity].
  unfold bind at 1 3.
  destruct (showNotification _ _ _ _ _ w) as [w1 [[]|e|]]; try reflexivity.
  unfold Part000.trigger, bind.
  destruct (markNotificationTriggered (id n) w1) as [w2 [[]|e|]]; try reflexivity.
  unfold recurring. destruct (truthy_bool (isRecurring n)); [|reflexivity].
  unfold scheduleRecurringNotification.
  destruct (recurringPattern n); reflexivity.
Qed.

Lemma same_screen_refl w : same_screen w w.
Proof. now split. Qed.

Lemma same_screen_trans a b c :
  same_screen a b -> same_screen b c -> same_screen a c.
Proof. unfold same_screen. intros [? ?] [? ?]. split; congruence. Qed.

Lemma trigger_same_screen n w : same_screen w (fst (Part000.trigger n w)).
Proof.
  apply (frames_trigger same_screen same_screen_refl same_screen_trans);
    intros; split; reflexivity.
Qed.

(** With fresh identifiers to come the inner loop runs to its end, and
    leaves the screen alone. *)
Lemma trigger_loop_fresh g w :
  fresh_uuids w ->
  (forall n, In n g -> Store.get (id n) (notifications w) <> None) ->
  exists w',
    for_of g Part000.trigger w = (w', Resolved tt)
    /\ fresh_uuids w'
    /\ (forall key, Store.get key (notifications w) <> None ->
                    Store.get key (notifications w') <> None)
    /\ same_screen w w'.
Proof.
  intros Hf Hg.
  set (Inv := fun w0 => fresh_uuids w0
                /\ (forall key, Store.get key (notifications w) <> None ->
                                Store.get key (notifications w0) <> None)
                /\ same_screen w w0).
  destruct (for_of_resolves Inv Part000.trigger g) with (w := w)
    as (w' & E & H).
  - intros n Hn w0 (Hf0 & Hk0 & Hs0).
    destruct (trigger_resolves n w0 Hf0) as (w1 & E1 & Hf1 & Hk1).
    + apply Hk0, Hg, Hn.
    + exists w1. split; [exact E1|]. split; [exact Hf1|]. split.
      * intros key Hkey. apply Hk1, Hk0, Hkey.
      * eapply same_screen_trans; [exact Hs0|].
        pose proof (trigger_same_screen n w0) as Hs. now rewrite E1 in Hs.
  - split; [exact Hf|]. split; [auto|apply same_screen_refl].
  - exists w'. split; [exact E|exact H].
Qed.

Lemma show_group_granted g w :
  permission w = granted ->
  exists a,
    Part000.show_group g w = (with_shown (shown w ++ [a]) w, Resolved tt)
    /\ shown_notificationIds a = map id g
    /\ shown_taskIds a = map taskId g.
Proof.
  intros P. unfold Part000.show_group.
  destruct g as [|n [|m g]];
    unfold showNotification, bind, requestNotificationPermission; rewrite P;
    eexists; (split; [reflexivity|split; reflexivity]).
Qed.

Lemma deliver_loop_granted gs : forall w,
  permission w = granted -> fresh_uuids w ->
  (forall n, In n (List.concat gs) -> Store.get (id n) (notifications w) <> None) ->
  exists w' alerts,
    for_of gs deliver w = (w', Resolved tt)
    /\ shown w' = shown w ++ alerts
    /\ map shown_notificationIds alerts = map (map id) gs
    /\ map shown_taskIds alerts = map (map taskId) gs.
Proof.
  induction gs as [|g gs IH]; intros w P Hf Hg.
  - exists w, []. simpl. now rewrite app_nil_r.
  - destruct (show_group_granted g w P) as (a & E1 & A1 & A2).
    set (w1 := with_shown (shown w ++ [a]) w) in *.
    destruct (trigger_loop_fresh g w1) as (w2 & E2 & Hf2 & Hk2 & Hs2 & Hp2).
    + exact Hf.
    + intros n Hn. apply (Hg n). simpl. apply in_or_app. now left.
    + destruct (IH w2) as (w3 & alerts & E3 & S3 & B1 & B2).
      * now rewrite Hp2.
      * exact Hf2.
      * intros n Hn. apply Hk2. apply (Hg n). simpl. apply in_or_app. now right.
      * exists w3, (a :: alerts). split; [|split; [|split]].
        -- cbn [for_of]. unfold bind at 1. unfold deliver at 1. unfold bind at 1.
           rewrite E1, E2. exact E3.
        -- rewrite S3, Hs2. simpl. now rewrite <- app_assoc.
        -- simpl. now rewrite A1, B1.
        -- simpl. now rewrite A2, B2.
Qed.

Lemma check_loop_granted current xs : forall w,
  permission w = granted -> fresh_uuids w ->
  (forall n, In n xs -> Store.get (id n) (notifications w) <> None) ->
  exists w' alerts,
    for_of xs (Part001.check current) w = (w', Resolved tt)
    /\ shown w' = shown w ++ alerts
    /\ map shown_taskIds alerts
       = map (fun n => [taskId n]) (filter (is_due current) xs)
    /\ map shown_title alerts = map title (filter (is_due current) xs).
Proof.
  induction xs as [|n xs IH]; intros w P Hf Hg.
  - exists w, []. simpl. now rewrite app_nil_r.
  - cbn [for_of filter]. unfold bind at 1. rewrite check_as_trigger.
    destruct (is_due current n) eqn:D.
    + unfold bind at 1.
      unfold showNotification at 1, bind at 1, requestNotificationPermission at 1.
      rewrite P.
      match goal with
      | |- context [with_shown (shown w ++ [?x]) w] => set (a := x)
      end.
      set (w1 := with_shown (shown w ++ [a]) w).
      destruct (trigger_resolves n w1) as (w2 & E2 & Hf2 & Hk2).
      * exact Hf.
      * apply (Hg n). now left.
      * pose proof (trigger_same_screen n w1) as Hs. rewrite E2 in Hs.
        destruct Hs as [Hs2 Hp2]. cbn [fst] in Hs2, Hp2.
        destruct (IH w2) as (w3 & alerts & E3 & S3 & B1 & B2).
        -- now rewrite Hp2.
        -- exact Hf2.
        -- intros m Hm. apply Hk2. apply (Hg m). now right.
        -- exists w3, (a :: alerts). split; [|split; [|split]].
           ++ rewrite E2. exact E3.
           ++ rewrite S3, Hs2. simpl. now rewrite <- app_assoc.
           ++ simpl. now rewrite B1.
           ++ simpl. now rewrite B2.
    + apply IH; auto. intros m Hm. apply Hg. now right.
Qed.

(** With permission granted and fresh identifiers to come, a pass runs to
    its end and presents, in this order, one alert for each group of the
    first variant, carrying the ids and tasks of the members of the group,
    and one alert for each due record, in key order, in the second. *)
Theorem every_group_gets_one_alert :
  forall w,
    permission w = granted -> fresh_uuids w ->
    (exists alerts,
       snd (Part000.checkAndTriggerNotifications w) = Resolved tt
       /\ shown (fst (Part000.checkAndTriggerNotifications w)) = shown w ++ alerts
       /\ map shown_notificationIds alerts
          = map (map id) (groupNotificationsByTimeAndPriority (due_in w) 180000)
       /\ map shown_taskIds alerts
          = map (map taskId) (groupNotificationsByTimeAndPriority (due_in w) 180000))
    /\ (exists alerts,
          snd (Part001.checkAndTriggerNotifications w) = Resolved tt
          /\ shown (fst (Part001.checkAndTriggerNotifications w)) = shown w ++ alerts
          /\ map shown_taskIds alerts = map (fun n => [taskId n]) (due_in w)
          /\ map shown_title alerts = map title (due_in w)).
Proof.
  intros w P Hf. split.
  - assert (Hbody : exists w' alerts,
              Part000.checkAndTriggerNotifications_body w = (w', Resolved tt)
              /\ shown w' = shown w ++ alerts
              /\ map shown_notificationIds alerts
                 = map (map id) (groupNotificationsByTimeAndPriority (due_in w) 180000)
              /\ map shown_taskIds alerts
                 = map (map taskId) (groupNotificationsByTimeAndPriority (due_in w) 180000)).
    { unfold Part000.checkAndTriggerNotifications_body, bind,
        getScheduledNotifications, Date_now.
      fold (due_in w).
      destruct (List.length (due_in w) =? 0)%nat eqn:L.
      - apply Nat.eqb_eq, length_zero_iff_nil in L. rewrite L.
        exists w, []. simpl. now rewrite app_nil_r.
      - apply deliver_loop_granted; [exact P|exact Hf|].
        intros n Hn. apply In_get_some.
        rewrite grouping_concat in Hn.
        eapply Permutation_in in Hn; [|symmetry; apply array_sort_perm].
        apply filter_In in Hn. tauto. }
    destruct Hbody as (w' & alerts & E & H).
    exists alerts. unfold Part000.checkAndTriggerNotifications, try_catch.
    rewrite E. split; [reflexivity|exact H].
  - unfold Part001.checkAndTriggerNotifications, bind,
      getScheduledNotifications, Date_now.
    destruct (check_loop_granted (now w) (notifications w) w P Hf)
      as (w' & alerts & E & H).
    + intros n Hn. now apply In_get_some.
    + exists alerts. rewrite E. split; [reflexivity|exact H].
Qed.

Lemma every_group_witness :
  exists alerts,
    shown (fst (Part000.checkAndTriggerNotifications unary_world)) = alerts
    /\ map shown_notificationIds alerts = [["b"]].
Proof.
  destruct (every_group_gets_one_alert unary_world eq_refl unary_world_fresh)
    as [(alerts & _ & S & N & _) _].
  exists alerts. split; [exact S|]. rewrite N. reflexivity.
Defined.

(** ** Without permission *)

Lemma silent_refl w : silent w w.
Proof. intros P. now split. Qed.

Lemma silent_trans a b c : silent a b -> silent b c -> silent a c.
Proof.
  intros H1 H2 P. destruct (H1 P) as [P1 S1]. destruct (H2 P1) as [P2 S2].
  split; congruence.
Qed.

Lemma silent_frame w w' :
  permission w' = permission w -> shown w' = shown w -> silent w w'.
Proof. intros E1 E2 P. split; congruence. Qed.

Lemma run_silent op w : silent w (run op w).
Proof.
  destruct op;
    try (apply (frames_run silent silent_refl silent_trans);
         [ intros; now apply silent_frame
         | intros; now apply silent_frame
         | intros; now apply silent_frame
         | intros w0 P0 P1; congruence
         | intros w0 a0 P0 P1; congruence
         | intros; now apply silent_frame
         | intros; discriminate ]).
  now apply silent_frame.
Qed.

Lemma run_all_silent ops : forall w, silent w (run_all ops w).
Proof.
  induction ops as [|op ops IH]; intros w; simpl.
  - apply silent_refl.
  - eapply silent_trans; [apply run_silent|apply IH].
Qed.

(** A pass of the second evaluator that ran to its end has triggered what
    it found due. *)
Lemma completed_pass001_triggers_the_due w w' :
  wf w ->
  Part001.checkAndTriggerNotifications w = (w', Resolved tt) ->
  forall n, In n (due_in w) -> triggered_in (id n) (notifications w').
Proof.
  intros Hw. unfold Part001.checkAndTriggerNotifications, bind,
    getScheduledNotifications, Date_now.
  intros E n Hn. apply filter_In in Hn as [Hn D].
  assert (Hstay : forall key x w0,
            stays_triggered key w0 (fst (Part001.check (now w) x w0))).
  { intros key x w0. rewrite check_as_trigger.
    destruct (is_due (now w) x); [|apply stays_triggered_refl].
    apply respects_then.
    - apply stays_triggered_trans.
    - apply respects_showNotification.
      + apply stays_triggered_refl.
      + apply stays_triggered_trans.
      + apply stays_triggered_quiet.
    - intros _. apply trigger_stays. }
  destruct (for_of_establishes wf
              (fun x w0 => is_due (now w) x = true ->
                           triggered_in (id x) (notifications w0))
              (Part001.check (now w))) with (5 := E) as [_ Hall]; auto.
  - intros x w0 Hw0. now apply (Hstay "" x w0).
  - intros x w0 w0' Hw0 Ex Dx. rewrite check_as_trigger, Dx in Ex.
    unfold bind in Ex.
    destruct (showNotification_resolves (title x) (body x) [taskId x] []
                (mkShowOptions (priority x) (category x) (taskDueDate x)
                   (snoozeCount x) (isGrouped x) None) w0) as (ws & Es & Ss).
    rewrite Es in Ex. apply (trigger_establishes x ws); [|exact Ex].
    unfold wf. now rewrite Ss.
  - intros x y w0 Hw0 Hx Dx. now apply (Hstay (id x) y w0), Hx.
Qed.

(** Once permission is denied nothing is ever presented again and nobody is
    asked, whatever is called; the evaluators still run to their end and
    mark every due record as triggered, so these reminders are never
    presented at all. *)
Theorem denied_permission_consumes_the_due :
  forall w,
    permission w = denied ->
    (forall ops, shown (run_all ops w) = shown w
                 /\ permission (run_all ops w) = denied)
    /\ (wf w -> fresh_uuids w ->
        (snd (Part000.checkAndTriggerNotifications w) = Resolved tt
         /\ forall n, In n (due_in w) ->
              triggered_in (id n)
                (notifications (fst (Part000.checkAndTriggerNotifications w))))
        /\ (snd (Part001.checkAndTriggerNotifications w) = Resolved tt
            /\ forall n, In n (due_in w) ->
                 triggered_in (id n)
                   (notifications (fst (Part001.checkAndTriggerNotifications w))))).
Proof.
  intros w P. split.
  - intros ops. destruct (run_all_silent ops w P). auto.
  - intros Hw Hf. split.
    + pose proof (fresh_uuids_pass_completes w Hf) as Hc.
      destruct (Part000.checkAndTriggerNotifications_body w) as [w' o] eqn:E.
      simpl in Hc. subst o.
      unfold Part000.checkAndTriggerNotifications, try_catch. rewrite E.
      split; [reflexivity|].
      apply (completed_pass_triggers_the_due w w' Hw E).
    + assert (Hc : exists w', Part001.checkAndTriggerNotifications w
                              = (w', Resolved tt)).
      { unfold Part001.checkAndTriggerNotifications, bind,
          getScheduledNotifications, Date_now.
        set (Inv := fun w0 => fresh_uuids w0
                      /\ forall n, In n (notifications w) ->
                                   Store.get (id n) (notifications w0) <> None).
        destruct (for_of_resolves Inv (Part001.check (now w)) (notifications w))
          with (w := w) as (w' & E & _).
        - intros n Hn w0 [Hf0 Hk0]. rewrite check_as_trigger.
          destruct (is_due (now w) n); [|exists w0; split; [reflexivity|now split]].
          unfold bind.
          destruct (showNotification_keeps (title n) (body n) [taskId n] []
                      (mkShowOptions (priority n) (category n) (taskDueDate n)
                         (snoozeCount n) (isGrouped n) None) w0)
            as (ws & -> & En & Eu & Ec).
          assert (Hfs : fresh_uuids ws).
          { destruct Hf0 as [H1 H2]. split.
            - intros i Hi. rewrite En, Eu. apply H1. now rewrite <- Ec.
            - intros i j Hi Hj. rewrite Eu. apply H2; [now rewrite <- Ec|exact Hj]. }
          destruct (trigger_resolves n ws Hfs) as (w2 & E2 & Hf2 & Hk2).
          + rewrite En. now apply Hk0.
          + exists w2. split; [exact E2|]. split; [exact Hf2|].
            intros m Hm. apply Hk2. rewrite En. now apply Hk0.
        - split; [exact Hf|]. intros n Hn. now apply In_get_some.
        - now exists w'. }
      destruct Hc as (w' & E). rewrite E. split; [reflexivity|].
      apply (completed_pass001_triggers_the_due w w' Hw E).
Qed.

Lemma denied_permission_witness :
  shown (run_all [OpEvaluate000; OpElapse 60000; OpEvaluate001] blocked_world) = []
  /\ triggered_in "b"
       (notifications (fst (Part000.checkAndTriggerNotifications blocked_world))).
Proof.
  destruct (denied_permission_consumes_the_due blocked_world eq_refl) as [H1 H2].
  split.
  - apply (proj1 (H1 _)).
  - destruct (H2 eq_refl unary_world_fresh) as [[_ H] _].
    apply (H chain_first). now left.
Defined.

(** ** Many starts and stops *)

Lemma run_scheduler op w :
  match op with
  | OpStart000 | OpStop000 | OpStart001 | OpStop001 => True
  | _ => scheduler (run op w) = scheduler w
  end.
Proof.
  set (R := fun w w' : World => scheduler w' = scheduler w).
  assert (Hr : forall w, R w w) by reflexivity.
  assert (Ht : forall a b c, R a b -> R b c -> R a c)
    by (unfold R; intros; congruence).
  assert (Hq : forall w w', quiet w w' -> R w w') by (intros a b (_ & _ & H); exact H).
  destruct op; simpl; auto.
  - apply (respects_scheduleNotification R); auto; reflexivity.
  - apply (respects_markNotificationTriggered R); auto; reflexivity.
  - apply (respects_showNotification R); auto.
  - apply check000_scheduler.
  - apply check001_scheduler.
  - apply (respects_snoozeNotification R); auto; reflexivity.
  - apply (respects_scheduleTaskReminder R); auto; reflexivity.
Qed.

Lemma start001_one_timer w :
  one_timer (scheduler w) -> one_timer (scheduler (Part001.startNotificationScheduler w)).
Proof.
  intros [Hw Hn]. rewrite start001_scheduler.
  destruct (scheduler w) as [iv lh ls nc wi ni wc]; simpl in *. subst wi.
  destruct ni as [h|].
  - destruct Hn as [Hh ->]. destruct h as [|h]; [now elim Hh|].
    unfold one_timer, clearInterval. scheduler_compute.
    unfold addEventListener; cbn -[existsb Listener_eqb].
    repeat match goal with
           | |- context [if ?b then _ else _] => destruct b
           end; simpl; auto.
  - subst iv. unfold one_timer.
    unfold addEventListener; cbn -[existsb Listener_eqb].
    repeat match goal with
           | |- context [if ?b then _ else _] => destruct b
           end; simpl; auto.
Qed.

Lemma stop001_one_timer w :
  one_timer (scheduler w) ->
  one_timer (scheduler (Part001.stopNotificationScheduler w))
  /\ intervals (scheduler (Part001.stopNotificationScheduler w)) = [].
Proof.
  intros [Hw Hn]. unfold Part001.stopNotificationScheduler, Part001.cleanup.
  destruct (scheduler w) as [iv lh ls nc wi ni wc]; simpl in *. subst wi.
  destruct ni as [h|].
  - destruct Hn as [Hh ->]. destruct h as [|h]; [now elim Hh|].
    unfold one_timer, clearInterval. scheduler_compute.
    destruct wc; scheduler_compute; auto.
  - subst iv. unfold one_timer. simpl. destruct wc; simpl; auto.
Qed.

Lemma run_one_timer op w :
  op <> OpStart000 -> one_timer (scheduler w) -> one_timer (scheduler (run op w)).
Proof.
  intros Hop H. pose proof (run_scheduler op w) as Hs.
  destruct op; try (rewrite Hs; exact H).
  - now elim Hop.
  - simpl. unfold Part000.stopNotificationScheduler.
    destruct H as [Hw Hn]. rewrite Hw. simpl. now split.
  - now apply start001_one_timer.
  - now apply stop001_one_timer.
Qed.

Lemma idle_one_timer s : idle s -> one_timer s.
Proof. intros (Hi & _ & Hw & Hn & _). unfold one_timer. now rewrite Hw, Hn. Qed.

(** Whatever the sequence of calls, as long as the first variant's start is
    not among them, the second variant has at most one live timer: the one
    whose handle the module variable holds, none when it holds none; and a
    stop leaves no live timer. *)
Theorem second_variant_runs_at_most_one_timer :
  forall ops w,
    idle (scheduler w) -> ~ In OpStart000 ops ->
    let s := scheduler (run_all ops w) in
    (List.length (intervals s) <= 1)%nat
    /\ (forall h, notificationInterval s = Some h -> intervals s = [(h, 120000)])
    /\ (notificationInterval s = None -> intervals s = [])
    /\ intervals (scheduler (run OpStop001 (run_all ops w))) = [].
Proof.
  intros ops w Hi Hops.
  assert (H : one_timer (scheduler (run_all ops w))).
  { apply idle_one_timer in Hi. revert w Hi.
    induction ops as [|op ops IH]; intros w Hi; simpl; [exact Hi|].
    apply IH.
    - intros Hin. apply Hops. now right.
    - apply run_one_timer; [|exact Hi]. intros ->. apply Hops. now left. }
  cbv zeta. split; [|split; [|split]].
  - destruct H as [_ H].
    destruct (notificationInterval (scheduler (run_all ops w))).
    + destruct H as [_ ->]. simpl. lia.
    + rewrite H. simpl. lia.
  - intros h E. destruct H as [_ H]. rewrite E in H. tauto.
  - intros E. destruct H as [_ H]. now rewrite E in H.
  - simpl. now apply stop001_one_timer.
Qed.

Lemma one_timer_witness :
  intervals (scheduler (run_all [OpStart001; OpStart001; OpEvaluate001; OpStart001]
                          (example_world [] [] 0)))
  = [(3%nat, 120000)].
Proof.
  destruct (second_variant_runs_at_most_one_timer
              [OpStart001; OpStart001; OpEvaluate001; OpStart001]
              (example_world [] [] 0)) as (_ & H & _).
  - repeat split.
  - simpl. intros [H|[H|[H|[H|[]]]]]; discriminate H.
  - apply (H 3%nat). reflexivity.
Defined.

(** One cycle from a scheduler with nothing attached. *)
Lemma cycle001_idle w : idle (scheduler w) -> idle (scheduler (cycle001 w)).
Proof.
  intros (Hi & Hl & Hw & Hn & Hc).
  unfold cycle001, Part001.stopNotificationScheduler, Part001.cleanup.
  rewrite start001_scheduler.
  destruct (scheduler w) as [iv lh ls nc wi ni wc]; simpl in *. subst.
  unfold clearInterval, idle. scheduler_compute. auto.
Qed.

(** A start followed by a stop, any number of times over, leaves the second
    variant with no timer, no listener and no handle kept. *)
Theorem second_variant_cycles_leave_nothing :
  forall n w, idle (scheduler w) -> idle (scheduler (Nat.iter n cycle001 w)).
Proof.
  induction n as [|n IH]; intros w Hi; simpl; [exact Hi|].
  apply cycle001_idle, IH, Hi.
Qed.

Lemma second_variant_cycles_witness :
  listeners (scheduler (Nat.iter 3 cycle001 (example_world [] [] 0))) = []
  /\ intervals (scheduler (Nat.iter 3 cycle001 (example_world [] [] 0))) = [].
Proof.
  destruct (second_variant_cycles_leave_nothing 3 (example_world [] [] 0))
    as (Hi & Hl & _).
  - repeat split.
  - split; assumption.
Defined.

Lemma existsb_leaked_focus k n :
  existsb (Listener_eqb focus_listener) (leaked k n) = false.
Proof. revert k. induction n as [|n IH]; intros k; simpl; auto. Qed.

Lemma existsb_leaked_visibility j k n :
  (j < k)%nat \/ (k + n <= j)%nat ->
  existsb (Listener_eqb (visibility_listener j)) (leaked k n) = false.
Proof.
  revert k. induction n as [|n IH]; intros k H; [reflexivity|].
  cbn [leaked existsb]. rewrite IH by lia.
  unfold Listener_eqb, visibility_listener. cbn -[String.eqb Nat.eqb].
  replace (Nat.eqb j k) with false by (symmetry; apply Nat.eqb_neq; lia).
  now rewrite andb_false_r.
Qed.

Lemma leaked_snoc k n : leaked k n ++ [visibility_listener (k + n)] = leaked k (S n).
Proof.
  revert k. induction n as [|n IH]; intros k; simpl.
  - now rewrite Nat.add_0_r.
  - f_equal. rewrite <- Nat.add_succ_comm. apply (IH (S k)).
Qed.

Lemma length_leaked k n : List.length (leaked k n) = n.
Proof. revert k. induction n as [|n IH]; intros k; simpl; auto. Qed.

Lemma addEventListener_listeners l s :
  addEventListener l s
  = with_listeners (if existsb (Listener_eqb l) (listeners s)
                    then listeners s else listeners s ++ [l]) s.
Proof.
  unfold addEventListener. destruct s as [iv lh ls nc wi ni wc]. simpl.
  now destruct (existsb (Listener_eqb l) ls).
Qed.

Lemma stop000_scheduler w :
  scheduler (Part000.stopNotificationScheduler w)
  = match truthy_handle (window_notificationInterval (scheduler w)) with
    | Some intervalId =>
        set_window_notificationInterval None (clearInterval intervalId (scheduler w))
    | None => scheduler w
    end.
Proof.
  unfold Part000.stopNotificationScheduler.
  now destruct (truthy_handle _).
Qed.

(** One cycle, from a scheduler without a timer. *)
Lemma cycle000_scheduler w :
  intervals (scheduler w) = [] ->
  let s := scheduler w in
  let ls1 := if existsb (Listener_eqb (visibility_listener (next_closure s)))
                  (listeners s)
             then listeners s
             else listeners s ++ [visibility_listener (next_closure s)] in
  let ls2 := if existsb (Listener_eqb focus_listener) ls1
             then ls1 else ls1 ++ [focus_listener] in
  scheduler (cycle000 w)
  = mkScheduler [] (S (last_handle s)) ls2 (S (next_closure s)) None
      (notificationInterval s) (window_notificationCleanup s).
Proof.
  intros Hi. unfold cycle000. rewrite stop000_scheduler.
  rewrite start000_scheduler. cbv zeta. rewrite !addEventListener_listeners.
  destruct (scheduler w) as [iv lh ls nc wi ni wc]. simpl in Hi. subst iv.
  unfold clearInterval. cbn -[Nat.eqb existsb Listener_eqb].
  rewrite succ_eqb_0. cbn -[Nat.eqb existsb Listener_eqb].
  rewrite Nat.eqb_refl. reflexivity.
Qed.

(** After [n] cycles from a scheduler that was never started. *)
Lemma cycles000_scheduler n : forall w,
  idle (scheduler w) ->
  let k := next_closure (scheduler w) in
  let s := scheduler (Nat.iter n cycle000 w) in
  intervals s = []
  /\ next_closure s = (k + n)%nat
  /\ listeners s
     = match n with
       | O => []
       | S n' => visibility_listener k :: focus_listener :: leaked (S k) n'
       end.
Proof.
  induction n as [|n IH]; intros w Hi k s.
  - destruct Hi as (Hi & Hl & _). subst s k. simpl.
    rewrite Nat.add_0_r. auto.
  - destruct (IH w Hi) as (Ei & Ek & El). fold k in Ek, El.
    subst s.
    change (Nat.iter (S n) cycle000 w) with (cycle000 (Nat.iter n cycle000 w)).
    set (w' := Nat.iter n cycle000 w) in *.
    rewrite (cycle000_scheduler w' Ei). cbv zeta. cbn [intervals next_closure listeners].
    rewrite Ek, El. split; [reflexivity|]. split; [lia|].
    destruct n as [|n].
    + rewrite Nat.add_0_r. reflexivity.
    + cbn [existsb].
      rewrite (existsb_leaked_visibility (k + S n) (S k) n) by lia.
      replace (Listener_eqb (visibility_listener (k + S n)) (visibility_listener k))
        with false.
      2:{ unfold Listener_eqb, visibility_listener. cbn -[String.eqb Nat.eqb].
          replace (Nat.eqb (k + S n) k) with false
            by (symmetry; apply Nat.eqb_neq; lia).
          now rewrite andb_false_r. }
      replace (Listener_eqb (visibility_listener (k + S n)) focus_listener)
        with false by reflexivity.
      cbn [orb].
      replace (existsb (Listener_eqb focus_listener)
                 ((visibility_listener k :: focus_listener :: leaked (S k) n)
                  ++ [visibility_listener (k + S n)]))
        with true.
      2:{ symmetry. apply existsb_exists. exists focus_listener.
          split; [|reflexivity]. apply in_or_app. left. right. now left. }
      cbn [app]. f_equal. f_equal.
      replace (k + S n)%nat with (S k + n)%nat by lia.
      apply leaked_snoc.
Qed.

(** A start followed by a stop, [n] times over, leaves the first variant
    with no live timer but with the focus listener and one visibility
    listener for each cycle still attached: [n + 1] listeners. *)
Theorem first_variant_cycles_leak_listeners :
  forall n w,
    idle (scheduler w) ->
    let s := scheduler (Nat.iter n cycle000 w) in
    intervals s = []
    /\ List.length (listeners s) = match n with O => O | S _ => S n end
    /\ (forall i, (i < n)%nat ->
          In (visibility_listener (next_closure (scheduler w) + i)) (listeners s)).
Proof.
  intros n w Hi s.
  destruct (cycles000_scheduler n w Hi) as (Ei & _ & El). fold s in Ei, El.
  split; [exact Ei|]. rewrite El. destruct n as [|n].
  - split; [reflexivity|]. intros i Hlt. lia.
  - split; [simpl; now rewrite length_leaked|].
    intros i Hlt. destruct i as [|i].
    + rewrite Nat.add_0_r. now left.
    + right. right. clear - Hlt. 
      assert (H : forall m k j, (j < m)%nat -> In (visibility_listener (k + j)) (leaked k m)).
      { induction m as [|m IH]; intros k j Hj; [lia|]. simpl.
        destruct j as [|j]; [left; now rewrite Nat.add_0_r|].
        right. rewrite <- Nat.add_succ_comm. apply IH. lia. }
      replace (next_closure (scheduler w) + S i)%nat
        with (S (next_closure (scheduler w)) + i)%nat by lia.
      apply H. lia.
Qed.

Lemma first_variant_cycles_witness :
  intervals (scheduler (Nat.iter 3 cycle000 (example_world [] [] 0))) = []
  /\ List.length (listeners (scheduler (Nat.iter 3 cycle000 (example_world [] [] 0))))
     = 4%nat.
Proof.
  destruct (first_variant_cycles_leak_listeners 3 (example_world [] [] 0))
    as (Hi & Hl & _).
  - repeat split.
  - split; assumption.
Defined.

(** ** The extremes of grouping *)

Lemma walk_one_group tw anchor rest : forall cur,
  Forall (fun n => scheduledTime n - anchor <= tw) rest ->
  walk tw anchor cur rest = [cur ++ rest].
Proof.
  induction rest as [|n rest IH]; intros cur H; simpl.
  - now rewrite app_nil_r.
  - inversion H as [|? ? Hn Hrest]; subst.
    replace (scheduledTime n - anchor <=? tw) with true
      by (symmetry; now apply Z.leb_le).
    rewrite IH by assumption. now rewrite <- app_assoc.
Qed.

Lemma walk_singles tw : forall rest a,
  StronglySorted (fun x y => tw < scheduledTime y - scheduledTime x) (a :: rest) ->
  walk tw (scheduledTime a) [a] rest = map (fun n => [n]) (a :: rest).
Proof.
  induction rest as [|b rest IH]; intros a H; simpl; [reflexivity|].
  inversion H as [|? ? Hs Ha]; subst.
  inversion Ha as [|? ? Hb Hrest]; subst.
  replace (scheduledTime b - scheduledTime a <=? tw) with false
    by (symmetry; apply Z.leb_gt; lia).
  f_equal. now apply IH.
Qed.

(** Reminders whose times lie within the window of one another form one
    group, the sorted list; reminders of one priority that lie more than the
    window apart, each from each, form a group each. *)
Theorem grouping_extremes :
  forall l tw,
    (l <> [] ->
     (forall a b, In a l -> In b l -> scheduledTime a - scheduledTime b <= tw) ->
     groupNotificationsByTimeAndPriority l tw = [array_sort compareNotifications l])
    /\ (0 <= tw -> NoDup l ->
        (forall a b, In a l -> In b l -> a <> b ->
           rank a = rank b /\ tw < Z.abs (scheduledTime a - scheduledTime b)) ->
        groupNotificationsByTimeAndPriority l tw
        = map (fun n => [n]) (array_sort compareNotifications l)).
Proof.
  intros l tw.
  pose proof (array_sort_perm compareNotifications l) as HP.
  pose proof (sorted_before l) as HS.
  rewrite grouping_walk. split.
  - intros Hne Hclose.
    destruct (array_sort compareNotifications l) as [|n rest] eqn:E.
    + apply Permutation_sym, Permutation_nil in HP. contradiction.
    + apply walk_one_group. apply Forall_forall. intros m Hm.
      apply Hclose; eapply Permutation_in;
        try (apply Permutation_sym; exact HP); simpl; auto.
  - intros Htw Hnd Hfar.
    destruct (array_sort compareNotifications l) as [|n rest] eqn:E;
      [reflexivity|].
    apply walk_singles.
    assert (Hnd' : NoDup (n :: rest)) by (eapply Permutation_NoDup; eauto).
    assert (Hin : forall x, In x (n :: rest) -> In x l)
      by (intros x Hx; eapply Permutation_in; [apply Permutation_sym; exact HP|exact Hx]).
    clear E HP. revert HS Hnd' Hin.
    generalize (n :: rest). clear n rest.
    induction l0 as [|a l0 IH]; intros HS Hnd' Hin; constructor.
    + apply IH.
      * now inversion HS.
      * now inversion Hnd'.
      * intros x Hx. apply Hin. now right.
    + inversion HS as [|? ? _ Ha]; subst. inversion Hnd' as [|? ? Hna _]; subst.
      rewrite Forall_forall in *. intros b Hb.
      destruct (Hfar a b) as [Hr Hd].
      * apply Hin. now left.
      * apply Hin. now right.
      * intros ->. contradiction.
      * specialize (Ha b Hb). destruct Ha as [Ha|[_ Ha]]; lia.
Qed.

Lemma grouping_extremes_witness :
  groupNotificationsByTimeAndPriority four_reminders 200000
  = [[example_notification "b" 0; example_notification "d" 60000;
      example_notification "a" 120000; example_notification "c" 200000]]
  /\ groupNotificationsByTimeAndPriority four_reminders 30000
     = [[example_notification "b" 0]; [example_notification "d" 60000];
        [example_notification "a" 120000]; [example_notification "c" 200000]].
Proof.
  destruct (grouping_extremes four_reminders 200000) as [H1 _].
  destruct (grouping_extremes four_reminders 30000) as [_ H2].
  rewrite H1, H2.
  - split; reflexivity.
  - lia.
  - repeat constructor; simpl; intros H;
      repeat (destruct H as [H|H]; [discriminate H|]); exact H.
  - intros a b Ha Hb Hab. simpl in Ha, Hb.
    repeat (destruct Ha as [<-|Ha]; [|]); try contradiction;
      repeat (destruct Hb as [<-|Hb]; [|]); try contradiction;
      try (now elim Hab); split; try reflexivity; simpl; lia.
  - discriminate.
  - intros a b Ha Hb. simpl in Ha, Hb.
    repeat (destruct Ha as [<-|Ha]; [|]); try contradiction;
      repeat (destruct Hb as [<-|Hb]; [|]); try contradiction; simpl; lia.
Defined.

(** ** Tasks and their notifications *)

Lemma find_all_false {A} (p : A -> bool) l :
  (forall x, In x l -> p x = false) -> find p l = None.
Proof.
  induction l as [|a l IH]; intros H; simpl; [reflexivity|].
  rewrite (H a (or_introl eq_refl)). apply IH. intros x Hx. apply H. now right.
Qed.

Lemma filter_twice {A} (p q : A -> bool) l :
  filter p (filter q l) = filter (fun x => q x && p x) l.
Proof.
  induction l as [|a l IH]; simpl; [reflexivity|].
  destruct (q a); simpl; [destruct (p a)|]; now rewrite IH.
Qed.

(** The clean-up loop of [deleteTask]. *)
Lemma delete_loop xs : forall w,
  exists w',
    for_of xs (fun n => deleteScheduledNotification (id n)) w = (w', Resolved tt)
    /\ notifications w'
       = filter (fun m => negb (existsb (String.eqb (id m)) (map id xs)))
           (notifications w)
    /\ tasks w' = tasks w.
Proof.
  induction xs as [|x xs IH]; intros w.
  - exists w. split; [reflexivity|]. split; [|reflexivity]. simpl.
    induction (notifications w) as [|a l IHl]; simpl; congruence.
  - destruct (IH (with_notifications (Store.delete (id x) (notifications w)) w))
      as (w' & E & S & T).
    exists w'. split; [exact E|]. split; [|exact T].
    rewrite S. simpl. unfold Store.delete. rewrite filter_twice.
    apply filter_ext. intros m. now rewrite negb_orb.
Qed.

Lemma listed_in parse s x :
  In x (listed parse s) -> exists y, In y s /\ x = as_read parse y.
Proof.
  unfold listed. rewrite in_map_iff. intros (y & <- & Hy).
  exists y. split; [|reflexivity].
  apply in_rev in Hy. unfold TaskStore.index_createdAt in Hy.
  eapply Permutation_in; [apply Permutation_sym, array_sort_perm|exact Hy].
Qed.

Lemma TaskStore_get_delete key s :
  TaskStore.get key (TaskStore.delete key s) = None.
Proof.
  induction s as [|x s IH]; simpl; [reflexivity|].
  destruct (String.eqb (StoredTask.id x) key) eqn:E; simpl; [exact IH|].
  now rewrite E.
Qed.

Lemma TaskStore_get_delete_other key k s :
  k <> key -> TaskStore.get k (TaskStore.delete key s) = TaskStore.get k s.
Proof.
  intros Hk. induction s as [|x s IH]; simpl; [reflexivity|].
  destruct (String.eqb (StoredTask.id x) key) eqn:E; simpl.
  - apply String.eqb_eq in E.
    replace (String.eqb (StoredTask.id x) k) with false; [exact IH|].
    symmetry. apply String.eqb_neq. congruence.
  - now rewrite IH.
Qed.

(** [deleteTask] resolves, removes the task and leaves the other tasks; the
    notifications store keeps exactly the records of other tasks; and a
    snooze asked for the deleted task then does nothing. *)
Theorem deleting_a_task_deletes_its_notifications :
  forall parse key db,
    wf (browser db) ->
    exists w',
      deleteTask parse key db
      = (mkDatabase (TaskStore.delete key (tasks_store db)) w', Done tt)
      /\ TaskStore.get key (TaskStore.delete key (tasks_store db)) = None
      /\ (forall k, k <> key ->
            TaskStore.get k (TaskStore.delete key (tasks_store db))
            = TaskStore.get k (tasks_store db))
      /\ notifications w'
         = filter (fun n => negb (String.eqb (taskId n) key))
             (notifications (browser db))
      /\ (forall minutes, snoozeNotification key minutes w' = (w', Resolved tt)).
Proof.
  intros parse key db Hw. unfold deleteTask, guarded.
  set (s := TaskStore.delete key (tasks_store db)).
  unfold bind, getScheduledNotifications.
  destruct (delete_loop
              (filter (fun n => String.eqb (taskId n) key)
                 (notifications (commit parse s (browser db))))
              (commit parse s (browser db))) as (w' & E & S & T).
  rewrite E. exists w'. split; [reflexivity|].
  split; [apply TaskStore_get_delete|].
  split; [intros k Hk; now apply TaskStore_get_delete_other|].
  split.
  - rewrite S. simpl. apply filter_ext_in. intros m Hm. f_equal.
    destruct (String.eqb (taskId m) key) eqn:Em.
    + apply existsb_exists. exists (id m). split; [|apply String.eqb_refl].
      apply in_map. apply filter_In. auto.
    + apply not_true_is_false. intros H.
      apply existsb_exists in H as (k & Hk & Ek).
      apply String.eqb_eq in Ek. apply in_map_iff in Hk as (n & Hid & Hn).
      apply filter_In in Hn as [Hn Hkey].
      assert (m = n) by (eapply ordered_unique; eauto; congruence).
      congruence.
  - intros minutes. unfold snoozeNotification, try_catch, bind at 1, getTasks.
    rewrite T. simpl. rewrite find_all_false; [reflexivity|].
    intros x Hx. apply listed_in in Hx as (y & Hy & ->). simpl.
    apply filter_In in Hy as [_ Hy]. now apply negb_true_iff in Hy.
Qed.

Lemma deleting_a_task_witness :
  exists w',
    deleteTask (fun _ => 0) "task-1"
      (mkDatabase [StoredTask.mk "task-1" "water the plants" None None None
                     false None false 0 None]
         (example_world [example_notification "a" 1000;
                         set_isTriggered true (example_notification "b" 2000)]
            [plants] 5000))
    = (mkDatabase [] w', Done tt)
    /\ notifications w' = [].
Proof.
  destruct (deleting_a_task_deletes_its_notifications (fun _ => 0) "task-1"
              (mkDatabase [StoredTask.mk "task-1" "water the plants" None None None
                             false None false 0 None]
                 (example_world [example_notification "a" 1000;
                                 set_isTriggered true (example_notification "b" 2000)]
                    [plants] 5000)))
    as (w' & E & _ & _ & S & _).
  - reflexivity.
  - exists w'. split; [exact E|exact S].
Defined.

(** The record of the first occurrence is in the store when the call is
    over, or has run out of budget. *)
Lemma reminder_stored budget task taskTitle time rep interval options w :
  now w < time ->
  Store.get (uuids w (uuid_count w)) (notifications w) = None ->
  Store.get (uuids w (uuid_count w))
    (notifications
       (fst (scheduleTaskReminder (S budget) task taskTitle time rep interval
               options w)))
  = Some (reminder_record w task taskTitle time options).
Proof.
  intros Hlt Hnew. rewrite scheduleTaskReminder_step by assumption. cbv zeta.
  set (r0 := reminder_record w task taskTitle time options).
  set (w1 := with_notifications (Store.put r0 (notifications w))
               (with_uuid_count (S (uuid_count w)) w)).
  assert (Hg : Store.get (uuids w (uuid_count w)) (notifications w1) = Some r0)
    by apply (get_put_same r0).
  destruct rep; [destruct interval as [i|]|]; try exact Hg.
  destruct (JSDate.TimeClip _); [|exact Hg].
  now apply reminder_record_stays.
Qed.

(** [updateTask] rejects with "Task not found" on a key that is not in the
    tasks store, and changes nothing; on any update, be it the completion of
    the task or a new reminder time, every notification that was stored stays
    as it was; and a new reminder time in the future adds a notification for
    it beside the old ones. *)
Theorem updating_a_task_cancels_nothing :
  forall parse key updates db,
    let w := browser db in
    (forall budget,
       TaskStore.get key (tasks_store db) = None ->
       updateTask parse budget key updates db = (db, Failed TaskNotFound))
    /\ (forall budget k r,
          Store.get k (notifications w) = Some r ->
          Store.get k
            (notifications (browser (fst (updateTask parse budget key updates db))))
          = Some r)
    /\ (forall budget task reminderTime,
          TaskStore.get key (tasks_store db) = Some task ->
          truthy_string (read (TaskUpdates.reminderTime updates)) = Some reminderTime ->
          differs (Some reminderTime) (StoredTask.reminderTime task) = true ->
          now w < parse reminderTime ->
          Store.get (uuids w (uuid_count w)) (notifications w) = None ->
          exists r,
            Store.get (uuids w (uuid_count w))
              (notifications
                 (browser (fst (updateTask parse (S budget) key updates db))))
            = Some r
            /\ taskId r = StoredTask.id (merge task updates)
            /\ scheduledTime r = parse reminderTime
            /\ isTriggered r = false).
Proof.
  intros parse key updates db w. subst w. split; [|split].
  - intros budget E. unfold updateTask. now rewrite E.
  - intros budget k r Hg. unfold updateTask.
    destruct (TaskStore.get key (tasks_store db)) as [task|]; [|exact Hg].
    cbv zeta.
    destruct (truthy_string (read (TaskUpdates.reminderTime updates)))
      as [reminderTime|]; [|exact Hg].
    destruct (differs _ _); [|exact Hg].
    unfold guarded.
    match goal with
    | |- context [scheduleTaskReminder ?b ?t ?ti ?tm ?rep ?int ?o ?w] =>
        pose proof (scheduleTaskReminder_only_adds b t ti tm rep int o w k) as Ho;
        destruct (scheduleTaskReminder b t ti tm rep int o w) as [w' [[]|e|]]
    end; simpl in *;
      (destruct Ho as [Ho | [Ho _]]; [now rewrite Ho|congruence]).
  - intros budget task reminderTime Et Er Ed Hlt Hnew. unfold updateTask.
    rewrite Et. cbv zeta. rewrite Er, Ed. unfold guarded.
    set (s := TaskStore.put (merge task updates) (tasks_store db)).
    set (w1 := commit parse s (browser db)).
    pose proof (reminder_stored budget (StoredTask.id (merge task updates))
                  (StoredTask.title (merge task updates)) (parse reminderTime)
                  (StoredTask.isRepeating (merge task updates))
                  (StoredTask.repeatInterval (merge task updates)) None w1
                  Hlt Hnew) as Hs.
    destruct (scheduleTaskReminder (S budget) _ _ _ _ _ None w1) as [w' [[]|e|]];
      simpl in *; eexists; (split; [exact Hs|repeat split]).
Qed.

Lemma updating_a_task_witness :
  exists r,
    Store.get "a"
      (notifications
         (browser
            (fst (updateTask (fun _ => 9000) 1 "task-1"
                    (TaskUpdates.mk None None None None
                       (Some (Some "1970-01-01T00:00:09")) None None (Some true)
                       None None)
                    (mkDatabase
                       [StoredTask.mk "task-1" "water the plants" None None
                          (Some "1970-01-01T00:00:01") false None false 0 None]
                       (example_world [example_notification "a" 1000] [plants] 0))))))
    = Some (example_notification "a" 1000)
    /\ Store.get "b"
         (notifications
            (browser
               (fst (updateTask (fun _ => 9000) 1 "task-1"
                       (TaskUpdates.mk None None None None
                          (Some (Some "1970-01-01T00:00:09")) None None (Some true)
                          None None)
                       (mkDatabase
                          [StoredTask.mk "task-1" "water the plants" None None
                             (Some "1970-01-01T00:00:01") false None false 0 None]
                          (example_world [example_notification "a" 1000] [plants] 0))))))
       = Some r
    /\ scheduledTime r = 9000.
Proof.
  destruct (updating_a_task_cancels_nothing (fun _ => 9000) "task-1"
              (TaskUpdates.mk None None None None
                 (Some (Some "1970-01-01T00:00:09")) None None (Some true)
                 None None)
              (mkDatabase
                 [StoredTask.mk "task-1" "water the plants" None None
                    (Some "1970-01-01T00:00:01") false None false 0 None]
                 (example_world [example_notification "a" 1000] [plants] 0)))
    as (_ & Hkeep & Hnew).
  destruct (Hnew 0%nat
              (StoredTask.mk "task-1" "water the plants" None None
                 (Some "1970-01-01T00:00:01") false None false 0 None)
              "1970-01-01T00:00:09" eq_refl eq_refl eq_refl eq_refl eq_refl)
    as (r & Hr & _ & Hs & _).
  exists r. split; [|split; [exact Hr|exact Hs]].
  apply (Hkeep 1%nat). reflexivity.
Defined.

Lemma TaskStore_get_put_same v s :
  TaskStore.get (StoredTask.id v) (TaskStore.put v s) = Some v.
Proof.
  induction s as [|x s IH]; simpl.
  - now rewrite String.eqb_refl.
  - destruct (String.compare (StoredTask.id v) (StoredTask.id x)) eqn:C; simpl.
    + now rewrite String.eqb_refl.
    + now rewrite String.eqb_refl.
    + rewrite compare_neq; [exact IH|].
      intros H. apply OrderedTypeEx.String_as_OT.cmp_eq in H.
      rewrite H, compare_refl in C. discriminate.
Qed.

Lemma addTask_unfold parse budget task db :
  addTask parse budget task db
  = let w := browser db in
    let w1 := with_uuid_count (S (uuid_count w)) w in
    match TaskStore.get (uuids w (uuid_count w)) (tasks_store db) with
    | Some _ => (mkDatabase (tasks_store db) w1, Failed TaskConstraintError)
    | None =>
        let s := TaskStore.put (new_task task w) (tasks_store db) in
        match truthy_string (NewTask.reminderTime task) with
        | Some reminderTime =>
            guarded
              (scheduleTaskReminder budget (uuids w (uuid_count w))
                 (NewTask.title task) (parse reminderTime)
                 (NewTask.isRepeating task) (NewTask.repeatInterval task) None)
              "Error scheduling reminder:" (new_task task w) s (commit parse s w1)
        | None => (mkDatabase s (commit parse s w1), Done (new_task task w))
        end
    end.
Proof.
  unfold addTask, TaskStore.add. cbn [StoredTask.id].
  destruct (TaskStore.get _ _); reflexivity.
Qed.

(** [addTask] with a reminder that does not repeat resolves with the new
    task, stored under the fresh identifier.  A reminder time that is not in
    the future leaves the notifications store as it was.  One in the future
    adds a notification for that time which is always a plain one, titled
    "Task Reminder", of category reminder and normal priority and without a
    due date, whatever the due date of the task: [addTask] hands no options
    to [scheduleTaskReminder]. *)
Theorem reminders_of_new_tasks_ignore_the_due_date :
  forall parse budget task db reminderTime,
    let w := browser db in
    let key := uuids w (uuid_count w) in
    TaskStore.get key (tasks_store db) = None ->
    truthy_string (NewTask.reminderTime task) = Some reminderTime ->
    NewTask.isRepeating task = false \/ NewTask.repeatInterval task = None ->
    exists db',
      addTask parse (S budget) task db = (db', Done (new_task task w))
      /\ TaskStore.get key (tasks_store db') = Some (new_task task w)
      /\ (parse reminderTime <= now w ->
          notifications (browser db') = notifications w)
      /\ (now w < parse reminderTime ->
          Store.get (uuids w (S (uuid_count w))) (notifications w) = None ->
          exists r,
            Store.get (uuids w (S (uuid_count w))) (notifications (browser db'))
            = Some r
            /\ taskId r = key /\ scheduledTime r = parse reminderTime
            /\ title r = "Task Reminder"
            /\ category r = Some reminder /\ priority r = Some normal
            /\ taskDueDate r = None).
Proof.
  intros parse budget task db reminderTime w key Hkey Hrem Hrep.
  rewrite addTask_unfold. cbv zeta. fold w. fold key. rewrite Hkey, Hrem.
  set (s := TaskStore.put (new_task task w) (tasks_store db)).
  set (w1 := commit parse s (with_uuid_count (S (uuid_count w)) w)).
  assert (Hs : TaskStore.get key s = Some (new_task task w))
    by (apply (TaskStore_get_put_same (new_task task w))).
  unfold guarded.
  destruct (parse reminderTime <=? now w) eqn:Hpast.
  - apply Z.leb_le in Hpast.
    rewrite scheduleTaskReminder_rejects_past by exact Hpast.
    eexists. split; [reflexivity|]. split; [exact Hs|]. split.
    + reflexivity.
    + intros Hlt. simpl in Hlt. lia.
  - apply Z.leb_gt in Hpast.
    destruct (Store.get (uuids w (S (uuid_count w))) (notifications w)) eqn:Hnew.
    + destruct (scheduleTaskReminder (S budget) key (NewTask.title task)
                  (parse reminderTime) (NewTask.isRepeating task)
                  (NewTask.repeatInterval task) None w1) as [w2 [[]|e|]] eqn:E.
      * eexists. split; [reflexivity|]. split; [exact Hs|].
        split; [intros; lia|intros; discriminate].
      * eexists. split; [reflexivity|]. split; [exact Hs|].
        split; [intros; lia|intros; discriminate].
      * exfalso. revert E. cbn [scheduleTaskReminder]. unfold bind at 1, Date_now.
        replace (parse reminderTime <=? now w1) with false
          by (symmetry; apply Z.leb_gt; exact Hpast).
        unfold bind at 1.
        rewrite scheduleNotification_taken
          by (change (Store.get (uuids w (S (uuid_count w))) (notifications w) <> None);
              rewrite Hnew; discriminate).
        discriminate.
    + rewrite scheduleTaskReminder_step; [|exact Hpast|exact Hnew].
      cbv zeta.
      match goal with
      | |- context [if NewTask.isRepeating task then ?a else ?b] =>
          assert (Hdone : (if NewTask.isRepeating task then a else b) = b)
            by (destruct Hrep as [-> | ->];
                [reflexivity|now destruct (NewTask.isRepeating task)])
      end.
      rewrite Hdone.
      eexists. split; [reflexivity|]. split; [exact Hs|].
      split; [intros; lia|]. intros _ _.
      eexists. split.
      * cbn [browser notifications with_notifications].
        apply (get_put_same (reminder_record w1 key (NewTask.title task)
                               (parse reminderTime) None)).
      * repeat split.
Qed.

Lemma reminders_of_new_tasks_witness :
  exists db' r,
    addTask (fun _ => 9000) 1
      (NewTask.mk "water the plants" None (Some "1970-01-01T00:00:05")
         (Some "1970-01-01T00:00:09") false None false None)
      (mkDatabase [] (example_world [] [] 7000))
    = (db', Done (StoredTask.mk "b" "water the plants" None
                    (Some "1970-01-01T00:00:05") (Some "1970-01-01T00:00:09")
                    false None false 7000 None))
    /\ Store.get "c" (notifications (browser db')) = Some r
    /\ category r = Some reminder /\ taskDueDate r = None.
Proof.
  destruct (reminders_of_new_tasks_ignore_the_due_date (fun _ => 9000) 0
              (NewTask.mk "water the plants" None (Some "1970-01-01T00:00:05")
                 (Some "1970-01-01T00:00:09") false None false None)
              (mkDatabase [] (example_world [] [] 7000))
              "1970-01-01T00:00:09" eq_refl eq_refl (or_introl eq_refl))
    as (db' & E & _ & _ & H).
  destruct H as (r & Hr & _ & _ & _ & Hc & _ & Hd); [reflexivity|reflexivity|].
  exists db', r. split; [exact E|]. split; [exact Hr|]. split; assumption.
Defined.

(** [addTask] of a repeating task with a reminder in the future, in a zone
    with a fixed offset and with fresh identifiers to come.  [addTask]
    awaits [scheduleTaskReminder], which goes through the occurrences up to
    the end of the Date range: as long as the [n]-th occurrence is within
    the range, [n] nested calls have stored the notifications of the first
    [n] occurrences and [addTask] has not resolved.  The RangeError that
    ends the calls after the last occurrence within the range is caught and
    logged, and only then [addTask] resolves with the new task. *)
Theorem adding_a_repeating_task_fills_the_date_range :
  forall parse task db reminderTime interval offset,
    let w := browser db in
    let key := uuids w (uuid_count w) in
    let w0 := with_uuid_count (S (uuid_count w)) w in
    TaskStore.get key (tasks_store db) = None ->
    truthy_string (NewTask.reminderTime task) = Some reminderTime ->
    NewTask.isRepeating task = true ->
    NewTask.repeatInterval task = Some interval ->
    (forall t b, localTZA w t b = offset) ->
    fresh_uuids w0 ->
    now w < parse reminderTime ->
    Z.abs (parse reminderTime) <= JSDate.maxTime ->
    let occ := occurrence (localTZA w) interval (parse reminderTime) in
    let after n := addTask parse n task db in
    (forall n, occ n <= JSDate.maxTime ->
       snd (after n) = Pending
       /\ occurrences_stored key interval (parse reminderTime) n w0
            (browser (fst (after n))))
    /\ exists last,
         occ last <= JSDate.maxTime < occ (S last)
         /\ forall n, (last < n)%nat ->
              snd (after n) = Done (new_task task w)
              /\ occurrences_stored key interval (parse reminderTime) (S last) w0
                   (browser (fst (after n)))
              /\ In "Error scheduling reminder:" (console (browser (fst (after n)))).
Proof.
  intros parse task db reminderTime interval offset w key w0 Hkey Hrem Hrep Hint
    Hzone Hfresh Hlt Hrange occ after.
  set (s := TaskStore.put (new_task task w) (tasks_store db)).
  set (w1 := commit parse s w0).
  assert (Hafter : forall n,
            after n
            = guarded
                (scheduleTaskReminder n key (NewTask.title task)
                   (parse reminderTime) true (Some interval) None)
                "Error scheduling reminder:" (new_task task w) s w1).
  { intros n. unfold after. rewrite addTask_unfold. cbv zeta. fold w. fold key.
    rewrite Hkey, Hrem, Hrep, Hint. reflexivity. }
  split.
  - intros n Hn. rewrite Hafter. unfold guarded.
    destruct (scheduleTaskReminder_goes_on n key (NewTask.title task)
                (parse reminderTime) interval None w1 offset Hzone Hfresh Hlt
                ltac:(lia) Hn) as [Hu Hst].
    destruct (scheduleTaskReminder n key (NewTask.title task)
                (parse reminderTime) true (Some interval) None w1) as [w2 o].
    simpl in Hu. subst o. split; [reflexivity|exact Hst].
  - destruct (last_occurrence (localTZA w) offset Hzone interval
                (parse reminderTime) ltac:(lia)) as (last & Hb).
    exists last. split; [exact Hb|]. intros n Hl. rewrite Hafter. unfold guarded.
    destruct (scheduleTaskReminder_ends n last key (NewTask.title task)
                (parse reminderTime) interval None w1 offset Hzone Hfresh Hlt
                ltac:(lia) Hl Hb) as [Hu Hst].
    destruct (scheduleTaskReminder n key (NewTask.title task)
                (parse reminderTime) true (Some interval) None w1) as [w2 o].
    simpl in Hu. subst o. split; [reflexivity|]. split; [exact Hst|].
    simpl. apply in_or_app. right. now left.
Qed.

Lemma fresh_uuids_later w :
  fresh_uuids w -> fresh_uuids (with_uuid_count (S (uuid_count w)) w).
Proof.
  intros [Hnew Hdiff]. split; simpl.
  - intros i Hi. apply Hnew. lia.
  - intros i j Hi Hj. apply Hdiff; lia.
Qed.

(** The daily stand-up after four calls, and one added on the last day but
    one of the Date range: [addTask] resolves with two notifications
    stored. *)
Lemma adding_a_repeating_task_witness :
  snd (addTask (fun _ => 300000000) 4 stand_up (mkDatabase [] unary_world))
  = Pending
  /\ snd (addTask (fun _ => 8639999913600000) 3 stand_up
            (mkDatabase [] last_days_world))
     = Done (new_task stand_up last_days_world)
  /\ List.length
       (notifications
          (browser
             (fst (addTask (fun _ => 8639999913600000) 3 stand_up
                     (mkDatabase [] last_days_world))))) = 2%nat.
Proof.
  destruct (adding_a_repeating_task_fills_the_date_range (fun _ => 300000000)
              stand_up (mkDatabase [] unary_world) "1970-01-04T11:20" daily 0
              eq_refl eq_refl eq_refl eq_refl (fun _ _ => eq_refl)
              (fresh_uuids_later unary_world unary_world_fresh) eq_refl)
    as (Hon & _).
  - vm_compute. discriminate.
  - destruct (Hon 4%nat) as [Hp _]; [vm_compute; discriminate|].
    split; [exact Hp|]. split; vm_compute; reflexivity.
Defined.


(** What a call of [scheduleTaskReminder] for one occurrence leaves in the
    store. *)
Lemma scheduleTaskReminder_once budget task taskTitle time rep interval options w :
  rep = false \/ interval = None ->
  exists w' o,
    scheduleTaskReminder (S budget) task taskTitle time rep interval options w
    = (w', o)
    /\ o <> Unfinished
    /\ (notifications w' = notifications w
        \/ (Store.get (uuids w (uuid_count w)) (notifications w) = None
            /\ notifications w'
               = Store.put (reminder_record w task taskTitle time options)
                   (notifications w))).
Proof.
  intros Hrep.
  destruct (time <=? now w) eqn:Hpast.
  - apply Z.leb_le in Hpast. rewrite scheduleTaskReminder_rejects_past by exact Hpast.
    eexists. eexists. split; [reflexivity|]. split; [discriminate|]. now left.
  - apply Z.leb_gt in Hpast.
    destruct (Store.get (uuids w (uuid_count w)) (notifications w)) eqn:Hnew.
    + cbn [scheduleTaskReminder]. unfold bind at 1, Date_now.
      replace (time <=? now w) with false by (symmetry; apply Z.leb_gt; exact Hpast).
      unfold bind at 1.
      rewrite scheduleNotification_taken by (rewrite Hnew; discriminate).
      eexists. eexists. split; [reflexivity|]. split; [discriminate|]. now left.
    + rewrite scheduleTaskReminder_step; [|exact Hpast|exact Hnew]. cbv zeta.
      destruct Hrep as [-> | ->]; [|destruct rep];
        (eexists; eexists; split; [reflexivity|]; split; [discriminate|];
         right; split; [reflexivity|reflexivity]).
Qed.

Lemma filter_put_fresh (p : ScheduledNotification -> bool) v s :
  Store.get (id v) s = None -> p v = false ->
  (forall x, In x s -> p x = true) ->
  filter p (Store.put v s) = s.
Proof.
  induction s as [|n s IH]; simpl; intros Hg Hv Hs.
  - now rewrite Hv.
  - destruct (String.eqb (id n) (id v)) eqn:E; [discriminate|].
    destruct (String.compare (id v) (id n)) eqn:C; simpl.
    + apply OrderedTypeEx.String_as_OT.cmp_eq in C.
      apply String.eqb_neq in E. congruence.
    + rewrite Hv, (Hs n (or_introl eq_refl)). f_equal.
      clear - Hs. induction s as [|a s IHs]; simpl; [reflexivity|].
      rewrite (Hs a (or_intror (or_introl eq_refl))). f_equal. apply IHs.
      intros x [<-|Hx]; apply Hs; [now left|right; now right].
    + rewrite (Hs n (or_introl eq_refl)). f_equal. apply IH; auto.
Qed.

Lemma TaskStore_delete_absent key s :
  TaskStore.get key s = None -> TaskStore.delete key s = s.
Proof.
  induction s as [|x s IH]; simpl; [reflexivity|].
  destruct (String.eqb (StoredTask.id x) key); [discriminate|].
  intros H. simpl. f_equal. now apply IH.
Qed.

Lemma TaskStore_delete_put v s :
  TaskStore.get (StoredTask.id v) s = None ->
  TaskStore.delete (StoredTask.id v) (TaskStore.put v s) = s.
Proof.
  induction s as [|x s IH]; simpl; intros H.
  - now rewrite String.eqb_refl.
  - destruct (String.eqb (StoredTask.id x) (StoredTask.id v)) eqn:E; [discriminate|].
    destruct (String.compare (StoredTask.id v) (StoredTask.id x)) eqn:C; simpl.
    + apply OrderedTypeEx.String_as_OT.cmp_eq in C.
      apply String.eqb_neq in E. congruence.
    + rewrite String.eqb_refl, E. simpl. f_equal.
      now apply TaskStore_delete_absent.
    + rewrite E. simpl. f_equal. apply IH, H.
Qed.

(** Adding a task that does not repeat and deleting it again leaves the
    tasks store and the notifications store as they were, provided no stored
    notification already refers to the new identifier. *)
Theorem adding_then_deleting_a_task_restores_the_stores :
  forall parse budget task db,
    let w := browser db in
    let key := uuids w (uuid_count w) in
    wf w ->
    TaskStore.get key (tasks_store db) = None ->
    (forall n, In n (notifications w) -> taskId n <> key) ->
    NewTask.isRepeating task = false \/ NewTask.repeatInterval task = None ->
    let db1 := fst (addTask parse (S budget) task db) in
    let db2 := fst (deleteTask parse key db1) in
    snd (addTask parse (S budget) task db) = Done (new_task task w)
    /\ snd (deleteTask parse key db1) = Done tt
    /\ tasks_store db2 = tasks_store db
    /\ notifications (browser db2) = notifications w.
Proof.
  intros parse budget task db w key Hw Hkey Hnone Hrep db1 db2.
  assert (H1 : snd (addTask parse (S budget) task db) = Done (new_task task w)
               /\ tasks_store db1 = TaskStore.put (new_task task w) (tasks_store db)
               /\ (notifications (browser db1) = notifications w
                   \/ exists r, Store.get (id r) (notifications w) = None
                                /\ taskId r = key
                                /\ notifications (browser db1)
                                   = Store.put r (notifications w))).
  { unfold db1. rewrite addTask_unfold. cbv zeta. fold w. fold key. rewrite Hkey.
    destruct (truthy_string (NewTask.reminderTime task)) as [reminderTime|].
    - unfold guarded.
      set (s := TaskStore.put (new_task task w) (tasks_store db)).
      set (w1 := commit parse s (with_uuid_count (S (uuid_count w)) w)).
      destruct (scheduleTaskReminder_once budget key (NewTask.title task)
                  (parse reminderTime) (NewTask.isRepeating task)
                  (NewTask.repeatInterval task) None w1 Hrep)
        as (w' & o & E & Ho & Hn).
      rewrite E.
      assert (Hn' : notifications w' = notifications w
                    \/ exists r, Store.get (id r) (notifications w) = None
                                 /\ taskId r = key
                                 /\ notifications w' = Store.put r (notifications w)).
      { destruct Hn as [Hn | [Hg Hn]]; [now left|right].
        exists (reminder_record w1 key (NewTask.title task) (parse reminderTime) None).
        repeat split; assumption. }
      destruct o as [[]|e|]; [| |now elim Ho]; simpl; auto.
    - simpl. auto. }
  destruct H1 as (Ho & Hs & Hn).
  assert (Hw1 : wf (browser db1)).
  { unfold wf. destruct Hn as [-> | (r & _ & _ & ->)]; [exact Hw|].
    now apply ordered_put. }
  split; [exact Ho|].
  unfold db2, deleteTask, guarded, bind, getScheduledNotifications.
  destruct (delete_loop
              (filter (fun n => String.eqb (taskId n) key)
                 (notifications
                    (commit parse (TaskStore.delete key (tasks_store db1))
                       (browser db1))))
              (commit parse (TaskStore.delete key (tasks_store db1)) (browser db1)))
    as (w' & E & S & _).
  rewrite E. cbn [fst snd tasks_store browser].
  split; [reflexivity|]. split.
  - rewrite Hs. apply (TaskStore_delete_put (new_task task w)). exact Hkey.
  - rewrite S. cbn [commit with_tasks notifications].
    assert (Hf : forall s, Store.ordered s = true ->
              filter (fun m => negb (existsb (String.eqb (id m))
                                 (map id (filter (fun n => String.eqb (taskId n) key) s))))
                     s
              = filter (fun n => negb (String.eqb (taskId n) key)) s).
    { intros s Hs'. apply filter_ext_in. intros m Hm. f_equal.
      destruct (String.eqb (taskId m) key) eqn:Em.
      - apply existsb_exists. exists (id m). split; [|apply String.eqb_refl].
        apply in_map. apply filter_In. auto.
      - apply not_true_is_false. intros H.
        apply existsb_exists in H as (k & Hk & Ek).
        apply String.eqb_eq in Ek. apply in_map_iff in Hk as (n & Hid & Hn').
        apply filter_In in Hn' as [Hn' Hkey'].
        assert (m = n) by (eapply ordered_unique; eauto; congruence).
        congruence. }
    rewrite (Hf _ Hw1).
    assert (Hkeep : forall x, In x (notifications w) ->
              negb (String.eqb (taskId x) key) = true).
    { intros x Hx. apply negb_true_iff, String.eqb_neq. now apply Hnone. }
    destruct Hn as [-> | (r & Hg & Ht & ->)].
    + clear - Hkeep. induction (notifications w) as [|a l IH]; simpl; [reflexivity|].
      rewrite (Hkeep a (or_introl eq_refl)). f_equal. apply IH.
      intros x Hx. apply Hkeep. now right.
    + apply filter_put_fresh; [exact Hg| |exact Hkeep].
      rewrite Ht. now rewrite String.eqb_refl.
Qed.

Lemma adding_then_deleting_witness :
  tasks_store
    (fst (deleteTask (fun _ => 9000) "b"
            (fst (addTask (fun _ => 9000) 1 watering
                    (mkDatabase []
                       (example_world [example_notification "a" 1000] [plants] 0))))))
  = []
  /\ notifications
       (browser
          (fst (deleteTask (fun _ => 9000) "b"
                  (fst (addTask (fun _ => 9000) 1 watering
                          (mkDatabase []
                             (example_world [example_notification "a" 1000]
                                [plants] 0)))))))
     = [example_notification "a" 1000].
Proof.
  destruct (adding_then_deleting_a_task_restores_the_stores (fun _ => 9000) 0
              watering
              (mkDatabase []
                 (example_world [example_notification "a" 1000] [plants] 0)))
    as (_ & _ & H1 & H2).
  - reflexivity.
  - reflexivity.
  - intros n [<-|[]]. discriminate.
  - now left.
  - split; [exact H1|exact H2].
Defined.

Section SortGreatest.
Context {A : Type} (cmp : A -> A -> Z).

Lemma sort_insert_before_last a v l :
  cmp a v <= 0 -> sort_insert cmp a (l ++ [v]) = sort_insert cmp a l ++ [v].
Proof.
  intros H. induction l as [|y l IH]; simpl.
  - replace (cmp a v <=? 0) with true by (symmetry; now apply Z.leb_le).
    reflexivity.
  - destruct (cmp a y <=? 0); [reflexivity|]. simpl. now rewrite IH.
Qed.

Lemma sort_insert_greatest v l :
  (forall y, In y l -> 0 < cmp v y) -> sort_insert cmp v l = l ++ [v].
Proof.
  induction l as [|y l IH]; intros H; simpl; [reflexivity|].
  replace (cmp v y <=? 0) with false
    by (symmetry; apply Z.leb_gt, H; now left).
  f_equal. apply IH. intros z Hz. apply H. now right.
Qed.

(** The stable sort moves an item that comes after all others to the end
    and leaves the others as it would without it. *)
Lemma array_sort_greatest v l1 l2 :
  (forall y, In y (l1 ++ l2) -> 0 < cmp v y /\ cmp y v <= 0) ->
  array_sort cmp (l1 ++ v :: l2) = array_sort cmp (l1 ++ l2) ++ [v].
Proof.
  induction l1 as [|a l1 IH]; intros H.
  - simpl. apply sort_insert_greatest. intros y Hy. apply H. simpl.
    eapply Permutation_in; [apply Permutation_sym, array_sort_perm|exact Hy].
  - change (sort_insert cmp a (array_sort cmp (l1 ++ v :: l2))
            = sort_insert cmp a (array_sort cmp (l1 ++ l2)) ++ [v]).
    rewrite IH.
    + apply sort_insert_before_last. apply H. now left.
    + intros y Hy. apply H. now right.
Qed.
End SortGreatest.

Lemma TaskStore_put_splits v s :
  TaskStore.get (StoredTask.id v) s = None ->
  exists l1 l2, s = l1 ++ l2 /\ TaskStore.put v s = l1 ++ v :: l2.
Proof.
  induction s as [|x s IH]; simpl; intros H.
  - exists [], []. auto.
  - destruct (String.eqb (StoredTask.id x) (StoredTask.id v)) eqn:E; [discriminate|].
    destruct (String.compare (StoredTask.id v) (StoredTask.id x)) eqn:C.
    + apply OrderedTypeEx.String_as_OT.cmp_eq in C.
      apply String.eqb_neq in E. congruence.
    + exists [], (x :: s). auto.
    + destruct (IH H) as (l1 & l2 & -> & ->). exists (x :: l1), l2. auto.
Qed.

(** The notification module leaves the list of tasks alone. *)
Lemma scheduleTaskReminder_tasks budget task taskTitle time rep interval options w :
  tasks (fst (scheduleTaskReminder budget task taskTitle time rep interval options w))
  = tasks w.
Proof.
  apply (frames_scheduleTaskReminder (fun w w' => tasks w' = tasks w));
    try reflexivity.
  intros a b c H1 H2. congruence.
Qed.

(** After [addTask], [getTasks] lists the new task first and then the tasks
    it listed before, when the stored tasks were all created earlier. *)
Theorem a_new_task_is_listed_first :
  forall parse budget task db,
    let w := browser db in
    TaskStore.get (uuids w (uuid_count w)) (tasks_store db) = None ->
    (forall x, In x (tasks_store db) -> StoredTask.createdAt x < now w) ->
    getTasks (browser (fst (addTask parse budget task db)))
    = (browser (fst (addTask parse budget task db)),
       Resolved (as_read parse (new_task task w) :: listed parse (tasks_store db))).
Proof.
  intros parse budget task db w Hkey Hold.
  assert (Hl : listed parse (TaskStore.put (new_task task w) (tasks_store db))
               = as_read parse (new_task task w) :: listed parse (tasks_store db)).
  { destruct (TaskStore_put_splits (new_task task w) (tasks_store db) Hkey)
      as (l1 & l2 & Es & Ep).
    unfold listed, TaskStore.index_createdAt. rewrite Ep, Es.
    rewrite array_sort_greatest.
    - rewrite rev_app_distr. reflexivity.
    - intros y Hy. rewrite <- Es in Hy. specialize (Hold y Hy).
      change (StoredTask.createdAt (new_task task w)) with (now w). lia. }
  unfold getTasks. f_equal. f_equal.
  rewrite addTask_unfold. cbv zeta. fold w. rewrite Hkey.
  destruct (truthy_string (NewTask.reminderTime task)) as [reminderTime|].
  - unfold guarded.
    match goal with
    | |- context [scheduleTaskReminder ?b ?t ?ti ?tm ?rep ?int ?o ?w0] =>
        pose proof (scheduleTaskReminder_tasks b t ti tm rep int o w0) as Ht;
        destruct (scheduleTaskReminder b t ti tm rep int o w0) as [w' [[]|e|]]
    end; simpl in *; rewrite Ht; exact Hl.
  - simpl. exact Hl.
Qed.

Lemma a_new_task_witness :
  snd (getTasks
         (browser
            (fst (addTask (fun _ => 9000) 1 watering
                    (mkDatabase
                       [StoredTask.mk "task-1" "water the plants" None None None
                          false None false 0 None]
                       (example_world [] [plants] 7000))))))
  = Resolved
      [Task.mk "b" "water the plants" (Some 9000) (Some 9000) false None false;
       plants].
Proof.
  rewrite (a_new_task_is_listed_first (fun _ => 9000) 1 watering
             (mkDatabase
                [StoredTask.mk "task-1" "water the plants" None None None
                   false None false 0 None]
                (example_world [] [plants] 7000))).
  - reflexivity.
  - reflexivity.
  - intros x [<-|[]]. reflexivity.
Defined.

(** ** Snoozing what has been delivered *)

Lemma adds_for_others_refl task w : adds_for_others task w w.
Proof. split; [eauto|]. intros key r' H1 H2. congruence. Qed.

Lemma adds_for_others_trans task a b c :
  adds_for_others task a b -> adds_for_others task b c -> adds_for_others task a c.
Proof.
  intros [K1 N1] [K2 N2]. split.
  - intros key r Hr. destruct (K1 key r Hr) as (r1 & Hr1 & T1).
    destruct (K2 key r1 Hr1) as (r2 & Hr2 & T2). exists r2. split; congruence.
  - intros key r' Ha Hc.
    destruct (Store.get key (notifications b)) as [rb|] eqn:Hb.
    + destruct (K2 key rb Hb) as (r2 & Hr2 & T2).
      rewrite Hc in Hr2. injection Hr2 as <-. rewrite T2. eapply N1; eauto.
    + eapply N2; eauto.
Qed.

Lemma adds_for_others_store task w w' :
  notifications w' = notifications w -> adds_for_others task w w'.
Proof.
  intros E. split; rewrite E; [eauto|]. intros key r' H1 H2. congruence.
Qed.

Lemma adds_for_others_put task w v :
  (forall r, Store.get (id v) (notifications w) = Some r -> taskId v = taskId r) ->
  (Store.get (id v) (notifications w) = None -> taskId v <> task) ->
  adds_for_others task w (with_notifications (Store.put v (notifications w)) w).
Proof.
  intros Hold Hnew. split; simpl.
  - intros key r Hr. destruct (String.eqb key (id v)) eqn:E.
    + apply String.eqb_eq in E. subst key. rewrite get_put_same.
      exists v. split; [reflexivity|]. now apply Hold.
    + apply String.eqb_neq in E. rewrite get_put_other by assumption. eauto.
  - intros key r' Hn Hs. destruct (String.eqb key (id v)) eqn:E.
    + apply String.eqb_eq in E. subst key. rewrite get_put_same in Hs.
      injection Hs as <-. now apply Hnew.
    + apply String.eqb_neq in E. rewrite get_put_other in Hs by assumption.
      congruence.
Qed.

Lemma trigger_adds_for_others task n :
  (recurring n = true -> taskId n <> task) ->
  respects (adds_for_others task) (Part000.trigger n).
Proof.
  intros Hn. unfold Part000.trigger.
  apply (respects_then _ (adds_for_others_trans task)).
  - intros w. unfold markNotificationTriggered, bind, store_get, store_put, reject.
    simpl. destruct (Store.get (id n) (notifications w)) as [found|] eqn:G; simpl.
    + apply adds_for_others_put; simpl.
      * apply get_id in G as Hid. rewrite Hid, G. now intros r [= <-].
      * apply get_id in G as Hid. rewrite Hid, G. discriminate.
    + apply adds_for_others_refl.
  - intros _. destruct (recurring n) eqn:Hr; [|apply respects_ret, adds_for_others_refl].
    specialize (Hn eq_refl). intros w. unfold scheduleRecurringNotification.
    destruct (recurringPattern n) as [pattern|]; [|apply adds_for_others_refl].
    unfold bind.
    destruct (Store.get (uuids w (uuid_count w)) (notifications w)) eqn:G.
    + rewrite scheduleNotification_taken by (rewrite G; discriminate).
      now apply adds_for_others_store.
    + rewrite scheduleNotification_fresh by exact G. cbv zeta. cbn [fst ret].
      eapply adds_for_others_trans;
        [apply (adds_for_others_store task w (with_uuid_count (S (uuid_count w)) w));
         reflexivity|].
      match goal with
      | |- adds_for_others _ _ (with_notifications (Store.put ?v _) _) =>
          apply (adds_for_others_put task (with_uuid_count (S (uuid_count w)) w) v)
      end; simpl.
      * rewrite G. discriminate.
      * intros _. exact Hn.
Qed.

Lemma showNotification_fresh t b ts ns o w :
  fresh_uuids w ->
  exists w', showNotification t b ts ns o w = (w', Resolved tt)
             /\ notifications w' = notifications w /\ fresh_uuids w'.
Proof.
  intros [H1 H2].
  destruct (showNotification_keeps t b ts ns o w) as (ws & Es & En & Eu & Ec).
  exists ws. split; [exact Es|]. split; [exact En|]. split.
  - intros i Hi. rewrite En, Eu. apply H1. now rewrite <- Ec.
  - intros i j Hi Hj. rewrite Eu. apply H2; [now rewrite <- Ec|exact Hj].
Qed.

(** With fresh identifiers to come a pass runs to its end and leaves fresh
    identifiers to come. *)
Lemma pass000_resolves_fresh w :
  fresh_uuids w ->
  exists w', Part000.checkAndTriggerNotifications_body w = (w', Resolved tt)
             /\ fresh_uuids w'.
Proof.
  intros Hf. unfold Part000.checkAndTriggerNotifications_body,
    getScheduledNotifications, Date_now, bind. simpl. fold (due_in w).
  destruct (List.length (due_in w) =? 0)%nat; [now exists w|].
  set (groups := groupNotificationsByTimeAndPriority _ _).
  assert (Hin : forall g n, In g groups -> In n g -> In n (notifications w)).
  { intros g n Hg Hn.
    assert (In n (List.concat groups)) as Hc by (apply in_concat; eauto).
    unfold groups in Hc. rewrite grouping_concat in Hc.
    eapply Permutation_in in Hc; [|symmetry; apply array_sort_perm].
    unfold due_in in Hc. apply filter_In in Hc. tauto. }
  set (Inv := fun w0 => fresh_uuids w0
                /\ forall n, In n (notifications w) ->
                             Store.get (id n) (notifications w0) <> None).
  change (exists w', for_of groups deliver w = (w', Resolved tt) /\ fresh_uuids w').
  destruct (for_of_resolves Inv deliver groups) with (w := w) as (w' & E & Hw' & _).
  - intros g Hg w0 [Hf0 Hk0]. unfold deliver, bind.
    assert (Hs : exists ws, Part000.show_group g w0 = (ws, Resolved tt) /\ Inv ws).
    { unfold Part000.show_group.
      destruct g as [|n [|m g']];
        match goal with |- context [showNotification ?t ?b ?ts ?ns ?o w0] =>
          destruct (showNotification_fresh t b ts ns o w0 Hf0)
            as (ws & Es & En & Hfs) end;
        (exists ws; split; [exact Es|]; split;
         [exact Hfs|intros n0 Hn0; rewrite En; now apply Hk0]). }
    destruct Hs as (ws & -> & Hws).
    apply (for_of_resolves Inv); [|exact Hws].
    intros n Hn w1 [Hf1 Hk1].
    destruct (trigger_resolves n w1 Hf1) as (w2 & E2 & Hf2 & Hk2).
    + apply Hk1. eauto.
    + exists w2. split; [exact E2|]. split; [exact Hf2|].
      intros n0 Hn0. apply Hk2. now apply Hk1.
  - split; [exact Hf|]. intros n Hn. now apply In_get_some.
  - now exists w'.
Qed.

Lemma pass001_resolves_fresh w :
  fresh_uuids w ->
  exists w', Part001.checkAndTriggerNotifications w = (w', Resolved tt)
             /\ fresh_uuids w'.
Proof.
  intros Hf. unfold Part001.checkAndTriggerNotifications, bind,
    getScheduledNotifications, Date_now.
  set (Inv := fun w0 => fresh_uuids w0
                /\ forall n, In n (notifications w) ->
                             Store.get (id n) (notifications w0) <> None).
  destruct (for_of_resolves Inv (Part001.check (now w)) (notifications w))
    with (w := w) as (w' & E & Hw' & _).
  - intros n Hn w0 [Hf0 Hk0]. rewrite check_as_trigger.
    destruct (is_due (now w) n); [|exists w0; split; [reflexivity|now split]].
    unfold bind.
    destruct (showNotification_fresh (title n) (body n) [taskId n] []
                (mkShowOptions (priority n) (category n) (taskDueDate n)
                   (snoozeCount n) (isGrouped n) None) w0 Hf0)
      as (ws & -> & En & Hfs).
    destruct (trigger_resolves n ws Hfs) as (w2 & E2 & Hf2 & Hk2).
    + rewrite En. now apply Hk0.
    + exists w2. split; [exact E2|]. split; [exact Hf2|].
      intros m Hm. apply Hk2. rewrite En. now apply Hk0.
  - split; [exact Hf|]. intros n Hn. now apply In_get_some.
  - now exists w'.
Qed.

Lemma pass000_adds_for_others task w :
  (forall n, In n (due_in w) -> recurring n = true -> taskId n <> task) ->
  adds_for_others task w (fst (Part000.checkAndTriggerNotifications w)).
Proof.
  intros Hd.
  assert (Hb : adds_for_others task w
                 (fst (Part000.checkAndTriggerNotifications_body w))).
  { unfold Part000.checkAndTriggerNotifications_body,
      getScheduledNotifications, Date_now, bind. simpl. fold (due_in w).
    destruct (_ =? _)%nat; [apply adds_for_others_refl|].
    set (groups := groupNotificationsByTimeAndPriority _ _).
    assert (Hin : forall g n, In g groups -> In n g -> In n (due_in w)).
    { intros g n Hg Hn.
      assert (In n (List.concat groups)) as Hc by (apply in_concat; eauto).
      unfold groups in Hc. rewrite grouping_concat in Hc.
      eapply Permutation_in; [symmetry; apply array_sort_perm|exact Hc]. }
    apply (respects_for_of _ (adds_for_others_refl task) (adds_for_others_trans task)).
    intros g Hg. apply (respects_then _ (adds_for_others_trans task)).
    - intros w0. destruct (show_group_resolves g w0) as (ws & Es & En).
      rewrite Es. now apply adds_for_others_store.
    - intros _.
      apply (respects_for_of _ (adds_for_others_refl task) (adds_for_others_trans task)).
      intros n Hn. apply trigger_adds_for_others. apply Hd. eauto. }
  unfold Part000.checkAndTriggerNotifications, try_catch.
  destruct (Part000.checkAndTriggerNotifications_body w) as [w' [[]|e|]];
    simpl in *; exact Hb.
Qed.

Lemma pass001_adds_for_others task w :
  (forall n, In n (due_in w) -> recurring n = true -> taskId n <> task) ->
  adds_for_others task w (fst (Part001.checkAndTriggerNotifications w)).
Proof.
  intros Hd. unfold Part001.checkAndTriggerNotifications,
    getScheduledNotifications, Date_now, bind. simpl.
  apply (respects_for_of _ (adds_for_others_refl task) (adds_for_others_trans task)).
  intros n Hn w0. rewrite check_as_trigger.
  destruct (is_due (now w) n) eqn:D; [|apply adds_for_others_refl].
  apply (respects_then _ (adds_for_others_trans task)).
  - intros w1. destruct (showNotification_resolves (title n) (body n) [taskId n] []
                (mkShowOptions (priority n) (category n) (taskDueDate n)
                   (snoozeCount n) (isGrouped n) None) w1) as (ws & Es & En).
    rewrite Es. now apply adds_for_others_store.
  - intros _. apply trigger_adds_for_others. apply Hd. apply filter_In. auto.
Qed.

(** A snooze when every notification of the task has been delivered. *)
Lemma snooze_after_delivery_computes task minutes w found :
  fresh_uuids w ->
  find (fun t => String.eqb (Task.id t) task) (tasks w) = Some found ->
  (forall n, In n (notifications w) -> taskId n = task -> isTriggered n = true) ->
  let v0 := snooze_record task minutes found w in
  let s := Store.put v0 (notifications w) in
  exists s',
    snoozeNotification task minutes w
    = (with_notifications s' (with_uuid_count (S (uuid_count w)) w), Resolved tt)
    /\ (s' = s
        \/ exists t, In t s /\ taskId t = task
                     /\ scheduledTime t = now w + minutes * 60 * 1000
                     /\ s' = Store.put (set_snoozeCount 1 t) s).
Proof.
  intros Hf Hfound Hall v0 s.
  unfold snoozeNotification, try_catch.
  unfold bind at 1, getTasks. simpl. rewrite Hfound.
  unfold bind at 1, getScheduledNotifications at 1. simpl.
  rewrite (find_all_false
             (fun n => String.eqb (taskId n) task && negb (isTriggered n))).
  2:{ intros n Hn. destruct (String.eqb (taskId n) task) eqn:E; [|reflexivity].
      apply String.eqb_eq in E. now rewrite (Hall n Hn E). }
  unfold bind at 1, Date_now. simpl. unfold bind at 1.
  rewrite scheduleNotification_fresh by (apply Hf; apply Nat.le_refl).
  cbv zeta.
  match goal with
  | |- context [Store.put ?v (notifications w)] => change v with v0
  end.
  fold s. unfold bind, getScheduledNotifications.
  cbn [notifications with_notifications].
  destruct (find _ s) as [t|] eqn:F.
  - apply find_some in F as [Ht Hp]. apply andb_true_iff in Hp as [H1 H2].
    apply String.eqb_eq in H1. apply Z.eqb_eq in H2.
    eexists. split; [reflexivity|]. right. exists t. auto.
  - eexists. split; [reflexivity|]. now left.
Qed.

Lemma same_keys_put_taken v s :
  Store.get (id v) s <> None -> same_keys s (Store.put v s).
Proof.
  intros H key. destruct (String.eqb key (id v)) eqn:E.
  - apply String.eqb_eq in E. subst key. rewrite get_put_same.
    split; [contradiction|discriminate].
  - apply String.eqb_neq in E. now rewrite get_put_other.
Qed.

Lemma first_snooze_patched r :
  first_snooze r -> first_snooze (set_snoozeCount 1 r).
Proof. intros (Ht & Hp & _). repeat split; auto. Qed.

Lemma first_snooze_marked r :
  first_snooze r -> first_snooze (set_isTriggered true r).
Proof. intros (Ht & Hp & Hc). repeat split; auto. Qed.

Lemma snooze_step task minutes w0 w found :
  wf w -> fresh_uuids w ->
  find (fun t => String.eqb (Task.id t) task) (tasks w) = Some found ->
  all_delivered task w -> new_are_first_snoozes task w0 w ->
  let w1 := fst (snoozeNotification task minutes w) in
  wf w1 /\ fresh_uuids w1 /\ tasks w1 = tasks w /\ now w1 = now w
  /\ new_are_first_snoozes task w0 w1
  /\ (forall n, In n (notifications w1) -> taskId n = task ->
        isTriggered n = true
        \/ (recurring n = false /\ scheduledTime n = now w + minutes * 60 * 1000)).
Proof.
  intros Hw Hf Hfound Hall Hnew w1.
  destruct (snooze_after_delivery_computes task minutes w found Hf Hfound Hall)
    as (s' & E & Hs').
  set (v0 := snooze_record task minutes found w) in *.
  set (s := Store.put v0 (notifications w)) in *.
  assert (Hfs : fresh_uuids (with_notifications s (with_uuid_count (S (uuid_count w)) w)))
    by (apply fresh_uuids_put; [exact Hf|reflexivity]).
  assert (Hos : Store.ordered s = true) by (apply ordered_put, Hw).
  assert (Hv0 : Store.get (id v0) (notifications w) = None)
    by (apply Hf; apply Nat.le_refl).
  (* the store before the patch *)
  assert (Hnew_s : forall key r,
            Store.get key (notifications w0) = None ->
            Store.get key s = Some r -> taskId r = task -> first_snooze r).
  { intros key r H0 Hr Ht. destruct (String.eqb key (id v0)) eqn:Ek.
    - apply String.eqb_eq in Ek. subst key. unfold s in Hr.
      rewrite get_put_same in Hr. injection Hr as <-.
      repeat split. now right.
    - apply String.eqb_neq in Ek. unfold s in Hr.
      rewrite get_put_other in Hr by assumption. eapply Hnew; eauto. }
  assert (Hpend_s : forall n, In n s -> taskId n = task ->
            isTriggered n = true
            \/ (recurring n = false /\ scheduledTime n = now w + minutes * 60 * 1000)).
  { intros n Hn Ht. apply In_put in Hn as [-> | Hn].
    - right. split; reflexivity.
    - left. now apply Hall. }
  unfold w1. rewrite E. cbn [fst].
  destruct Hs' as [-> | (t & Ht & Htask & Htime & ->)].
  - split; [exact Hos|]. split; [exact Hfs|].
    split; [reflexivity|]. split; [reflexivity|].
    split; [exact Hnew_s|exact Hpend_s].
  - assert (Hgt : Store.get (id t) s = Some t) by now apply ordered_get.
    split; [unfold wf; simpl; now apply ordered_put|].
    split.
    { apply (fresh_uuids_same_keys
               (with_notifications s (with_uuid_count (S (uuid_count w)) w)) _ Hfs).
      simpl. apply (same_keys_put_taken (set_snoozeCount 1 t)). simpl.
      rewrite Hgt. discriminate. }
    split; [reflexivity|]. split; [reflexivity|]. split.
    + intros key r H0 Hr Hrt. simpl in Hr.
      destruct (String.eqb key (id t)) eqn:Ek.
      * apply String.eqb_eq in Ek. subst key.
        change (id t) with (id (set_snoozeCount 1 t)) in Hr.
        rewrite get_put_same in Hr. injection Hr as <-.
        apply first_snooze_patched. apply (Hnew_s (id t) t H0 Hgt Htask).
      * apply String.eqb_neq in Ek.
        rewrite get_put_other in Hr by (simpl; assumption).
        now apply (Hnew_s key r).
    + intros n Hn Hnt. simpl in Hn. apply In_put in Hn as [-> | Hn].
      * destruct (Hpend_s t Ht Htask) as [H|[H1 H2]]; [now left|right].
        split; [exact H1|exact H2].
      * now apply Hpend_s.
Qed.

Lemma pass_marks_only pass w :
  pass = OpEvaluate000 \/ pass = OpEvaluate001 -> marks_only w (run pass w).
Proof.
  intros [-> | ->]; simpl.
  - apply (respects_check000 marks_only marks_only_refl marks_only_trans
             marks_only_quiet).
    + intros w0 v H _ _. now apply marks_only_add.
    + exact marks_only_mark.
  - apply (respects_check001 marks_only marks_only_refl marks_only_trans
             marks_only_quiet).
    + intros w0 v H _ _. now apply marks_only_add.
    + exact marks_only_mark.
Qed.

Lemma pass_tasks pass w :
  pass = OpEvaluate000 \/ pass = OpEvaluate001 -> tasks (run pass w) = tasks w.
Proof.
  intros [-> | ->]; simpl;
    [apply (frames_check000 (fun w w' => tasks w' = tasks w))
    |apply (frames_check001 (fun w w' => tasks w' = tasks w))];
    try reflexivity; intros a b c H1 H2; congruence.
Qed.

(** An evaluation pass once the task's notifications are delivered or due
    and not recurring. *)
Lemma pass_step task pass w0 w :
  pass = OpEvaluate000 \/ pass = OpEvaluate001 ->
  wf w -> fresh_uuids w -> new_are_first_snoozes task w0 w ->
  (forall n, In n (notifications w) -> taskId n = task ->
     isTriggered n = true \/ (recurring n = false /\ scheduledTime n <= now w)) ->
  let w' := run pass w in
  wf w' /\ fresh_uuids w' /\ tasks w' = tasks w
  /\ all_delivered task w' /\ new_are_first_snoozes task w0 w'.
Proof.
  intros Hp Hw Hf Hnew Hpend w'.
  assert (Hwf' : wf w') by (apply run_wf, Hw).
  pose proof (pass_marks_only pass w Hp) as [_ Hm]. fold w' in Hm.
  assert (Hrec : forall n, In n (due_in w) -> recurring n = true -> taskId n <> task).
  { intros n Hn Hr Ht. apply filter_In in Hn as [Hn Hd].
    apply andb_true_iff in Hd as [Hd _]. apply negb_true_iff in Hd.
    destruct (Hpend n Hn Ht) as [H|[H _]]; congruence. }
  assert (Hrun : fresh_uuids w' /\ adds_for_others task w w'
                 /\ forall n, In n (due_in w) -> triggered_in (id n) (notifications w')).
  { unfold w'. destruct Hp as [-> | ->]; simpl.
    - destruct (pass000_resolves_fresh w Hf) as (w3 & E & Hf3).
      pose proof (pass000_adds_for_others task w Hrec) as Ha.
      pose proof (completed_pass_triggers_the_due w w3 Hw E) as [_ Ht].
      unfold Part000.checkAndTriggerNotifications, try_catch in *.
      rewrite E in *. auto.
    - destruct (pass001_resolves_fresh w Hf) as (w3 & E & Hf3).
      pose proof (pass001_adds_for_others task w Hrec) as Ha.
      pose proof (completed_pass001_triggers_the_due w w3 Hw E) as Ht.
      rewrite E in *. auto. }
  destruct Hrun as (Hf' & [_ Hadd] & Htrig).
  split; [exact Hwf'|]. split; [exact Hf'|].
  split; [now apply pass_tasks|]. split.
  - intros n Hn Ht. pose proof (ordered_get n _ Hwf' Hn) as Hg.
    destruct (Store.get (id n) (notifications w)) as [r|] eqn:Hr.
    + destruct (Hm (id n) r Hr) as [Hs | Hs]; rewrite Hs in Hg;
        injection Hg as <-; [|reflexivity].
      apply get_In in Hr as Hin.
      destruct (isTriggered r) eqn:Hi; [reflexivity|].
      destruct (Hpend r Hin Ht) as [H|[_ Hd]]; [congruence|].
      destruct (Htrig r) as (r' & Hg' & Hi').
      * apply filter_In. split; [exact Hin|]. unfold is_due. rewrite Hi. simpl.
        now apply Z.leb_le.
      * rewrite Hs in Hg'. injection Hg' as <-. congruence.
    + now elim (Hadd (id n) n Hr Hg).
  - intros key r H0 Hg Ht.
    destruct (Store.get key (notifications w)) as [r2|] eqn:Hr.
    + destruct (Hm key r2 Hr) as [Hs | Hs]; rewrite Hs in Hg; injection Hg as <-.
      * eapply Hnew; eauto.
      * apply first_snooze_marked. eapply Hnew; eauto.
    + now elim (Hadd key r Hr Hg).
Qed.

(** The invariant of the cycle. *)
Lemma cycles_keep task pass w0 cycles : forall w,
  pass = OpEvaluate000 \/ pass = OpEvaluate001 ->
  (forall c, In c cycles -> fst c * 60000 <= Z.max 0 (snd c)) ->
  wf w -> fresh_uuids w ->
  (exists found, find (fun t => String.eqb (Task.id t) task) (tasks w) = Some found) ->
  all_delivered task w -> new_are_first_snoozes task w0 w ->
  let w' := run_all (List.concat (map (fire_snooze_cycle task pass) cycles)) w in
  all_delivered task w' /\ new_are_first_snoozes task w0 w'.
Proof.
  induction cycles as [|[m e] cycles IH]; intros w Hp Hc Hw Hf Hfound Hall Hnew.
  - simpl. auto.
  - cbn [map List.concat fire_snooze_cycle fst snd app run_all fold_left].
    destruct Hfound as (found & Hfound).
    destruct (snooze_step task m w0 w found Hw Hf Hfound Hall Hnew)
      as (Hw1 & Hf1 & Ht1 & Hn1 & Hnew1 & Hpend1).
    set (w1 := fst (snoozeNotification task m w)) in *.
    change (run (OpSnooze task m) w) with w1.
    set (w2 := run (OpElapse e) w1).
    assert (Hstep : wf (run pass w2) /\ fresh_uuids (run pass w2)
                    /\ tasks (run pass w2) = tasks w2
                    /\ all_delivered task (run pass w2)
                    /\ new_are_first_snoozes task w0 (run pass w2)).
    { apply pass_step; try assumption.
      intros n Hn Ht. destruct (Hpend1 n Hn Ht) as [H|[H1 H2]]; [now left|right].
      split; [exact H1|]. unfold w2. simpl. rewrite H2, Hn1.
      specialize (Hc (m, e) (or_introl eq_refl)). simpl in Hc. lia. }
    destruct Hstep as (Hw3 & Hf3 & Ht3 & Hall3 & Hnew3).
    apply IH; try assumption.
    + intros c Hin. apply Hc. now right.
    + exists found. rewrite Ht3. unfold w2. simpl. now rewrite Ht1.
Qed.

(** A task whose notifications are all delivered is snoozed, the snooze
    comes due and a pass delivers it, any number of times over, with either
    evaluator.  The task's notifications are then all delivered again, and
    every record these cycles have added for the task is a first snooze: the
    plain title, normal priority, and a count of at most 1.  The count does
    not carry over from one cycle to the next. *)
Theorem snooze_count_restarts_after_delivery :
  forall task pass cycles w found,
    pass = OpEvaluate000 \/ pass = OpEvaluate001 ->
    wf w -> fresh_uuids w ->
    find (fun t => String.eqb (Task.id t) task) (tasks w) = Some found ->
    (forall n, In n (notifications w) -> taskId n = task -> isTriggered n = true) ->
    (forall c, In c cycles -> fst c * 60000 <= Z.max 0 (snd c)) ->
    let w' := run_all (List.concat (map (fire_snooze_cycle task pass) cycles)) w in
    (forall n, In n (notifications w') -> taskId n = task -> isTriggered n = true)
    /\ forall key r,
         Store.get key (notifications w) = None ->
         Store.get key (notifications w') = Some r ->
         taskId r = task ->
         title r = "Snoozed Task Reminder"
         /\ priority r = Some normal
         /\ (snoozeCount r = Some 1 \/ snoozeCount r = Some 0).
Proof.
  intros task pass cycles w found Hp Hw Hf Hfound Hall Hc w'.
  apply (cycles_keep task pass w cycles w); try assumption.
  - now exists found.
  - intros key r H0 H1. congruence.
Qed.

Lemma delivered_world_fresh : fresh_uuids delivered_world.
Proof.
  split; simpl.
  - intros i _. destruct i; reflexivity.
  - intros i j _ Hlt E. apply (f_equal String.length) in E.
    rewrite !unary_uuid_length in E. lia.
Qed.


Lemma snooze_count_witness :
  Store.get "uu"
    (notifications
       (run_all (List.concat
                   (map (fire_snooze_cycle "task-1" OpEvaluate000)
                      [(10, 600000); (60, 3600000)]))
          delivered_world)) = Some second_snooze
  /\ title second_snooze = "Snoozed Task Reminder"
  /\ priority second_snooze = Some normal.
Proof.
  assert (E : Store.get "uu"
    (notifications
       (run_all (List.concat
                   (map (fire_snooze_cycle "task-1" OpEvaluate000)
                      [(10, 600000); (60, 3600000)]))
          delivered_world)) = Some second_snooze) by (vm_compute; reflexivity).
  destruct (snooze_count_restarts_after_delivery "task-1" OpEvaluate000
              [(10, 600000); (60, 3600000)] delivered_world plants
              (or_introl eq_refl) eq_refl delivered_world_fresh eq_refl)
    as [_ H].
  - intros n [<-|[]] _. reflexivity.
  - intros c [<-|[<-|[]]]; simpl; lia.
  - destruct (H "uu" second_snooze eq_refl E eq_refl) as (Ht & Hp & _).
    split; [exact E|]. split; assumption.
Defined.

(** ** How a pass makes the store grow *)

Lemma length_put_new v s :
  Store.get (id v) s = None -> List.length (Store.put v s) = S (List.length s).
Proof.
  induction s as [|n s IH]; simpl; intros H; [reflexivity|].
  destruct (String.eqb (id n) (id v)) eqn:E; [discriminate|].
  destruct (String.compare (id v) (id n)) eqn:C; simpl.
  - apply OrderedTypeEx.String_as_OT.cmp_eq in C.
    apply String.eqb_neq in E. congruence.
  - reflexivity.
  - now rewrite IH.
Qed.

Lemma length_put_taken v s :
  Store.ordered s = true -> Store.get (id v) s <> None ->
  List.length (Store.put v s) = List.length s.
Proof. intros Ho Hg. rewrite put_replaces by assumption. apply length_map. Qed.

Lemma length_filter_perm {A} (p : A -> bool) l l' :
  Permutation l l' -> List.length (filter p l) = List.length (filter p l').
Proof.
  induction 1; simpl.
  - reflexivity.
  - destruct (p x); simpl; congruence.
  - destruct (p x), (p y); reflexivity.
  - congruence.
Qed.

(** What [trigger] does to the size of the store. *)
Lemma trigger_length n w :
  wf w -> fresh_uuids w -> Store.get (id n) (notifications w) <> None ->
  exists w',
    Part000.trigger n w = (w', Resolved tt)
    /\ wf w' /\ fresh_uuids w'
    /\ (forall key, Store.get key (notifications w) <> None ->
                    Store.get key (notifications w') <> None)
    /\ List.length (notifications w')
       = (List.length (notifications w) + if recurring n then 1 else 0)%nat.
Proof.
  intros Hw Hf Hn. unfold Part000.trigger, bind.
  unfold markNotificationTriggered, bind, store_get, store_put. simpl.
  destruct (Store.get (id n) (notifications w)) as [found|] eqn:G; [|congruence].
  simpl. set (wm := with_notifications _ w).
  apply get_id in G as Hid.
  assert (Hpres : Store.get (id (set_isTriggered true found)) (notifications w) <> None)
    by (simpl; rewrite Hid, G; discriminate).
  assert (Hk : same_keys (notifications w) (notifications wm))
    by (apply (same_keys_put_taken (set_isTriggered true found)); exact Hpres).
  assert (Hfm : fresh_uuids wm) by now apply fresh_uuids_same_keys.
  assert (Hwm : wf wm) by (unfold wf, wm; simpl; now apply ordered_put).
  assert (Hlm : List.length (notifications wm) = List.length (notifications w))
    by (apply (length_put_taken (set_isTriggered true found)); assumption).
  assert (Hkeep : forall key, Store.get key (notifications w) <> None ->
                              Store.get key (notifications wm) <> None)
    by (intros key Hkey Hnone; apply Hk in Hnone; contradiction).
  destruct (recurring n) eqn:Hr.
  - unfold scheduleRecurringNotification. unfold recurring in Hr.
    apply andb_true_iff in Hr as [_ Hr].
    destruct (recurringPattern n) as [pattern|]; [|discriminate].
    unfold bind. rewrite scheduleNotification_fresh
      by (apply Hfm; apply Nat.le_refl).
    cbv zeta.
    match goal with |- context [Store.put ?v _] => set (v0 := v) end.
    assert (Hv0 : Store.get (id v0) (notifications wm) = None)
      by (apply Hfm; apply Nat.le_refl).
    eexists. split; [reflexivity|]. split; [|split; [|split]].
    + unfold wf. simpl. apply ordered_put, Hwm.
    + apply (fresh_uuids_put wm); [exact Hfm|reflexivity].
    + intros key Hkey. simpl.
      destruct (String.eqb key (id v0)) eqn:E.
      * apply String.eqb_eq in E. subst key. rewrite get_put_same. discriminate.
      * apply String.eqb_neq in E. rewrite get_put_other by assumption.
        now apply Hkeep.
    + simpl. rewrite (length_put_new v0) by exact Hv0.
      change (List.length (Store.put (set_isTriggered true found) (notifications w)))
        with (List.length (notifications wm)). lia.
  - exists wm. split; [reflexivity|]. split; [exact Hwm|].
    split; [exact Hfm|]. split; [exact Hkeep|]. rewrite Hlm. lia.
Qed.

Lemma trigger_loop_length g : forall w,
  wf w -> fresh_uuids w ->
  (forall n, In n g -> Store.get (id n) (notifications w) <> None) ->
  exists w',
    for_of g Part000.trigger w = (w', Resolved tt)
    /\ wf w' /\ fresh_uuids w'
    /\ (forall key, Store.get key (notifications w) <> None ->
                    Store.get key (notifications w') <> None)
    /\ List.length (notifications w')
       = (List.length (notifications w) + List.length (filter recurring g))%nat.
Proof.
  induction g as [|n g IH]; intros w Hw Hf Hg.
  - exists w. split; [reflexivity|]. split; [exact Hw|]. split; [exact Hf|].
    split; [auto|simpl; lia].
  - destruct (trigger_length n w Hw Hf (Hg n (or_introl eq_refl)))
      as (w1 & E1 & Hw1 & Hf1 & Hk1 & L1).
    destruct (IH w1 Hw1 Hf1) as (w2 & E2 & Hw2 & Hf2 & Hk2 & L2).
    { intros m Hm. apply Hk1, Hg. now right. }
    exists w2. split; [|split; [exact Hw2|split; [exact Hf2|split]]].
    + cbn [for_of]. unfold bind at 1. rewrite E1. exact E2.
    + intros key Hkey. now apply Hk2, Hk1.
    + rewrite L2, L1. simpl. destruct (recurring n); simpl; lia.
Qed.

Lemma deliver_loop_length gs : forall w,
  wf w -> fresh_uuids w ->
  (forall n, In n (List.concat gs) -> Store.get (id n) (notifications w) <> None) ->
  exists w',
    for_of gs deliver w = (w', Resolved tt)
    /\ List.length (notifications w')
       = (List.length (notifications w)
          + List.length (filter recurring (List.concat gs)))%nat.
Proof.
  induction gs as [|g gs IH]; intros w Hw Hf Hg.
  - exists w. simpl. split; [reflexivity|lia].
  - assert (Hs : exists ws, Part000.show_group g w = (ws, Resolved tt)
                            /\ notifications ws = notifications w /\ fresh_uuids ws).
    { unfold Part000.show_group.
      destruct g as [|n [|m g']]; now apply showNotification_fresh. }
    destruct Hs as (ws & Es & En & Hfs).
    destruct (trigger_loop_length g ws) as (w2 & E2 & Hw2 & Hf2 & Hk2 & L2).
    + unfold wf. now rewrite En.
    + exact Hfs.
    + intros n Hn. rewrite En. apply Hg. simpl. apply in_or_app. now left.
    + destruct (IH w2 Hw2 Hf2) as (w3 & E3 & L3).
      { intros n Hn. apply Hk2. rewrite En. apply Hg. simpl. apply in_or_app.
        now right. }
      exists w3. split.
      * cbn [for_of]. unfold bind at 1. unfold deliver at 1. unfold bind at 1.
        rewrite Es, E2. exact E3.
      * rewrite L3, L2, En. simpl. rewrite filter_app, length_app. lia.
Qed.

Lemma check_loop_length current xs : forall w,
  wf w -> fresh_uuids w ->
  (forall n, In n xs -> Store.get (id n) (notifications w) <> None) ->
  exists w',
    for_of xs (Part001.check current) w = (w', Resolved tt)
    /\ List.length (notifications w')
       = (List.length (notifications w)
          + List.length (filter recurring (filter (is_due current) xs)))%nat.
Proof.
  induction xs as [|n xs IH]; intros w Hw Hf Hg.
  - exists w. simpl. split; [reflexivity|lia].
  - cbn [for_of filter]. unfold bind at 1. rewrite check_as_trigger.
    destruct (is_due current n) eqn:D.
    + unfold bind at 1.
      destruct (showNotification_fresh (title n) (body n) [taskId n] []
                  (mkShowOptions (priority n) (category n) (taskDueDate n)
                     (snoozeCount n) (isGrouped n) None) w Hf)
        as (ws & -> & En & Hfs).
      destruct (trigger_length n ws) as (w2 & E2 & Hw2 & Hf2 & Hk2 & L2).
      * unfold wf. now rewrite En.
      * exact Hfs.
      * rewrite En. apply Hg. now left.
      * rewrite E2. destruct (IH w2 Hw2 Hf2) as (w3 & E3 & L3).
        { intros m Hm. apply Hk2. rewrite En. apply Hg. now right. }
        exists w3. split; [exact E3|]. rewrite L3, L2, En. simpl.
        destruct (recurring n); simpl; lia.
    + apply IH; auto. intros m Hm. apply Hg. now right.
Qed.

(** After a pass of either evaluator the store holds as many records as
    before and one more for each due record that is recurring. *)
Theorem a_pass_adds_one_record_for_each_recurrence :
  forall w,
    wf w -> fresh_uuids w ->
    List.length (notifications (fst (Part000.checkAndTriggerNotifications w)))
    = (List.length (notifications w) + List.length (rescheduled_by_a_pass w))%nat
    /\ List.length (notifications (fst (Part001.checkAndTriggerNotifications w)))
       = (List.length (notifications w) + List.length (rescheduled_by_a_pass w))%nat.
Proof.
  intros w Hw Hf. unfold rescheduled_by_a_pass. split.
  - assert (Hb : exists w', Part000.checkAndTriggerNotifications_body w
                            = (w', Resolved tt)
                  /\ List.length (notifications w')
                     = (List.length (notifications w)
                        + List.length (filter recurring (due_in w)))%nat).
    { unfold Part000.checkAndTriggerNotifications_body, bind,
        getScheduledNotifications, Date_now. fold (due_in w).
      destruct (List.length (due_in w) =? 0)%nat eqn:L.
      - apply Nat.eqb_eq, length_zero_iff_nil in L. rewrite L.
        exists w. split; [reflexivity|]. simpl. lia.
      - set (gs := groupNotificationsByTimeAndPriority (due_in w) (3 * 60 * 1000)).
        assert (HP : Permutation (due_in w) (List.concat gs))
          by (unfold gs; rewrite grouping_concat; apply array_sort_perm).
        destruct (deliver_loop_length gs w Hw Hf) as (w' & E & L').
        + intros n Hn. apply In_get_some.
          eapply Permutation_in in Hn; [|symmetry; exact HP].
          apply filter_In in Hn. tauto.
        + exists w'. split; [exact E|]. rewrite L'.
          now rewrite (length_filter_perm recurring _ _ HP). }
    destruct Hb as (w' & E & L).
    unfold Part000.checkAndTriggerNotifications, try_catch. rewrite E. exact L.
  - unfold Part001.checkAndTriggerNotifications, bind,
      getScheduledNotifications, Date_now.
    destruct (check_loop_length (now w) (notifications w) w Hw Hf) as (w' & E & L).
    + intros n Hn. now apply In_get_some.
    + rewrite E. exact L.
Qed.

Lemma a_pass_adds_witness :
  List.length (notifications (fst (Part000.checkAndTriggerNotifications unary_world)))
  = 2%nat
  /\ List.length (notifications (fst (Part001.checkAndTriggerNotifications unary_world)))
     = 2%nat.
Proof.
  destruct (a_pass_adds_one_record_for_each_recurrence unary_world eq_refl
              unary_world_fresh) as [H0 H1].
  rewrite H0, H1. split; reflexivity.
Defined.
